(** * teleeye-api: the entity synchronisation engine

    A shallow embedding of the logging core of the proxy
    ([app/core/utils.py], [app/services/telegram/entity_logger.py],
    [app/services/telegram/logger.py] and the webhook handler of
    [app/routes/telegram/bots.py]) together with the properties the
    design document states about it.

    Conventions.
    - Python values that travel through request and response bodies are
      [json] values; a [dict] is an association list with unique keys kept
      in insertion order.
    - Python objects that the extractor walks live in a [heap] indexed by
      their identity ([id(obj)]); the walker threads its [seen] set.  A
      call of the walker that does not return stands for the
      [RecursionError] the interpreter ends it with.
    - The database is a record of tables (lists of rows, in insertion
      order) plus the list of statements executed so far.  A statement that
      raises aborts the unit of work: the computation ends in [Err] and no
      state is returned (the caller never commits). *)

From Stdlib Require Import ZArith Ascii String.
From stdpp Require Import gmap strings list.

Set Warnings "-register-all,-clear-no-such-hyp".
Open Scope string_scope.
Open Scope list_scope.
Open Scope Z_scope.

(** ** Python values *)

Module Py.

Inductive json :=
| JNull
| JBool (b : bool)
| JInt (z : Z)
| JStr (s : string)
| JList (xs : list json)
| JDict (kvs : list (string * json)).

Definition jdict := list (string * json).

(** Truth value testing: [None], [False], zero, the empty string and the
    empty containers are falsy. *)
Definition truthy (v : json) : bool :=
  match v with
  | JNull => false
  | JBool b => b
  | JInt z => negb (z =? 0)
  | JStr s => negb (String.eqb s "")
  | JList xs => match xs with [] => false | _ => true end
  | JDict kvs => match kvs with [] => false | _ => true end
  end.

Definition truthy_int (o : option Z) : bool :=
  match o with Some z => negb (z =? 0) | None => false end.

Definition truthy_str (o : option string) : bool :=
  match o with Some s => negb (String.eqb s "") | None => false end.

Definition truthy_bool (o : option bool) : bool :=
  match o with Some b => b | None => false end.

(** [k in d] *)
Fixpoint dmem (d : jdict) (k : string) : bool :=
  match d with
  | [] => false
  | (k', _) :: r => if String.eqb k' k then true else dmem r k
  end.

(** [d[k]], [None] standing for [KeyError] *)
Fixpoint dlookup (d : jdict) (k : string) : option json :=
  match d with
  | [] => None
  | (k', v) :: r => if String.eqb k' k then Some v else dlookup r k
  end.

(** [d.get(k)] *)
Definition dget (d : jdict) (k : string) : json :=
  match dlookup d k with Some v => v | None => JNull end.

(** [d[k] = v]: an existing key keeps its position *)
Fixpoint dset (d : jdict) (k : string) (v : json) : jdict :=
  match d with
  | [] => [(k, v)]
  | (k', v') :: r =>
      if String.eqb k' k then (k, v) :: r else (k', v') :: dset r k v
  end.

(** [del d[k]] for a key that may be absent *)
Fixpoint ddel (d : jdict) (k : string) : jdict :=
  match d with
  | [] => []
  | (k', v') :: r =>
      if String.eqb k' k then ddel r k else (k', v') :: ddel r k
  end.

(** [d.update(other)] *)
Definition dupdate (d other : jdict) : jdict :=
  fold_left (fun acc kv => dset acc (fst kv) (snd kv)) other d.

Definition str_in (k : string) (ks : list string) : bool :=
  existsb (String.eqb k) ks.

(** [attr.startswith("_")] *)
Definition startswith_underscore (s : string) : bool :=
  match s with
  | String c _ => Ascii.eqb c "_"%char
  | EmptyString => false
  end.

(** [s.lstrip("@")] *)
Fixpoint lstrip_at (s : string) : string :=
  match s with
  | String c r => if Ascii.eqb c "@"%char then lstrip_at r else s
  | EmptyString => EmptyString
  end.

End Py.
Import Py.

(** ** Exceptions

    What a call can end in instead of a value. *)
Inductive exn :=
| KeyError | AttributeError | TypeError | ValueError
| RecursionError     (* the interpreter's recursion limit was reached *)
| ArgumentError      (* sqlalchemy.exc.ArgumentError *)
| IntegrityError     (* a primary key inserted twice *)
| MultipleResultsFound
| TelegramError.     (* the live get_chat call failed *)

Inductive result (A : Type) :=
| Ok (a : A)
| Err (e : exn).
Arguments Ok {A} a.
Arguments Err {A} e.

Definition rbind {A B} (r : result A) (k : A -> result B) : result B :=
  match r with Ok a => k a | Err e => Err e end.
Notation "'try' x ':=' r 'in' k" := (rbind r (fun x => k))
  (at level 10, x pattern, r at level 100, k at level 200).

(** ** app/core/utils.py *)

(** The nested helper [recurse] of [remove_fields]: every key of
    [exclude_nested] is deleted from every dictionary, at any depth. *)
Fixpoint recurse (exclude_nested : list string) (value : json) : json :=
  match value with
  | JDict kvs =>
      JDict ((fix each (kvs : list (string * json)) : list (string * json) :=
                match kvs with
                | [] => []
                | (key, v) :: r =>
                    if str_in key exclude_nested then each r
                    else (key, recurse exclude_nested v) :: each r
                end) kvs)
  | JList xs => JList (List.map (recurse exclude_nested) xs)
  | _ => value
  end.

Definition remove_fields (data : jdict) (exclude exclude_nested : list string)
  : jdict :=
  let data := fold_left ddel exclude data in
  match exclude_nested with
  | [] => data
  | _ => match recurse exclude_nested (JDict data) with
         | JDict d => d
         | _ => data
         end
  end.

(** ** app/core/enums.py *)

Inductive ChatType := PRIVATE | GROUP | SUPERGROUP | CHANNEL.

(** [ChatType(value)]; [None] stands for the [ValueError] of an unknown
    value. *)
Definition ChatType_of_value (s : string) : option ChatType :=
  if String.eqb s "private" then Some PRIVATE
  else if String.eqb s "group" then Some GROUP
  else if String.eqb s "supergroup" then Some SUPERGROUP
  else if String.eqb s "channel" then Some CHANNEL
  else None.

Module MessageType.
Inductive t :=
| TEXT | PHOTO | AUDIO | DOCUMENT | VIDEO | ANIMATION | VOICE | VIDEO_NOTE
| PAID_MEDIA | LOCATION | VENUE | CONTACT | POLL | CHECKLIST | DICE | STICKER
| STORY | INVOICE | GAME | GIVEAWAY | PASSPORT | SERVICE.

Definition value (m : t) : string :=
  match m with
  | TEXT => "text" | PHOTO => "photo" | AUDIO => "audio"
  | DOCUMENT => "document" | VIDEO => "video" | ANIMATION => "animation"
  | VOICE => "voice" | VIDEO_NOTE => "video_note"
  | PAID_MEDIA => "paid_media" | LOCATION => "location" | VENUE => "venue"
  | CONTACT => "contact" | POLL => "poll" | CHECKLIST => "checklist"
  | DICE => "dice" | STICKER => "sticker" | STORY => "story"
  | INVOICE => "invoice" | GAME => "game" | GIVEAWAY => "giveaway"
  | PASSPORT => "passport" | SERVICE => "service"
  end.
End MessageType.

Module FileType.
Inductive t :=
| CHAT_PHOTO | PHOTO | ANIMATION | AUDIO | DOCUMENT | VIDEO | VIDEO_NOTE
| VOICE | STICKER | PASSPORT.

Definition value (f : t) : string :=
  match f with
  | CHAT_PHOTO => "chat_photo" | PHOTO => "photo" | ANIMATION => "animation"
  | AUDIO => "audio" | DOCUMENT => "document" | VIDEO => "video"
  | VIDEO_NOTE => "video_note" | VOICE => "voice" | STICKER => "sticker"
  | PASSPORT => "passport"
  end.
End FileType.

Module EntityCheckResultType.
Definition CHAT : Z := 1.
Definition USER : Z := 2.
Definition MESSAGE : Z := 3.
Definition FILE : Z := 4.
End EntityCheckResultType.

(** ** app/core/constants.py *)

Definition MESSAGE_RETURNED_METHODS : list string :=
  [ "sendMessage"; "forwardMessage"; "sendPhoto"; "sendAudio";
    "sendDocument"; "sendVideo"; "sendAnimation"; "sendVoice";
    "sendVideoNote"; "sendPaidMedia"; "sendLocation"; "sendVenue";
    "sendContact"; "sendPoll"; "sendChecklist"; "sendDice"; "sendSticker";
    "sendInvoice"; "sendGame" ].

Definition EDITED_MESSAGE_RETURNED_METHODS : list string :=
  [ "editMessageText"; "editMessageCaption"; "editMessageMedia";
    "editMessageLiveLocation"; "stopMessageLiveLocation";
    "editMessageChecklist"; "editMessageReplyMarkup"; "setGameScore" ].

(** ** The payload objects of the [telegram] package

    Only the attributes the logging core reads are kept; [to_dict()] is the
    field ending in [_dict]. *)

Record TgUser := {
  u_id : Z;
  u_first_name : string;
  u_last_name : option string;
  u_username : option string;
  u_language_code : option string;
  u_is_premium : option bool;
  u_is_bot : bool }.

Record TgChat := {
  c_id : Z;
  c_type : string;
  c_title : option string;
  c_username : option string;
  c_first_name : option string;
  c_last_name : option string;
  c_is_forum : option bool;
  c_is_direct_messages : option bool }.

Record TgMessage := {
  m_id : Z;
  m_chat : TgChat;
  m_message_thread_id : option Z;
  m_text : option string;
  m_caption : option string;
  m_from_user : option TgUser;
  m_sender_chat : option TgChat;
  m_sender_boost_count : option Z;
  m_sender_business_bot : option TgUser;
  m_date : Z;
  m_edit_date : option Z;
  m_business_connection_id : option string;
  m_is_topic_message : option bool;
  m_is_automatic_forward : option bool;
  m_has_media_spoiler : option bool;
  m_has_protected_content : option bool;
  m_is_from_offline : option bool;
  m_is_paid_post : option bool;
  m_author_signature : option string;
  m_paid_star_count : option Z;
  m_delete_chat_photo : option bool;
  m_group_chat_created : option bool;
  m_supergroup_chat_created : option bool;
  m_channel_chat_created : option bool;
  m_dict : jdict }.

(** [message.chat_id] *)
Definition m_chat_id (m : TgMessage) : Z := c_id (m_chat m).

Inductive file_class :=
| PhotoSize | Animation | Audio | Document | Video | VideoNote | Voice
| Sticker | PassportFile
| OtherTelegramObject   (* a TelegramObject outside FILE_TO_TYPE_MAPPING *)
| ForeignObject.        (* not a TelegramObject at all *)

Record TgFile := {
  f_class : file_class;
  f_dict : jdict }.

(** [getattr(file, "file_unique_id")], [None] standing for
    [AttributeError] *)
Definition f_file_unique_id (f : TgFile) : option string :=
  match dlookup (f_dict f) "file_unique_id" with
  | Some (JStr s) => Some s
  | _ => None
  end.

Record ChatPhoto := {
  small_file_id : string;
  small_file_unique_id : string;
  big_file_id : string;
  big_file_unique_id : string }.

Record ChatFullInfo := {
  cfi_id : Z;
  cfi_type : string;
  cfi_title : option string;
  cfi_username : option string;
  cfi_first_name : option string;
  cfi_last_name : option string;
  cfi_is_forum : option bool;
  cfi_is_direct_messages : option bool;
  cfi_personal_chat : option TgChat;
  cfi_parent_chat : option TgChat;
  cfi_pinned_message : option TgMessage;
  cfi_photo : option ChatPhoto;
  cfi_dict : jdict }.

(** ** The object graph the extractor walks

    Every Python value is an object and is known by its identity: a
    payload object, and just as well [None], a Boolean, a number, a
    string, a date or a bound method.  The walkers make no difference: a
    dictionary contributes its values, a list, tuple or set its items, and
    whatever else there is the values of the public names [dir(obj)]
    lists ([None] where [getattr] raises).  The heap holds the objects a
    walk can meet, each under its identity.  An object that a read makes
    (a bound method, the value of a property) is made once in a walk,
    since its owner is gone into once, and so has a place in the heap like
    any other.

    A float cannot be laid out like this.  [dir] of a float lists [imag],
    and [getattr(x, "imag")] is a new float at every read, with an [imag]
    of its own: behind a float there is a chain of objects without end,
    none of which was seen before.  [PFloat] stands for such an object. *)

Abbreviation oid := positive.

Inductive instance :=
| IUser (u : TgUser)
| IChat (c : TgChat)
| IMessage (m : TgMessage)
| IFile (f : TgFile)
| IUpdate (edited_message edited_channel_post edited_business_message
            : option oid)
| IOther.   (* any other object: None, a number that is no float, a string,
               a date, a bound method, a payload object of another class *)

Inductive pyobj :=
| PDict (values : list oid)
| PSeq (items : list oid)
| PInst (i : instance) (attrs : list (string * option oid))
| PFloat.

Abbreviation heap := (gmap oid pyobj).

Definition is_float (h : heap) (obj : oid) : bool :=
  match h !! obj with Some PFloat => true | _ => false end.

(** The public names [dir] lists for a float. *)
Definition float_dir : list string :=
  [ "as_integer_ratio"; "conjugate"; "fromhex"; "hex"; "imag"; "is_integer";
    "real" ].

(** The classes [find_instances] is asked for. *)
Inductive target_type := UpdateUser | Chat | Message.

Definition isinstance (h : heap) (obj : oid) (t : target_type) : bool :=
  match h !! obj, t with
  | Some (PInst (IUser _) _), UpdateUser => true
  | Some (PInst (IChat _) _), Chat => true
  | Some (PInst (IMessage _) _), Message => true
  | _, _ => false
  end.

Definition hasattr (h : heap) (obj : oid) (attr : string) : bool :=
  match h !! obj with
  | Some (PInst _ attrs) =>
      existsb (fun av => String.eqb (fst av) attr &&
                         match snd av with Some _ => true | None => false end)
              attrs
  | Some PFloat => str_in attr float_dir
  | _ => false
  end.

(** The values reached by the loop over [dir(obj)]: private names are
    skipped, and so are names whose [getattr] raises. *)
Definition public_values (attrs : list (string * option oid)) : list oid :=
  omap (fun av => if startswith_underscore (fst av) then None else snd av)
       attrs.

(** The objects of the heap the loops of a walker go into from [obj].
    What is behind a float is not in the heap; [walk] deals with it. *)
Definition children (h : heap) (obj : oid) : list oid :=
  match h !! obj with
  | Some (PDict values) => values
  | Some (PSeq items) => items
  | Some (PInst _ attrs) => public_values attrs
  | Some PFloat => []
  | None => []
  end.

(** What one call leaves behind: the shared [seen] set, the objects it
    went into (in order; kept for the proofs only) and the list it
    returns. *)
Definition walked := (gset oid * list oid * list oid)%type.

(** The [for] loops: [found.extend(f(value, ..., seen))] for each child.
    A call that does not return ends the loop. *)
Fixpoint extend_all (f : gset oid -> oid -> option walked)
    (seen : gset oid) (values : list oid) : option walked :=
  match values with
  | [] => Some (seen, [], [])
  | v :: rest =>
      match f seen v with
      | None => None
      | Some (seen1, vis1, found1) =>
          match extend_all f seen1 rest with
          | None => None
          | Some (seen2, vis2, found2) =>
              Some (seen2, vis1 ++ vis2, found1 ++ found2)
          end
      end
  end.

(** The common body of [find_instances] and
    [find_objects_with_attributes]; [wanted] is the test that appends the
    object itself.

    [None] means that the call does not return: the recursion goes deeper
    until the interpreter raises [RecursionError], and the error passes
    through every frame of the walk, because the recursive call stands
    outside the [try] that guards [getattr].  This is what a float that
    was not seen before leads to: the loop over its names comes to [imag]
    and from there to float after float.  On the objects of the heap the
    depth is bounded by [fuel], the frames that are left. *)
Fixpoint walk (h : heap) (wanted : oid -> bool) (fuel : nat)
    (seen : gset oid) (obj : oid) : option walked :=
  match fuel with
  | O => None
  | S fuel' =>
      if decide (obj ∈ seen) then Some (seen, [], [])
      else if is_float h obj then None
      else
        let seen := {[obj]} ∪ seen in
        let found := if wanted obj then [obj] else [] in
        match extend_all (walk h wanted fuel') seen (children h obj) with
        | None => None
        | Some (seen', vis, found') =>
            Some (seen', obj :: vis, found ++ found')
        end
  end.

Definition find_instances_from (h : heap) (target : target_type)
    (fuel : nat) (seen : gset oid) (obj : oid) : option walked :=
  walk h (fun o => isinstance h o target) fuel seen obj.

Definition find_objects_with_attributes_from (h : heap)
    (required_attrs : list string) (fuel : nat) (seen : gset oid) (obj : oid)
  : option walked :=
  walk h (fun o => forallb (hasattr h o) required_attrs) fuel seen obj.

(** A call without [seen] starts from the empty set.  The recursion
    limit of the interpreter is taken to leave more frames than the heap
    has objects; on the objects of the heap the walk is never that deep
    (see [walk_returns]), so that [RecursionError] is what a float brings
    about and nothing else. *)
Definition enough (h : heap) : nat := S (size h).

Definition find_instances (h : heap) (obj : oid) (target : target_type)
  : result (list oid) :=
  match find_instances_from h target (enough h) ∅ obj with
  | Some (_, _, found) => Ok found
  | None => Err RecursionError
  end.

Definition find_objects_with_attributes (h : heap) (obj : oid)
    (required_attrs : list string) : result (list oid) :=
  match find_objects_with_attributes_from h required_attrs (enough h) ∅ obj
  with
  | Some (_, _, found) => Ok found
  | None => Err RecursionError
  end.

(** The objects a walk from [root] can get to: [root] itself and, from
    an object it can get to, each of its children. *)
Inductive reachable (h : heap) (root : oid) : oid -> Prop :=
| reachable_root : reachable h root root
| reachable_child (x c : oid) :
    reachable h root x -> c ∈ children h x -> reachable h root c.

(** No float can be reached from [root]. *)
Definition float_free (h : heap) (root : oid) : Prop :=
  forall o, reachable h root o -> is_float h o = false.

(** Built-in values as objects of the heap (CPython 3.11). *)
Module Builtins.

(** A bound method of a built-in type: [dir] lists no public name for
    it. *)
Definition method : pyobj := PInst IOther [].

(** An [int] at [self].  [numerator] and [real] are the number itself,
    [denominator] and [imag] the numbers 1 and 0, at [one] and [zero];
    the other public names are bound methods, made at the six identities
    from [m] on. *)
Definition int_object (self one zero m : oid) : list (oid * pyobj) :=
  (self, PInst IOther [ ("as_integer_ratio", Some m);
                        ("bit_count", Some (m + 1)%positive);
                        ("bit_length", Some (m + 2)%positive);
                        ("conjugate", Some (m + 3)%positive);
                        ("denominator", Some one);
                        ("from_bytes", Some (m + 4)%positive);
                        ("imag", Some zero);
                        ("numerator", Some self);
                        ("real", Some self);
                        ("to_bytes", Some (m + 5)%positive) ])
  :: List.map (fun i => (i, method))
              [ m; (m + 1)%positive; (m + 2)%positive; (m + 3)%positive;
                (m + 4)%positive; (m + 5)%positive ].

(** A number at [base] together with the numbers 1 and 0 it leads to, at
    [base + 10] and [base + 20]. *)
Definition numbers (base : oid) : list (oid * pyobj) :=
  let one := (base + 10)%positive in
  let zero := (base + 20)%positive in
  int_object base one zero (base + 1)%positive
  ++ int_object one one zero (one + 1)%positive
  ++ int_object zero one zero (zero + 1)%positive.

End Builtins.

(** [deduplicate] and [deduplicate_compound]: the first object of a key
    wins; an object whose key cannot be read is skipped. *)
Section Deduplicate.
Context {K V : Type} (eqb : K -> K -> bool) (key : V -> option K).

Definition has_key (unique : list (K * V)) (k : K) : bool :=
  existsb (fun kv => eqb (fst kv) k) unique.

Definition deduplicate (objects : list V) : list (K * V) :=
  fold_left
    (fun unique obj =>
       match key obj with
       | None => unique
       | Some k => if has_key unique k then unique else unique ++ [(k, obj)]
       end)
    objects [].

(** [unique[k]], [None] standing for [KeyError] *)
Definition item (unique : list (K * V)) (k : K) : option V :=
  snd <$> List.find (fun kv => eqb (fst kv) k) unique.
End Deduplicate.

(** ** app/db/models/telegram: the tables

    The server-side timestamps of the rows are not kept (there is no clock
    in this development). *)

Record TelegramUser := {
  tu_id : Z;
  tu_first_name : string;
  tu_last_name : option string;
  tu_username : option string;
  tu_language_code : option string;
  tu_is_premium : bool;
  tu_is_bot : bool }.

Record TelegramChat := {
  tc_id : Z;
  tc_type : ChatType;
  tc_title : option string;
  tc_username : option string;
  tc_first_name : option string;
  tc_last_name : option string;
  tc_is_forum : bool;
  tc_is_direct_messages : bool;
  tc_personal_chat_id : option Z;
  tc_parent_chat_id : option Z;
  tc_pinned_message_id : option Z;
  tc_photo_small_id : option string;
  tc_photo_big_id : option string;
  tc_other_data : option jdict }.

Record TelegramMessage := {
  tm_id : Z;
  tm_chat_id : Z;
  tm_message_type : MessageType.t;
  tm_message_thread_id : option Z;
  tm_text : option string;
  tm_caption : option string;
  tm_from_user_id : option Z;
  tm_sender_chat_id : option Z;
  tm_sender_boost_count : option Z;
  tm_sender_business_bot_id : option Z;
  tm_date : Z;
  tm_edit_date : option Z;
  tm_business_connection_id : option string;
  tm_is_topic_message : bool;
  tm_is_automatic_forward : bool;
  tm_has_media_spoiler : bool;
  tm_has_protected_content : bool;
  tm_is_from_offline : bool;
  tm_is_paid_post : bool;
  tm_author_signature : option string;
  tm_paid_star_count : option Z;
  tm_other_data : option jdict }.

Record TelegramFile := {
  tf_file_unique_id : string;
  tf_file_type : string;
  tf_file_size : option Z;
  tf_mime_type : option string;
  tf_other_data : option jdict }.

Record BotMessage := {
  bm_bot_id : Z;
  bm_chat_id : Z;
  bm_message_id : Z }.

Record BotFile := {
  bf_bot_id : Z;
  bf_file_unique_id : string;
  bf_file_id : string }.

(** The statements a unit of work sends, in order. *)
Inductive statement :=
| SelectEntities        (* the union query of check_entities *)
| SelectChatPhoto       (* the query of chat_photo_check_entities *)
| SelectChat            (* select(TelegramChat).where(id == ...) *)
| SelectCopySource      (* the source lookup of a copy or forward *)
| InsertUsers | InsertChats | InsertMessages | InsertBotMessages
| InsertFiles | InsertBotFiles
| UpdateUserRow (id : Z)
| UpdateChatRow (id : Z)
| UpdateMessageRow (chat_id id : Z).

Record db := {
  telegram_users : list TelegramUser;
  telegram_chats : list TelegramChat;
  telegram_messages : list TelegramMessage;
  telegram_files : list TelegramFile;
  bot_messages : list BotMessage;
  bot_files : list BotFile;
  executed : list statement }.

(** A computation of the unit of work: it reads and changes the database
    or raises. *)
Definition M (A : Type) : Type := db -> result (A * db).

Definition ret {A} (a : A) : M A := fun d => Ok (a, d).
Definition raise {A} (e : exn) : M A := fun _ => Err e.
Definition bind {A B} (m : M A) (k : A -> M B) : M B :=
  fun d => match m d with
           | Ok (a, d') => k a d'
           | Err e => Err e
           end.
Definition lift {A} (r : result A) : M A :=
  fun d => match r with Ok a => Ok (a, d) | Err e => Err e end.
Definition get_db : M db := fun d => Ok (d, d).
Definition required {A} (e : exn) (o : option A) : M A :=
  match o with Some a => ret a | None => raise e end.

Declare Scope work_scope.
Delimit Scope work_scope with work.
Notation "'let*' x ':=' m 'in' k" := (bind m (fun x => k))
  (at level 10, x pattern, m at level 100, k at level 200) : work_scope.
Notation "m ';;' k" := (bind m (fun _ => k))
  (at level 100, k at level 200, right associativity) : work_scope.

(** [for x in xs: body(x)] *)
Fixpoint for_each {A} (body : A -> M unit) (xs : list A) : M unit :=
  match xs with
  | [] => ret tt
  | x :: rest => bind (body x) (fun _ => for_each body rest)
  end.

Definition log_statement (s : statement) : M unit :=
  fun d => Ok (tt, {| telegram_users := telegram_users d;
                      telegram_chats := telegram_chats d;
                      telegram_messages := telegram_messages d;
                      telegram_files := telegram_files d;
                      bot_messages := bot_messages d;
                      bot_files := bot_files d;
                      executed := executed d ++ [s] |}).

(** The six tables without the statement log. *)
Definition tables (d : db) :=
  (telegram_users d, telegram_chats d, telegram_messages d,
   telegram_files d, bot_messages d, bot_files d).

(** [INSERT ... VALUES rows]: the statement fails when a primary key of
    the batch is already taken, in the table or earlier in the batch.
    Checks other than the primary key are not modelled. *)
Section Insert.
Context {R K : Type} `{EqDecision K} (pk : R -> K).

Definition pk_free (table : list R) (k : K) : bool :=
  forallb (fun r => negb (bool_decide (pk r = k))) table.

Fixpoint insert_rows (table rows : list R) : option (list R) :=
  match rows with
  | [] => Some table
  | r :: rest =>
      if pk_free table (pk r) then insert_rows (table ++ [r]) rest
      else None
  end.
End Insert.

Definition message_pk (r : TelegramMessage) : Z * Z := (tm_chat_id r, tm_id r).
Definition bot_message_pk (r : BotMessage) : Z * Z * Z :=
  (bm_bot_id r, bm_chat_id r, bm_message_id r).
Definition bot_file_pk (r : BotFile) : Z * string :=
  (bf_bot_id r, bf_file_unique_id r).

(** ** app/services/telegram/entity_logger.py *)

Definition get_file_type (obj : TgFile) : option FileType.t :=
  match f_class obj with
  | PhotoSize => Some FileType.PHOTO
  | Animation => Some FileType.ANIMATION
  | Audio => Some FileType.AUDIO
  | Document => Some FileType.DOCUMENT
  | Video => Some FileType.VIDEO
  | VideoNote => Some FileType.VIDEO_NOTE
  | Voice => Some FileType.VOICE
  | Sticker => Some FileType.STICKER
  | PassportFile => Some FileType.PASSPORT
  | OtherTelegramObject | ForeignObject => None
  end.

Definition is_TelegramObject (obj : TgFile) : bool :=
  match f_class obj with ForeignObject => false | _ => true end.

Definition FILE_EXCLUDED_FIELDS : list string :=
  [ "file_unique_id"; "file_id"; "file_size"; "mime_type"; "file_type" ].

Definition CHAT_EXCLUDED_FIELDS : list string :=
  [ "id"; "type"; "title"; "username"; "first_name"; "last_name";
    "is_forum"; "is_direct_messages"; "personal_chat"; "parent_chat";
    "pinned_message"; "photo" ].

Definition MESSAGE_TYPE_ATTRIBUTE_MAP : list (string * MessageType.t) :=
  [ ("text", MessageType.TEXT); ("animation", MessageType.ANIMATION);
    ("audio", MessageType.AUDIO); ("document", MessageType.DOCUMENT);
    ("paid_media", MessageType.PAID_MEDIA); ("photo", MessageType.PHOTO);
    ("sticker", MessageType.STICKER); ("story", MessageType.STORY);
    ("video", MessageType.VIDEO); ("video_note", MessageType.VIDEO_NOTE);
    ("voice", MessageType.VOICE); ("checklist", MessageType.CHECKLIST);
    ("contact", MessageType.CONTACT); ("dice", MessageType.DICE);
    ("game", MessageType.GAME); ("poll", MessageType.POLL);
    ("venue", MessageType.VENUE); ("location", MessageType.LOCATION);
    ("invoice", MessageType.INVOICE); ("giveaway", MessageType.GIVEAWAY);
    ("passport_data", MessageType.PASSPORT) ].

(** *** The literal input tables of the resolver *)

Inductive sqlval := VInt (z : Z) | VStr (s : string).

(** A cell is a value or NULL; a tuple of [data] is a list of cells. *)
Abbreviation cell := (option sqlval).
Abbreviation tuple := (list (option sqlval)).

Definition non_empty_cte_data (data : list tuple) : list tuple :=
  match data with
  | [] => [[None]]
  | _ => data
  end.

(** [values(c1, .., cn).data(rows).cte(name)], as the statement that
    contains it is compiled: a row that has not exactly [n] elements is
    refused with [ArgumentError]. *)
Definition values_cte (n : nat) (data : list tuple) : result (list tuple) :=
  if forallb (fun t => Nat.eqb (length t) n) data then Ok data
  else Err ArgumentError.

Definition column (t : tuple) (i : nat) : cell :=
  match t !! i with Some c => c | None => None end.

(** [cast(c, BigInteger)] and [cast(c, String)] on the cells the callers
    build. *)
Definition as_BigInteger (c : cell) : option Z :=
  match c with Some (VInt z) => Some z | _ => None end.
Definition as_String (c : cell) : option string :=
  match c with Some (VStr s) => Some s | _ => None end.

(** [case((x.is_not(None), True), else_=False)] *)
Definition is_not_None {A} (x : option A) : bool :=
  match x with Some _ => true | None => false end.

(** The FROM list of a [select] is the set of tables its columns
    mention.  Where no join is stated between two of them the rows range
    over their product. *)
Definition product {A B} (xs : list A) (ys : list B) : list (A * B) :=
  flat_map (fun x => List.map (pair x) ys) xs.

(** [x.outerjoin(y, on)] *)
Definition outerjoin {A B} (on : A -> B -> bool) (xs : list A) (ys : list B)
  : list (A * option B) :=
  flat_map (fun x => match List.filter (on x) ys with
                     | [] => [(x, None)]
                     | matches => List.map (fun y => (x, Some y)) matches
                     end) xs.

(** A row of the resolver's answer:
    [(chat_id, user_id, message_id, file_unique_id, exists, bot_relation,
    type)]. *)
Record check_row := {
  cr_chat_id : option Z;
  cr_user_id : option Z;
  cr_message_id : option Z;
  cr_file_unique_id : option string;
  cr_exists : bool;
  cr_bot_relation : option bool;
  cr_type : Z }.

Definition chat_query (d : db) (chat_cte : list tuple) : list check_row :=
  List.map (fun '(c, tc) =>
         {| cr_chat_id := as_BigInteger (column c 0);
            cr_user_id := None;
            cr_message_id := None;
            cr_file_unique_id := None;
            cr_exists := is_not_None (Some (tc_id tc));
            cr_bot_relation := None;
            cr_type := EntityCheckResultType.CHAT |})
      (product chat_cte (telegram_chats d)).

Definition user_query (d : db) (user_cte : list tuple) : list check_row :=
  List.map (fun '(c, tu) =>
         {| cr_chat_id := None;
            cr_user_id := as_BigInteger (column c 0);
            cr_message_id := None;
            cr_file_unique_id := None;
            cr_exists := is_not_None (Some (tu_id tu));
            cr_bot_relation := None;
            cr_type := EntityCheckResultType.USER |})
      (product user_cte (telegram_users d)).

Definition msg_query (d : db) (msg_cte : list tuple) : list check_row :=
  List.map (fun '(c, tm, bm) =>
         {| cr_chat_id := as_BigInteger (column c 0);
            cr_user_id := None;
            cr_message_id := as_BigInteger (column c 1);
            cr_file_unique_id := None;
            cr_exists := is_not_None (Some (tm_id tm));
            cr_bot_relation := Some (is_not_None (Some (bm_message_id bm)));
            cr_type := EntityCheckResultType.MESSAGE |})
      (product (product msg_cte (telegram_messages d)) (bot_messages d)).

Definition file_query (d : db) (file_cte : list tuple) : list check_row :=
  List.map (fun '(c, tf, bf) =>
         {| cr_chat_id := None;
            cr_user_id := None;
            cr_message_id := None;
            cr_file_unique_id := as_String (column c 0);
            cr_exists := is_not_None (Some (tf_file_unique_id tf));
            cr_bot_relation :=
              Some (is_not_None (Some (bf_file_unique_id bf)));
            cr_type := EntityCheckResultType.FILE |})
      (product (product file_cte (telegram_files d)) (bot_files d)).

(** [check_entities]: four literal tables, four selects, one
    [union_all], one [db.execute].  None of the selects states a join
    and [bot_id] is not used. *)
Definition check_entities (chat_ids user_ids : list Z)
    (messages : list (Z * Z)) (file_ids : list string) (bot_id : Z)
  : M (list check_row) :=
  (let chat_data :=
     non_empty_cte_data (List.map (fun chat_id => [Some (VInt chat_id)]) chat_ids) in
   let user_data :=
     non_empty_cte_data (List.map (fun user_id => [Some (VInt user_id)]) user_ids) in
   let msg_data :=
     non_empty_cte_data
       (List.map (fun '(chat_id, msg_id) => [Some (VInt chat_id); Some (VInt msg_id)])
            messages) in
   let file_data :=
     non_empty_cte_data
       (List.map (fun file_unique_id => [Some (VStr file_unique_id)]) file_ids) in
   log_statement SelectEntities ;;
   let* chat_cte := lift (values_cte 1 chat_data) in
   let* user_cte := lift (values_cte 1 user_data) in
   let* msg_cte := lift (values_cte 2 msg_data) in
   let* file_cte := lift (values_cte 1 file_data) in
   let* d := get_db in
   ret (chat_query d chat_cte ++ user_query d user_cte
        ++ msg_query d msg_cte ++ file_query d file_cte))%work.

(** *** collect_entities *)

Definition user_at (h : heap) (obj : oid) : option TgUser :=
  match h !! obj with Some (PInst (IUser u) _) => Some u | _ => None end.
Definition chat_at (h : heap) (obj : oid) : option TgChat :=
  match h !! obj with Some (PInst (IChat c) _) => Some c | _ => None end.
Definition message_at (h : heap) (obj : oid) : option TgMessage :=
  match h !! obj with Some (PInst (IMessage m) _) => Some m | _ => None end.
Definition file_at (h : heap) (obj : oid) : option TgFile :=
  match h !! obj with Some (PInst (IFile f) _) => Some f | _ => None end.

Definition pair_eqb (a b : Z * Z) : bool :=
  (fst a =? fst b) && (snd a =? snd b).

(** The four maps of [collect_entities].  The attributes
    [file_unique_id] and [file_id] are taken to belong to file objects
    only; anything else that shows them is passed over. *)
Record entities := {
  unique_users : list (Z * TgUser);
  unique_chats : list (Z * TgChat);
  unique_messages : list ((Z * Z) * TgMessage);
  unique_files_json : list (string * jdict) }.

(** What [collect_entities] makes of the four lists the walkers return. *)
Definition entities_of (users : list TgUser) (chats : list TgChat)
    (messages : list TgMessage) (files : list TgFile) : entities :=
  let unique_files :=
    deduplicate String.eqb f_file_unique_id files in
  {| unique_users := deduplicate Z.eqb (fun u => Some (u_id u)) users;
     unique_chats := deduplicate Z.eqb (fun c => Some (c_id c)) chats;
     unique_messages :=
       deduplicate pair_eqb (fun m => Some (m_chat_id m, m_id m)) messages;
     unique_files_json :=
       omap (fun '(file_unique_id, file) =>
               match get_file_type file with
               | Some file_type =>
                   if is_TelegramObject file then
                     Some (file_unique_id,
                           dset (f_dict file) "file_type"
                                (JStr (FileType.value file_type)))
                   else None
               | None => None
               end)
            unique_files |}.

(** The four walks come first, one after the other; what one of them
    raises is raised by [collect_entities]. *)
Definition collect_entities (h : heap) (object : oid) : result entities :=
  try users := find_instances h object UpdateUser in
  try chats := find_instances h object Chat in
  try messages := find_instances h object Message in
  try files :=
    find_objects_with_attributes h object ["file_unique_id"; "file_id"] in
  Ok (entities_of (omap (user_at h) users) (omap (chat_at h) chats)
                  (omap (message_at h) messages) (omap (file_at h) files)).

(** *** Row construction *)

Definition user_values (u : TgUser) : TelegramUser :=
  {| tu_id := u_id u;
     tu_first_name := u_first_name u;
     tu_last_name := u_last_name u;
     tu_username := u_username u;
     tu_language_code := u_language_code u;
     tu_is_premium := truthy_bool (u_is_premium u);
     tu_is_bot := u_is_bot u |}.

Definition chat_values (c : TgChat) : result TelegramChat :=
  match ChatType_of_value (c_type c) with
  | None => Err ValueError
  | Some type =>
      Ok {| tc_id := c_id c;
            tc_type := type;
            tc_title := c_title c;
            tc_username := c_username c;
            tc_first_name := c_first_name c;
            tc_last_name := c_last_name c;
            tc_is_forum := truthy_bool (c_is_forum c);
            tc_is_direct_messages := truthy_bool (c_is_direct_messages c);
            tc_personal_chat_id := None;
            tc_parent_chat_id := None;
            tc_pinned_message_id := None;
            tc_photo_small_id := None;
            tc_photo_big_id := None;
            tc_other_data := None |}
  end.

(** [getattr(message, attr, None)] as a truth value *)
Definition message_attr_truthy (message : TgMessage) (attr : string) : bool :=
  if String.eqb attr "text" then truthy_str (m_text message)
  else truthy (dget (m_dict message) attr).

Definition get_message_type (message : TgMessage) : MessageType.t :=
  match List.find (fun am => message_attr_truthy message (fst am))
                  MESSAGE_TYPE_ATTRIBUTE_MAP with
  | Some (_, msg_type) => msg_type
  | None => MessageType.SERVICE
  end.

Definition get_message_excluded_fields (message : TgMessage) : list string :=
  let excluded_fields :=
    [ "message_id"; "chat"; "message_thread_id"; "text"; "caption"; "from";
      "sender_chat"; "sender_boost_count"; "sender_business_bot"; "date";
      "edit_date"; "business_connection_id"; "is_topic_message";
      "is_automatic_forward"; "has_media_spoiler"; "has_protected_content";
      "is_from_offline"; "is_paid_post"; "author_signature";
      "paid_star_count"; "delete_chat_photo"; "group_chat_created";
      "supergroup_chat_created"; "channel_chat_created" ] in
  let remove name fields := List.filter (fun f => negb (String.eqb f name)) fields in
  let excluded_fields :=
    if truthy_bool (m_delete_chat_photo message)
    then remove "delete_chat_photo" excluded_fields else excluded_fields in
  let excluded_fields :=
    if truthy_bool (m_group_chat_created message)
    then remove "group_chat_created" excluded_fields else excluded_fields in
  let excluded_fields :=
    if truthy_bool (m_supergroup_chat_created message)
    then remove "supergroup_chat_created" excluded_fields
    else excluded_fields in
  if truthy_bool (m_channel_chat_created message)
  then remove "channel_chat_created" excluded_fields else excluded_fields.

(** [d or null()] *)
Definition or_null (d : jdict) : option jdict :=
  match d with [] => None | _ => Some d end.

(** The column values [bulk_prepare_messages] and
    [make_message_db_object] both spell out. *)
Definition message_values (msg : TgMessage) : TelegramMessage :=
  {| tm_id := m_id msg;
     tm_chat_id := m_chat_id msg;
     tm_message_type := get_message_type msg;
     tm_message_thread_id := m_message_thread_id msg;
     tm_text := m_text msg;
     tm_caption := m_caption msg;
     tm_from_user_id := u_id <$> m_from_user msg;
     tm_sender_chat_id := c_id <$> m_sender_chat msg;
     tm_sender_boost_count := m_sender_boost_count msg;
     tm_sender_business_bot_id := u_id <$> m_sender_business_bot msg;
     tm_date := m_date msg;
     tm_edit_date := m_edit_date msg;
     tm_business_connection_id := m_business_connection_id msg;
     tm_is_topic_message := truthy_bool (m_is_topic_message msg);
     tm_is_automatic_forward := truthy_bool (m_is_automatic_forward msg);
     tm_has_media_spoiler := truthy_bool (m_has_media_spoiler msg);
     tm_has_protected_content := truthy_bool (m_has_protected_content msg);
     tm_is_from_offline := truthy_bool (m_is_from_offline msg);
     tm_is_paid_post := truthy_bool (m_is_paid_post msg);
     tm_author_signature := m_author_signature msg;
     tm_paid_star_count := m_paid_star_count msg;
     tm_other_data :=
       or_null (remove_fields (m_dict msg) (get_message_excluded_fields msg)
                              ["file_id"]) |}.

Definition make_message_db_object (message : TgMessage) : TelegramMessage :=
  message_values message.

Definition bulk_prepare_messages (messages : list TgMessage)
  : list TelegramMessage :=
  List.map message_values messages.

Definition want_str (v : option json) : result string :=
  match v with
  | Some (JStr s) => Ok s
  | Some _ => Err TypeError
  | None => Err KeyError
  end.

Definition opt_int (v : json) : result (option Z) :=
  match v with
  | JNull => Ok None
  | JInt z => Ok (Some z)
  | _ => Err TypeError
  end.

Definition opt_str (v : json) : result (option string) :=
  match v with
  | JNull => Ok None
  | JStr s => Ok (Some s)
  | _ => Err TypeError
  end.

Definition file_values (file : jdict) : result TelegramFile :=
  match want_str (dlookup file "file_unique_id"),
        want_str (dlookup file "file_type"),
        opt_int (dget file "file_size"),
        opt_str (dget file "mime_type") with
  | Ok file_unique_id, Ok file_type, Ok file_size, Ok mime_type =>
      Ok {| tf_file_unique_id := file_unique_id;
            tf_file_type := file_type;
            tf_file_size := file_size;
            tf_mime_type := mime_type;
            tf_other_data :=
              or_null (remove_fields file FILE_EXCLUDED_FIELDS []) |}
  | Err e, _, _, _ => Err e
  | _, Err e, _, _ => Err e
  | _, _, Err e, _ => Err e
  | _, _, _, Err e => Err e
  end.

(** [[f(x) for x in xs]] where [f] may raise *)
Fixpoint traverse {A B} (f : A -> result B) (xs : list A) : result (list B) :=
  match xs with
  | [] => Ok []
  | x :: rest =>
      match f x with
      | Err e => Err e
      | Ok y => match traverse f rest with
                | Err e => Err e
                | Ok ys => Ok (y :: ys)
                end
      end
  end.

Definition bulk_prepare_files (files : list jdict) : result (list TelegramFile) :=
  traverse file_values files.

(** *** The bulk statements *)

Definition set_users (rows : list TelegramUser) : M unit :=
  fun d => Ok (tt, {| telegram_users := rows;
                      telegram_chats := telegram_chats d;
                      telegram_messages := telegram_messages d;
                      telegram_files := telegram_files d;
                      bot_messages := bot_messages d;
                      bot_files := bot_files d;
                      executed := executed d |}).
Definition set_chats (rows : list TelegramChat) : M unit :=
  fun d => Ok (tt, {| telegram_users := telegram_users d;
                      telegram_chats := rows;
                      telegram_messages := telegram_messages d;
                      telegram_files := telegram_files d;
                      bot_messages := bot_messages d;
                      bot_files := bot_files d;
                      executed := executed d |}).
Definition set_messages (rows : list TelegramMessage) : M unit :=
  fun d => Ok (tt, {| telegram_users := telegram_users d;
                      telegram_chats := telegram_chats d;
                      telegram_messages := rows;
                      telegram_files := telegram_files d;
                      bot_messages := bot_messages d;
                      bot_files := bot_files d;
                      executed := executed d |}).
Definition set_files (rows : list TelegramFile) : M unit :=
  fun d => Ok (tt, {| telegram_users := telegram_users d;
                      telegram_chats := telegram_chats d;
                      telegram_messages := telegram_messages d;
                      telegram_files := rows;
                      bot_messages := bot_messages d;
                      bot_files := bot_files d;
                      executed := executed d |}).
Definition set_bot_messages (rows : list BotMessage) : M unit :=
  fun d => Ok (tt, {| telegram_users := telegram_users d;
                      telegram_chats := telegram_chats d;
                      telegram_messages := telegram_messages d;
                      telegram_files := telegram_files d;
                      bot_messages := rows;
                      bot_files := bot_files d;
                      executed := executed d |}).
Definition set_bot_files (rows : list BotFile) : M unit :=
  fun d => Ok (tt, {| telegram_users := telegram_users d;
                      telegram_chats := telegram_chats d;
                      telegram_messages := telegram_messages d;
                      telegram_files := telegram_files d;
                      bot_messages := bot_messages d;
                      bot_files := rows;
                      executed := executed d |}).

Definition bulk_insert_users (new_users : list TgUser) : M unit :=
  (log_statement InsertUsers ;;
   let* d := get_db in
   let* rows := required IntegrityError
                  (insert_rows tu_id (telegram_users d)
                               (List.map user_values new_users)) in
   set_users rows)%work.

Definition bulk_insert_chats (new_chats : list TgChat) : M unit :=
  (let* chat_dicts := lift (traverse chat_values new_chats) in
   log_statement InsertChats ;;
   let* d := get_db in
   let* rows := required IntegrityError
                  (insert_rows tc_id (telegram_chats d) chat_dicts) in
   set_chats rows)%work.

Definition bulk_insert_messages (messages : list TgMessage) : M unit :=
  (let dicts := bulk_prepare_messages messages in
   log_statement InsertMessages ;;
   let* d := get_db in
   let* rows := required IntegrityError
                  (insert_rows message_pk (telegram_messages d) dicts) in
   set_messages rows)%work.

Definition bulk_insert_files (files : list jdict) : M unit :=
  (let* dicts := lift (bulk_prepare_files files) in
   log_statement InsertFiles ;;
   let* d := get_db in
   let* rows := required IntegrityError
                  (insert_rows tf_file_unique_id (telegram_files d) dicts) in
   set_files rows)%work.

(** The rows of the two link statements: one dictionary per pair. *)
Definition bot_message_rows (bot_id : Z) (data : list (Z * Z)) : list BotMessage :=
  List.map (fun '(chat_id, message_id) =>
              {| bm_bot_id := bot_id; bm_chat_id := chat_id;
                 bm_message_id := message_id |}) data.

Definition bot_file_row (bot_id : Z) (x : string * json) : result BotFile :=
  let '(file_unique_id, file_id) := x in
  match want_str (Some file_id) with
  | Ok file_id => Ok {| bf_bot_id := bot_id;
                        bf_file_unique_id := file_unique_id;
                        bf_file_id := file_id |}
  | Err e => Err e
  end.

Definition bulk_insert_bot_messages (data : list (Z * Z)) (bot_id : Z)
  : M unit :=
  (let chat_dicts := bot_message_rows bot_id data in
   log_statement InsertBotMessages ;;
   let* d := get_db in
   let* rows := required IntegrityError
                  (insert_rows bot_message_pk (bot_messages d) chat_dicts) in
   set_bot_messages rows)%work.

Definition bulk_insert_bot_files (data : list (string * json)) (bot_id : Z)
  : M unit :=
  (let* chat_dicts := lift (traverse (bot_file_row bot_id) data) in
   log_statement InsertBotFiles ;;
   let* d := get_db in
   let* rows := required IntegrityError
                  (insert_rows bot_file_pk (bot_files d) chat_dicts) in
   set_bot_files rows)%work.

(** *** log_object *)

(** The six lists the loop over [check_result] fills. *)
Record batches := {
  new_users : list TgUser;
  new_chats : list TgChat;
  new_messages : list TgMessage;
  new_bot_messages : list (Z * Z);
  new_files : list jdict;
  new_bot_files : list (string * json) }.

Definition no_batches : batches :=
  {| new_users := []; new_chats := []; new_messages := [];
     new_bot_messages := []; new_files := []; new_bot_files := [] |}.

(** [not bot_relation] for a column that may be NULL *)
Definition not_bot_relation (bot_relation : option bool) : bool :=
  negb (truthy_bool bot_relation).

(** One turn of the loop. *)
Definition log_object_row (e : entities) (b : batches) (row : check_row)
  : result batches :=
  let entity_type := cr_type row in
  if entity_type =? EntityCheckResultType.USER then
    match cr_user_id row with
    | Some user_id =>
        if truthy_int (Some user_id) then
          match item Z.eqb (unique_users e) user_id with
          | None => Err KeyError
          | Some user_obj =>
              Ok {| new_users := if negb (cr_exists row)
                                 then new_users b ++ [user_obj]
                                 else new_users b;
                    new_chats := new_chats b;
                    new_messages := new_messages b;
                    new_bot_messages := new_bot_messages b;
                    new_files := new_files b;
                    new_bot_files := new_bot_files b |}
          end
        else Ok b
    | None => Ok b
    end
  else if entity_type =? EntityCheckResultType.CHAT then
    match cr_chat_id row with
    | Some chat_id =>
        if truthy_int (Some chat_id) then
          match item Z.eqb (unique_chats e) chat_id with
          | None => Err KeyError
          | Some chat_obj =>
              Ok {| new_users := new_users b;
                    new_chats := if negb (cr_exists row)
                                 then new_chats b ++ [chat_obj]
                                 else new_chats b;
                    new_messages := new_messages b;
                    new_bot_messages := new_bot_messages b;
                    new_files := new_files b;
                    new_bot_files := new_bot_files b |}
          end
        else Ok b
    | None => Ok b
    end
  else if entity_type =? EntityCheckResultType.MESSAGE then
    match cr_chat_id row, cr_message_id row with
    | Some chat_id, Some message_id =>
        if truthy_int (Some chat_id) && truthy_int (Some message_id) then
          let pk_tuple := (chat_id, message_id) in
          match item pair_eqb (unique_messages e) pk_tuple with
          | None => Err KeyError
          | Some msg_obj =>
              Ok {| new_users := new_users b;
                    new_chats := new_chats b;
                    new_messages := if negb (cr_exists row)
                                    then new_messages b ++ [msg_obj]
                                    else new_messages b;
                    new_bot_messages :=
                      if not_bot_relation (cr_bot_relation row)
                      then new_bot_messages b ++ [pk_tuple]
                      else new_bot_messages b;
                    new_files := new_files b;
                    new_bot_files := new_bot_files b |}
          end
        else Ok b
    | _, _ => Ok b
    end
  else if entity_type =? EntityCheckResultType.FILE then
    match cr_file_unique_id row with
    | Some file_unique_id =>
        if truthy_str (Some file_unique_id) then
          match item String.eqb (unique_files_json e) file_unique_id with
          | None => Err KeyError
          | Some file_obj =>
              if not_bot_relation (cr_bot_relation row) then
                match dlookup file_obj "file_id" with
                | None => Err KeyError
                | Some file_id =>
                    Ok {| new_users := new_users b;
                          new_chats := new_chats b;
                          new_messages := new_messages b;
                          new_bot_messages := new_bot_messages b;
                          new_files := if negb (cr_exists row)
                                       then new_files b ++ [file_obj]
                                       else new_files b;
                          new_bot_files :=
                            new_bot_files b ++ [(file_unique_id, file_id)] |}
                end
              else
                Ok {| new_users := new_users b;
                      new_chats := new_chats b;
                      new_messages := new_messages b;
                      new_bot_messages := new_bot_messages b;
                      new_files := if negb (cr_exists row)
                                   then new_files b ++ [file_obj]
                                   else new_files b;
                      new_bot_files := new_bot_files b |}
          end
        else Ok b
    | None => Ok b
    end
  else Ok b.

Fixpoint log_object_rows (e : entities) (b : batches)
    (check_result : list check_row) : result batches :=
  match check_result with
  | [] => Ok b
  | row :: rest =>
      match log_object_row e b row with
      | Err x => Err x
      | Ok b' => log_object_rows e b' rest
      end
  end.

(** [if xs: await f(db, xs)] *)
Definition when_any {A} (xs : list A) (f : list A -> M unit) : M unit :=
  match xs with [] => ret tt | _ => f xs end.

Definition nonempty {A} (xs : list A) : bool :=
  match xs with [] => false | _ => true end.

(** The six flags [log_object] returns. *)
Definition flags := (bool * bool * bool * bool * bool * bool)%type.

(** Everything of [log_object] after the resolver has answered. *)
Definition log_object_apply (e : entities) (check_result : list check_row)
    (bot_id : Z) : M flags :=
  (let* b := lift (log_object_rows e no_batches check_result) in
   when_any (new_users b) bulk_insert_users ;;
   when_any (new_chats b) bulk_insert_chats ;;
   when_any (new_messages b) bulk_insert_messages ;;
   when_any (new_bot_messages b)
            (fun xs => bulk_insert_bot_messages xs bot_id) ;;
   when_any (new_files b) bulk_insert_files ;;
   when_any (new_bot_files b) (fun xs => bulk_insert_bot_files xs bot_id) ;;
   ret (nonempty (new_users b), nonempty (new_chats b),
        nonempty (new_messages b), nonempty (new_bot_messages b),
        nonempty (new_files b), nonempty (new_bot_files b)))%work.

(** [log_object] over any resolver with the interface of
    [check_entities]. *)
Definition log_object_with
    (resolver : list Z -> list Z -> list (Z * Z) -> list string -> Z
                -> M (list check_row))
    (h : heap) (object : oid) (bot_id : Z) : M flags :=
  (let* e := lift (collect_entities h object) in
   let chat_ids := List.map fst (unique_chats e) in
   let user_ids := List.map fst (unique_users e) in
   let message_ids := List.map fst (unique_messages e) in
   let files_ids := List.map fst (unique_files_json e) in
   let* check_result :=
     resolver chat_ids user_ids message_ids files_ids bot_id in
   log_object_apply e check_result bot_id)%work.

Definition log_object : heap -> oid -> Z -> M flags :=
  log_object_with check_entities.

(** [res[3]] *)
Definition res_3 (res : flags) : bool :=
  let '(_, _, _, new_bot_messages, _, _) := res in new_bot_messages.

(** The UPDATE of [update_message]: every column but the two of the key
    is assigned, in the rows the key selects. *)
Definition apply_update (message : TgMessage) (row : TelegramMessage)
  : TelegramMessage :=
  if (tm_id row =? m_id message) && (tm_chat_id row =? m_chat_id message)
  then
    let msg_dict := message_values message in
    {| tm_id := tm_id row;
       tm_chat_id := tm_chat_id row;
       tm_message_type := tm_message_type msg_dict;
       tm_message_thread_id := tm_message_thread_id msg_dict;
       tm_text := tm_text msg_dict;
       tm_caption := tm_caption msg_dict;
       tm_from_user_id := tm_from_user_id msg_dict;
       tm_sender_chat_id := tm_sender_chat_id msg_dict;
       tm_sender_boost_count := tm_sender_boost_count msg_dict;
       tm_sender_business_bot_id := tm_sender_business_bot_id msg_dict;
       tm_date := tm_date msg_dict;
       tm_edit_date := tm_edit_date msg_dict;
       tm_business_connection_id := tm_business_connection_id msg_dict;
       tm_is_topic_message := tm_is_topic_message msg_dict;
       tm_is_automatic_forward := tm_is_automatic_forward msg_dict;
       tm_has_media_spoiler := tm_has_media_spoiler msg_dict;
       tm_has_protected_content := tm_has_protected_content msg_dict;
       tm_is_from_offline := tm_is_from_offline msg_dict;
       tm_is_paid_post := tm_is_paid_post msg_dict;
       tm_author_signature := tm_author_signature msg_dict;
       tm_paid_star_count := tm_paid_star_count msg_dict;
       tm_other_data := tm_other_data msg_dict |}
  else row.

Definition execute_update (message : TgMessage) : M unit :=
  (log_statement (UpdateMessageRow (m_chat_id message) (m_id message)) ;;
   let* d := get_db in
   set_messages (List.map (apply_update message) (telegram_messages d)))%work.

Definition update_message (h : heap) (message : oid) (bot_id : Z)
    (skip_log : bool) : M unit :=
  (let* msg := required AttributeError (message_at h message) in
   if skip_log then execute_update msg
   else
     let* res := log_object h message bot_id in
     if res_3 res then ret tt
     else execute_update msg)%work.

(** ** app/routes/telegram/bots.py: the webhook *)

(** What [Update.de_json] hands over: the heap of decoded objects, the
    update itself and its three edited-message attributes. *)
Definition updated_message_of (h : heap) (update : oid) : option oid :=
  match h !! update with
  | Some (PInst (IUpdate edited_message edited_channel_post
                         edited_business_message) _) =>
      match edited_message with
      | Some m => Some m
      | None =>
          match edited_channel_post with
          | Some m => Some m
          | None => edited_business_message
          end
      end
  | _ => None
  end.

(** The [try] block of [handle_update], after the body was decoded. *)
Definition handle_update_try (h : heap) (update : oid) (bot_id : Z) : M unit :=
  (let updated_message := updated_message_of h update in
   log_object h update bot_id ;;
   match updated_message with
   | Some m => update_message h m bot_id true
   | None => ret tt
   end)%work.

(** [handle_update] as far as the database goes: the unit of work is
    committed when the block ends normally; an exception is logged and
    leaves the database as it was. *)
Definition handle_update (h : heap) (update : oid) (bot_id : Z) (d : db) : db :=
  match handle_update_try h update bot_id d with
  | Ok (_, d') => d'
  | Err _ => d
  end.

(** ** Decoding ([de_json]) of the payload classes the synthesizer builds

    The [telegram] package is not part of the repository.  Its decoders
    are modelled on the keys the logging core reads afterwards: a
    required key that is missing, or a value of the wrong JSON type, is
    refused with [TypeError]; a message that is no dictionary at all has
    no [copy] and is refused with [AttributeError]; [to_dict()] of the
    decoded message gives the entries back without the null ones. *)

Definition opt_bool (v : json) : result (option bool) :=
  match v with
  | JNull => Ok None
  | JBool b => Ok (Some b)
  | _ => Err TypeError
  end.

Definition req_int (v : json) : result Z :=
  match v with JInt z => Ok z | _ => Err TypeError end.
Definition req_str (v : json) : result string :=
  match v with JStr s => Ok s | _ => Err TypeError end.
Definition req_bool (v : json) : result bool :=
  match v with JBool b => Ok b | _ => Err TypeError end.

Definition User_de_json (data : json) : result TgUser :=
  match data with
  | JDict d =>
      try id := req_int (dget d "id") in
      try first_name := req_str (dget d "first_name") in
      try is_bot := req_bool (dget d "is_bot") in
      try last_name := opt_str (dget d "last_name") in
      try username := opt_str (dget d "username") in
      try language_code := opt_str (dget d "language_code") in
      try is_premium := opt_bool (dget d "is_premium") in
      Ok {| u_id := id; u_first_name := first_name; u_last_name := last_name;
            u_username := username; u_language_code := language_code;
            u_is_premium := is_premium; u_is_bot := is_bot |}
  | _ => Err TypeError
  end.

Definition Chat_de_json (data : json) : result TgChat :=
  match data with
  | JDict d =>
      try id := req_int (dget d "id") in
      try type := req_str (dget d "type") in
      try title := opt_str (dget d "title") in
      try username := opt_str (dget d "username") in
      try first_name := opt_str (dget d "first_name") in
      try last_name := opt_str (dget d "last_name") in
      try is_forum := opt_bool (dget d "is_forum") in
      try is_direct_messages := opt_bool (dget d "is_direct_messages") in
      Ok {| c_id := id; c_type := type; c_title := title;
            c_username := username; c_first_name := first_name;
            c_last_name := last_name; c_is_forum := is_forum;
            c_is_direct_messages := is_direct_messages |}
  | _ => Err TypeError
  end.

(** An optional nested object: absent or null gives [None]. *)
Definition optional {A} (de_json : json -> result A) (v : json)
  : result (option A) :=
  match v with
  | JNull => Ok None
  | _ => try a := de_json v in Ok (Some a)
  end.

Definition not_null (kv : string * json) : bool :=
  match snd kv with JNull => false | _ => true end.

Definition Message_de_json (data : json) : result TgMessage :=
  match data with
  | JDict d =>
      try message_id := req_int (dget d "message_id") in
      try date := req_int (dget d "date") in
      try chat := Chat_de_json (dget d "chat") in
      try message_thread_id := opt_int (dget d "message_thread_id") in
      try text := opt_str (dget d "text") in
      try caption := opt_str (dget d "caption") in
      try from_user := optional User_de_json (dget d "from") in
      try sender_chat := optional Chat_de_json (dget d "sender_chat") in
      try sender_boost_count := opt_int (dget d "sender_boost_count") in
      try sender_business_bot :=
        optional User_de_json (dget d "sender_business_bot") in
      try edit_date := opt_int (dget d "edit_date") in
      try business_connection_id :=
        opt_str (dget d "business_connection_id") in
      try is_topic_message := opt_bool (dget d "is_topic_message") in
      try is_automatic_forward := opt_bool (dget d "is_automatic_forward") in
      try has_media_spoiler := opt_bool (dget d "has_media_spoiler") in
      try has_protected_content :=
        opt_bool (dget d "has_protected_content") in
      try is_from_offline := opt_bool (dget d "is_from_offline") in
      try is_paid_post := opt_bool (dget d "is_paid_post") in
      try author_signature := opt_str (dget d "author_signature") in
      try paid_star_count := opt_int (dget d "paid_star_count") in
      try delete_chat_photo := opt_bool (dget d "delete_chat_photo") in
      try group_chat_created := opt_bool (dget d "group_chat_created") in
      try supergroup_chat_created :=
        opt_bool (dget d "supergroup_chat_created") in
      try channel_chat_created := opt_bool (dget d "channel_chat_created") in
      Ok {| m_id := message_id; m_chat := chat;
            m_message_thread_id := message_thread_id; m_text := text;
            m_caption := caption; m_from_user := from_user;
            m_sender_chat := sender_chat;
            m_sender_boost_count := sender_boost_count;
            m_sender_business_bot := sender_business_bot;
            m_date := date; m_edit_date := edit_date;
            m_business_connection_id := business_connection_id;
            m_is_topic_message := is_topic_message;
            m_is_automatic_forward := is_automatic_forward;
            m_has_media_spoiler := has_media_spoiler;
            m_has_protected_content := has_protected_content;
            m_is_from_offline := is_from_offline;
            m_is_paid_post := is_paid_post;
            m_author_signature := author_signature;
            m_paid_star_count := paid_star_count;
            m_delete_chat_photo := delete_chat_photo;
            m_group_chat_created := group_chat_created;
            m_supergroup_chat_created := supergroup_chat_created;
            m_channel_chat_created := channel_chat_created;
            m_dict := List.filter not_null d |}
  | _ => Err AttributeError
  end.

(** The objects one decoded message consists of: the message at [base]
    and, behind its attributes, its chat, sender, sender chat and business
    bot at the four identities that follow.  These are the objects behind
    a message of this development in which there is something for the
    walkers to find.  Its numbers, strings, dates and bound methods are
    not laid out: a walk goes into them and comes back with nothing
    (lemma [walk_pruned_from_scratch]).  No float is behind a message
    decoded here: the decoders of this development read no field that
    holds one. *)
Definition message_objects (base : oid) (m : TgMessage) : list (oid * pyobj) :=
  let attr {A} (name : string) (at_ : oid) (o : option A) :=
    match o with Some _ => [(name, Some at_)] | None => [] end in
  let obj {A} (at_ : oid) (inst : A -> instance) (o : option A) :=
    match o with Some a => [(at_, PInst (inst a) [])] | None => [] end in
  [(base, PInst (IMessage m)
            ([("chat", Some (base + 1)%positive)]
             ++ attr "from_user" (base + 2)%positive (m_from_user m)
             ++ attr "sender_chat" (base + 3)%positive (m_sender_chat m)
             ++ attr "sender_business_bot" (base + 4)%positive
                     (m_sender_business_bot m)));
   ((base + 1)%positive, PInst (IChat (m_chat m)) [])]
  ++ obj (base + 2)%positive IUser (m_from_user m)
  ++ obj (base + 3)%positive IChat (m_sender_chat m)
  ++ obj (base + 4)%positive IUser (m_sender_business_bot m).

(** The identity of the [i]-th message of a decoded list; the list
    itself is object 1. *)
Definition message_oid (i : nat) : oid := Pos.of_nat (5 * i + 2).

Definition messages_heap (ms : list TgMessage) : heap * oid :=
  (list_to_map
     ((1%positive, PSeq (imap (fun i _ => message_oid i) ms))
      :: concat (imap (fun i m => message_objects (message_oid i) m) ms)),
   1%positive).

(** ** app/db/models/telegram/message.py: TelegramMessage.to_dict *)

Definition jopt {A} (inj : A -> json) (o : option A) : json :=
  match o with Some a => inj a | None => JNull end.

Definition TelegramMessage_to_dict (self : TelegramMessage) : jdict :=
  let person (id : option Z) (is_bot : bool) : json :=
    if truthy_int id
    then JDict [("id", jopt JInt id); ("first_name", JStr "");
                ("is_bot", JBool is_bot)]
    else JNull in
  let data :=
    [ ("message_id", JInt (tm_id self));
      ("chat", JDict [("id", JInt (tm_chat_id self)); ("type", JStr "")]);
      ("message_thread_id", jopt JInt (tm_message_thread_id self));
      ("message_type", JStr (MessageType.value (tm_message_type self)));
      ("text", jopt JStr (tm_text self));
      ("caption", jopt JStr (tm_caption self));
      ("from", person (tm_from_user_id self) false);
      ("sender_chat", person (tm_sender_chat_id self) false);
      ("sender_boost_count", jopt JInt (tm_sender_boost_count self));
      ("sender_business_bot", person (tm_sender_business_bot_id self) true);
      ("date", JInt (tm_date self));
      ("edit_date", jopt JInt (tm_edit_date self));
      ("business_connection_id", jopt JStr (tm_business_connection_id self));
      ("is_topic_message", JBool (tm_is_topic_message self));
      ("is_automatic_forward", JBool (tm_is_automatic_forward self));
      ("has_media_spoiler", JBool (tm_has_media_spoiler self));
      ("has_protected_content", JBool (tm_has_protected_content self));
      ("is_from_offline", JBool (tm_is_from_offline self));
      ("is_paid_post", JBool (tm_is_paid_post self));
      ("author_signature", jopt JStr (tm_author_signature self));
      ("paid_star_count", jopt JInt (tm_paid_star_count self)) ] in
  match tm_other_data self with
  | Some other_data => dupdate data other_data
  | None => data
  end.

(** ** app/services/telegram/logger.py *)

Definition log_me (user : TgUser) : M unit :=
  (log_statement (UpdateUserRow (u_id user)) ;;
   let* d := get_db in
   set_users
     (List.map (fun row =>
             if tu_id row =? u_id user then
               {| tu_id := tu_id row;
                  tu_first_name := u_first_name user;
                  tu_last_name := u_last_name user;
                  tu_username := u_username user;
                  tu_language_code := u_language_code user;
                  tu_is_premium := tu_is_premium row;
                  tu_is_bot := tu_is_bot row |}
             else row)
          (telegram_users d)))%work.

(** [select(T).where(T.id == id)] followed by [scalar_one_or_none()] *)
Definition scalar_one_or_none {R} (rows : list R) : result (option R) :=
  match rows with
  | [] => Ok None
  | [r] => Ok (Some r)
  | _ => Err MultipleResultsFound
  end.

Definition log_chats (chats : list (Z * TgChat)) : M unit :=
  (log_statement SelectChat ;;
   let* d0 := get_db in
   let existing_chats := telegram_chats d0 in
   for_each
     (fun '(_, chat) =>
        let* c := lift (chat_values chat) in
        let* d := get_db in
        if existsb (fun row => tc_id row =? c_id chat) existing_chats then
          log_statement (UpdateChatRow (c_id chat)) ;;
          set_chats
            (List.map (fun row =>
                    if tc_id row =? c_id chat then
                      {| tc_id := tc_id row;
                         tc_type := tc_type c;
                         tc_title := tc_title c;
                         tc_username := tc_username c;
                         tc_first_name := tc_first_name c;
                         tc_last_name := tc_last_name c;
                         tc_is_forum := tc_is_forum c;
                         tc_is_direct_messages := tc_is_direct_messages c;
                         tc_personal_chat_id := tc_personal_chat_id row;
                         tc_parent_chat_id := tc_parent_chat_id row;
                         tc_pinned_message_id := tc_pinned_message_id row;
                         tc_photo_small_id := tc_photo_small_id row;
                         tc_photo_big_id := tc_photo_big_id row;
                         tc_other_data := tc_other_data row |}
                    else row)
                 (telegram_chats d))
        else
          log_statement InsertChats ;;
          let* rows := required IntegrityError
                         (insert_rows tc_id (telegram_chats d) [c]) in
          set_chats rows)
     chats)%work.

(** *** The avatar files of a chat (entity_logger.py) *)

Definition chat_photo_check_entities (chat_photo : ChatPhoto) (bot_id : Z)
  : M (list (string * bool * bool)) :=
  (let file_cte := [ small_file_unique_id chat_photo;
                     big_file_unique_id chat_photo ] in
   log_statement SelectChatPhoto ;;
   let* d := get_db in
   ret (List.map
          (fun '(file_unique_id, tf, bf) =>
             (file_unique_id,
              is_not_None (tf_file_unique_id <$> tf),
              is_not_None (bf_file_unique_id <$> bf)))
          (flat_map
             (fun '(c, tf) =>
                List.map (fun '(_, bf) => (c, tf, bf))
                    (outerjoin
                       (fun c bf => String.eqb (bf_file_unique_id bf) c
                                    && (bf_bot_id bf =? bot_id))
                       [c] (bot_files d)))
             (outerjoin (fun c tf => String.eqb (tf_file_unique_id tf) c)
                        file_cte (telegram_files d)))))%work.

Definition insert_chat_photo_entities (files : list (string * bool * bool))
    (bot_files : list (string * string)) (bot_id : Z) : M unit :=
  (let files_json :=
     omap (fun '(file_id, is_exists, _) =>
             if negb is_exists
             then Some [("file_unique_id", JStr file_id);
                        ("file_type", JStr (FileType.value FileType.CHAT_PHOTO))]
             else None) files in
   let insert_bot_files :=
     omap (fun '(file_id, _, is_bot_relation) =>
             if negb is_bot_relation then
               match item String.eqb bot_files file_id with
               | Some bot_file_id =>
                   if truthy_str (Some bot_file_id)
                   then Some (file_id, JStr bot_file_id) else None
               | None => None
               end
             else None) files in
   when_any files_json bulk_insert_files ;;
   when_any insert_bot_files (fun xs => bulk_insert_bot_files xs bot_id))%work.

(** The dictionary literal [{small_unique: small_id, big_unique: big_id}]:
    when both keys are the same the later value stays. *)
Definition chat_photo_bot_files (photo : ChatPhoto) : list (string * string) :=
  if String.eqb (small_file_unique_id photo) (big_file_unique_id photo)
  then [(small_file_unique_id photo, big_file_id photo)]
  else [(small_file_unique_id photo, small_file_id photo);
        (big_file_unique_id photo, big_file_id photo)].

Definition insert_chat_photo_if_not_exist (photo : ChatPhoto) (bot_id : Z)
  : M unit :=
  (let bot_files := chat_photo_bot_files photo in
   let* res := chat_photo_check_entities photo bot_id in
   insert_chat_photo_entities res bot_files bot_id)%work.

(** *** Full chat info *)

(** The column values both branches of the chat-info upsert assign. *)
Definition chat_full_info_values (chat : ChatFullInfo) : result TelegramChat :=
  match ChatType_of_value (cfi_type chat) with
  | None => Err ValueError
  | Some type =>
      Ok {| tc_id := cfi_id chat;
            tc_type := type;
            tc_title := cfi_title chat;
            tc_username := cfi_username chat;
            tc_first_name := cfi_first_name chat;
            tc_last_name := cfi_last_name chat;
            tc_is_forum := truthy_bool (cfi_is_forum chat);
            tc_is_direct_messages := truthy_bool (cfi_is_direct_messages chat);
            tc_personal_chat_id := c_id <$> cfi_personal_chat chat;
            tc_parent_chat_id := c_id <$> cfi_parent_chat chat;
            tc_pinned_message_id := m_id <$> cfi_pinned_message chat;
            tc_photo_small_id := small_file_unique_id <$> cfi_photo chat;
            tc_photo_big_id := big_file_unique_id <$> cfi_photo chat;
            tc_other_data :=
              Some (remove_fields (cfi_dict chat) CHAT_EXCLUDED_FIELDS []) |}
  end.

Definition log_new_chat_full_info (chat : ChatFullInfo) (bot_id : Z) : M unit :=
  (match cfi_photo chat with
   | Some photo => insert_chat_photo_if_not_exist photo bot_id
   | None => ret tt
   end ;;
   let* row := lift (chat_full_info_values chat) in
   log_statement InsertChats ;;
   let* d := get_db in
   let* rows := required IntegrityError
                  (insert_rows tc_id (telegram_chats d) [row]) in
   set_chats rows)%work.

Definition log_chat_full_info (chat : ChatFullInfo) (bot_id : Z) : M unit :=
  (log_statement SelectChat ;;
   let* d := get_db in
   let* existing_chat :=
     lift (scalar_one_or_none
             (List.filter (fun row => tc_id row =? cfi_id chat)
                          (telegram_chats d))) in
   match existing_chat with
   | None => log_new_chat_full_info chat bot_id
   | Some _ =>
       match cfi_photo chat with
       | Some photo => insert_chat_photo_if_not_exist photo bot_id
       | None => ret tt
       end ;;
       let* row := lift (chat_full_info_values chat) in
       log_statement (UpdateChatRow (cfi_id chat)) ;;
       let* d := get_db in
       set_chats
         (List.map (fun r => if tc_id r =? cfi_id chat then row else r)
                   (telegram_chats d))
   end)%work.

(** *** log_telegram_request *)

(** The collaborators outside the repository: the decoders of updates
    and of full chat info, and the live [get_chat] call. *)
Record telegram_lib := {
  (** decodes the updates of a getUpdates result into a list object *)
  decode_updates : list json -> result (heap * oid);
  ChatFullInfo_de_json : json -> result ChatFullInfo;
  get_chat : json -> result ChatFullInfo }.

(** [column == parameter] for a BigInteger column: a parameter that is
    not an integer selects nothing. *)
Definition eq_BigInteger (col : Z) (param : json) : bool :=
  match param with JInt z => col =? z | _ => false end.

(** [column.in_(parameter)]: the parameter has to be a list. *)
Definition in_list (param : json) : result (list json) :=
  match param with JList xs => Ok xs | _ => Err ArgumentError end.

(** [len(x)] *)
Definition py_len (x : json) : result nat :=
  match x with
  | JList xs => Ok (length xs)
  | JDict kvs => Ok (length kvs)
  | JStr s => Ok (String.length s)
  | _ => Err TypeError
  end.

(** [msg_by_id.get(orig_id)] on a dictionary keyed by integers; the last
    row of an id is the one the dictionary keeps. *)
Definition msg_by_id_get (original_db_msgs : list TelegramMessage)
    (orig_id : json) : result (option TelegramMessage) :=
  match orig_id with
  | JInt z => Ok (List.find (fun m => tm_id m =? z) (rev original_db_msgs))
  | JBool b =>
      Ok (List.find (fun m => tm_id m =? (if b then 1 else 0))
                    (rev original_db_msgs))
  | JList _ | JDict _ => Err TypeError
  | _ => Ok None
  end.

(** [msg_dict["chat"]["id"] = chat_id] *)
Definition set_chat_id (msg_dict : jdict) (chat_id : json) : result jdict :=
  match dlookup msg_dict "chat" with
  | Some (JDict chat) => Ok (dset msg_dict "chat" (JDict (dset chat "id" chat_id)))
  | Some _ => Err TypeError
  | None => Err KeyError
  end.

Definition commit_or_rollback {A} (work : M A) (d : db) : db :=
  match work d with
  | Ok (_, d') => d'
  | Err _ => d
  end.

(** One turn of the loop that builds the clones of [copyMessages] and
    [forwardMessages]. *)
Definition synthesize (req : jdict) (method : string) (chat_id : json)
    (copied : TelegramMessage * json) : result TgMessage :=
  let '(original, new_id) := copied in
  let msg_dict := TelegramMessage_to_dict original in
  let msg_dict := ddel msg_dict "edit_date" in
  let msg_dict := dset msg_dict "message_id" new_id in
  try msg_dict := set_chat_id msg_dict chat_id in
  let msg_dict :=
    if truthy (dget req "message_thread_id")
    then dset msg_dict "message_thread_id" (dget req "message_thread_id")
    else msg_dict in
  let msg_dict :=
    if truthy (dget req "remove_caption") && String.eqb method "copyMessages"
    then dset msg_dict "caption" JNull
    else msg_dict in
  let msg_dict :=
    if truthy (dget req "protect_content")
    then dset msg_dict "has_protected_content" (JBool true)
    else msg_dict in
  Message_de_json (JDict msg_dict).

Section Logger.
Variable lib : telegram_lib.

Definition fetch_new_chat_info (chat_id : json) (bot_id : Z)
  : M ChatFullInfo :=
  (let* chat_info := lift (get_chat lib chat_id) in
   log_new_chat_full_info chat_info bot_id ;;
   ret chat_info)%work.

(** The source rows of a copy or forward, each with what the query
    says about the destination chat: its id (or NULL) on the path by
    username, the EXISTS flag on the path by id. *)
Definition select_by_username (chat_id : string)
    (sources : list TelegramMessage) : M (list (TelegramMessage * option Z)) :=
  (log_statement SelectCopySource ;;
   let* d := get_db in
   ret (List.map (fun '(m, c) => (m, tc_id <$> c))
          (outerjoin
             (fun _ c => match tc_username c with
                         | Some u => String.eqb u (lstrip_at chat_id)
                         | None => false
                         end)
             sources (telegram_chats d))))%work.

Definition select_by_id (chat_id : json) (sources : list TelegramMessage)
  : M (list (TelegramMessage * bool)) :=
  (log_statement SelectCopySource ;;
   let* d := get_db in
   ret (List.map
          (fun m => (m, existsb (fun c => eq_BigInteger (tc_id c) chat_id)
                                (telegram_chats d)))
          sources))%work.

(** The branch of [copyMessages] and [forwardMessages]. *)
Definition log_copy_messages (req : jdict) (data : list json)
    (method : string) (bot_id : Z) : M unit :=
  (let chat_id := dget req "chat_id" in
   let from_chat_id := dget req "from_chat_id" in
   let original_message_ids :=
     match dlookup req "message_ids" with Some v => v | None => JList [] end in
   let* copied_ids :=
     lift (traverse (fun msg_id_obj =>
                       match msg_id_obj with
                       | JDict o => match dlookup o "message_id" with
                                    | Some v => Ok v
                                    | None => Err KeyError
                                    end
                       | _ => Err TypeError
                       end) data) in
   if negb (truthy chat_id) || negb (truthy from_chat_id)
      || negb (truthy original_message_ids) || negb (nonempty copied_ids)
   then ret tt
   else
     let* n := lift (py_len original_message_ids) in
     if negb (Nat.eqb n (length copied_ids)) then ret tt
     else
       let* ids := lift (in_list original_message_ids) in
       let* d := get_db in
       let sources :=
         List.filter
           (fun m => eq_BigInteger (tm_chat_id m) from_chat_id
                     && existsb (eq_BigInteger (tm_id m)) ids)
           (telegram_messages d) in
       let* found :=
         match chat_id with
         | JStr s =>
             let* rows := select_by_username s sources in
             let original_db_msgs := List.map fst rows in
             match rows with
             | [] => ret None
             | (_, first_chat) :: _ =>
                 let chat_exists := truthy_int first_chat in
                 ret (Some (original_db_msgs, chat_exists,
                            if chat_exists then jopt JInt first_chat
                            else chat_id))
             end
         | _ =>
             let* rows := select_by_id chat_id sources in
             let original_db_msgs := List.map fst rows in
             match rows with
             | [] => ret None
             | (_, first_exists) :: _ =>
                 ret (Some (original_db_msgs, first_exists, chat_id))
             end
         end in
       match found with
       | None => ret tt
       | Some (original_db_msgs, chat_exists, chat_id) =>
           let* chat_id :=
             if chat_exists then ret chat_id
             else
               let* info := fetch_new_chat_info chat_id bot_id in
               ret (JInt (cfi_id info)) in
           let* copied_messages :=
             lift (traverse
                     (fun '(orig_id, copied_id) =>
                        try msg := msg_by_id_get original_db_msgs orig_id in
                        Ok (msg, copied_id))
                     (zip ids copied_ids)) in
           let copied_messages :=
             omap (fun '(msg, copied_id) =>
                     match msg with
                     | Some m => Some (m, copied_id)
                     | None => None
                     end) copied_messages in
           match copied_messages with
           | [] => ret tt
           | _ =>
               let* new_messages :=
                 lift (traverse (synthesize req method chat_id)
                                copied_messages) in
               let '(h, object) := messages_heap new_messages in
               log_object h object bot_id ;;
               ret tt
           end
       end)%work.

(** The branch of [copyMessage]. *)
Definition log_copy_message (req : jdict) (data : json) (bot_id : Z)
  : M unit :=
  (let chat_id := dget req "chat_id" in
   let from_chat_id := dget req "from_chat_id" in
   let original_message_id := dget req "message_id" in
   let* copied_id :=
     match data with
     | JDict o => ret (dget o "message_id")
     | _ => raise AttributeError
     end in
   if negb (truthy chat_id) || negb (truthy from_chat_id)
      || negb (truthy original_message_id) || negb (truthy copied_id)
   then ret tt
   else
     let* d := get_db in
     let sources :=
       List.filter
         (fun m => eq_BigInteger (tm_id m) original_message_id
                   && eq_BigInteger (tm_chat_id m) from_chat_id)
         (telegram_messages d) in
     let* found :=
       match chat_id with
       | JStr s =>
           let* rows := select_by_username s sources in
           match rows with
           | [] => ret None
           | (original_msg, first_chat) :: _ =>
               let chat_exists := truthy_int first_chat in
               ret (Some (original_msg, chat_exists,
                          if chat_exists then jopt JInt first_chat
                          else chat_id))
           end
       | _ =>
           let* rows := select_by_id chat_id sources in
           match rows with
           | [] => ret None
           | (original_msg, first_exists) :: _ =>
               ret (Some (original_msg, first_exists, chat_id))
           end
       end in
     match found with
     | None => ret tt
     | Some (original_msg, chat_exists, chat_id) =>
         let* chat_id :=
           if chat_exists then ret chat_id
           else
             let* info := fetch_new_chat_info chat_id bot_id in
             ret (JInt (cfi_id info)) in
         let msg_dict := TelegramMessage_to_dict original_msg in
         let msg_dict := ddel msg_dict "edit_date" in
         let msg_dict := dset msg_dict "message_id" copied_id in
         let* msg_dict := lift (set_chat_id msg_dict chat_id) in
         let msg_dict :=
           if truthy (dget req "message_thread_id")
           then dset msg_dict "message_thread_id"
                     (dget req "message_thread_id")
           else msg_dict in
         let msg_dict :=
           if truthy (dget req "protect_content")
           then dset msg_dict "has_protected_content" (JBool true)
           else msg_dict in
         let msg_dict :=
           if truthy (dget req "caption")
           then dset msg_dict "caption" (dget req "caption")
           else msg_dict in
         let msg_dict :=
           if truthy (dget req "caption_entities")
           then dset msg_dict "caption_entities"
                     (dget req "caption_entities")
           else msg_dict in
         (* from here on the name is bound to whatever the request holds *)
         let msg_dict :=
           if truthy (dget req "show_caption_above_media")
           then dget req "show_caption_above_media"
           else JDict msg_dict in
         let msg_dict :=
           if truthy (dget req "reply_markup")
           then dget req "reply_markup"
           else msg_dict in
         let* json_msg := lift (Message_de_json msg_dict) in
         let db_msg := make_message_db_object json_msg in
         let* bot_message :=
           lift (try chat_id := req_int chat_id in
                 try copied_id := req_int copied_id in
                 Ok {| bm_bot_id := bot_id; bm_chat_id := chat_id;
                       bm_message_id := copied_id |}) in
         log_statement InsertMessages ;;
         let* d := get_db in
         let* rows := required IntegrityError
                        (insert_rows message_pk (telegram_messages d)
                                     [db_msg]) in
         set_messages rows ;;
         log_statement InsertBotMessages ;;
         let* d := get_db in
         let* rows := required IntegrityError
                        (insert_rows bot_message_pk (bot_messages d)
                                     [bot_message]) in
         set_bot_messages rows
     end)%work.

(** The branch of [getUpdates]. *)
Definition log_get_updates (data : list json) (bot_id : Z) : M unit :=
  (let* decoded := lift (decode_updates lib data) in
   let '(h, updates) := decoded in
   let updated_messages := omap (updated_message_of h) (children h updates) in
   log_object h updates bot_id ;;
   for_each (fun message => update_message h message bot_id true)
            updated_messages)%work.

Definition log_telegram_request (req : jdict) (data : json)
    (method : string) (bot_id : Z) : M unit :=
  (match data with
   | JBool _ => ret tt
   | JList data =>
       if String.eqb method "getUpdates" then log_get_updates data bot_id
       else if String.eqb method "sendMediaGroup" then
         let* messages := lift (traverse Message_de_json data) in
         let '(h, object) := messages_heap messages in
         log_object h object bot_id ;; ret tt
       else if String.eqb method "copyMessages"
               || String.eqb method "forwardMessages" then
         log_copy_messages req data method bot_id
       else ret tt
   | _ =>
       if String.eqb method "getChatFullInfo" then
         let* chat_info := lift (ChatFullInfo_de_json lib data) in
         let chats_to_log :=
           match cfi_personal_chat chat_info with
           | Some c => [(c_id c, c)]
           | None => []
           end in
         let chats_to_log :=
           match cfi_parent_chat chat_info with
           | Some c =>
               List.filter (fun kc => negb (fst kc =? c_id c)) chats_to_log
               ++ [(c_id c, c)]
           | None => chats_to_log
           end in
         when_any chats_to_log log_chats ;;
         log_chat_full_info chat_info bot_id
       else if String.eqb method "getMe" then
         let* user := lift (User_de_json data) in
         log_me user
       else if str_in method MESSAGE_RETURNED_METHODS then
         let* message := lift (Message_de_json data) in
         let '(h, _) := messages_heap [message] in
         log_object h (message_oid 0) bot_id ;; ret tt
       else if str_in method EDITED_MESSAGE_RETURNED_METHODS then
         let* message := lift (Message_de_json data) in
         let '(h, _) := messages_heap [message] in
         update_message h (message_oid 0) bot_id false
       else if String.eqb method "copyMessage" then
         log_copy_message req data bot_id
       else ret tt
   end)%work.

(** [proxy_request] as far as the database goes: the logging runs
    inside [try]; what it raises is logged and nothing is committed. *)
Definition proxy_request_log (req : jdict) (result : json)
    (method : string) (bot_id : Z) (d : db) : db :=
  commit_or_rollback (log_telegram_request req result method bot_id) d.
End Logger.

(** ** Vocabulary of the statements below *)

(** The objects of the heap a call may still go into. *)
Definition unseen (h : heap) (seen : gset oid) : nat := size (dom h ∖ seen).

(** What a finished call guarantees, for the [seen] set it started from
    and the objects [todo] it was asked to look at. *)
Definition walk_ok (h : heap) (seen : gset oid) (todo : list oid) (r : walked)
  : Prop :=
  let '(seen', vis, _) := r in
  seen' = seen ∪ list_to_set vis
  /\ NoDup vis
  /\ (forall x, x ∈ vis -> x ∉ seen)
  /\ (forall x, x ∈ todo -> x ∈ seen')
  /\ (forall x c, x ∈ vis -> c ∈ children h x -> c ∈ seen')
  /\ (forall x, x ∈ vis -> is_float h x = false).

(** The database after one more statement that changes no table. *)
Definition executes (s : statement) (d : db) : db :=
  {| telegram_users := telegram_users d;
     telegram_chats := telegram_chats d;
     telegram_messages := telegram_messages d;
     telegram_files := telegram_files d;
     bot_messages := bot_messages d;
     bot_files := bot_files d;
     executed := executed d ++ [s] |}.

Definition message_tuple (m : Z * Z) : tuple :=
  let '(chat_id, msg_id) := m in [Some (VInt chat_id); Some (VInt msg_id)].

(** The rows [check_entities] returns when it returns. *)
Definition check_rows (d : db) (chat_ids user_ids : list Z)
    (messages : list (Z * Z)) (file_ids : list string) : list check_row :=
  chat_query d (non_empty_cte_data
                  (List.map (fun chat_id => [Some (VInt chat_id)]) chat_ids))
  ++ user_query d (non_empty_cte_data
                     (List.map (fun user_id => [Some (VInt user_id)]) user_ids))
  ++ msg_query d (List.map message_tuple messages)
  ++ file_query d (non_empty_cte_data
                     (List.map (fun f => [Some (VStr f)]) file_ids)).

(** ** The resolver's contract, as the design document words it

    Used for comparison only: one row per key, saying whether the key is
    stored and, for messages and files, whether the given bot is already
    linked to it; a kind without keys has no rows. *)
Module Contract.

Definition stored_chat (d : db) (k : Z) : bool :=
  existsb (fun r => tc_id r =? k) (telegram_chats d).
Definition stored_user (d : db) (k : Z) : bool :=
  existsb (fun r => tu_id r =? k) (telegram_users d).
Definition stored_message (d : db) (k : Z * Z) : bool :=
  existsb (fun r => pair_eqb (message_pk r) k) (telegram_messages d).
Definition stored_file (d : db) (k : string) : bool :=
  existsb (fun r => String.eqb (tf_file_unique_id r) k) (telegram_files d).
Definition linked_message (d : db) (bot_id : Z) (k : Z * Z) : bool :=
  existsb (fun r => (bm_bot_id r =? bot_id)
                    && pair_eqb (bm_chat_id r, bm_message_id r) k)
          (bot_messages d).
Definition linked_file (d : db) (bot_id : Z) (k : string) : bool :=
  existsb (fun r => (bf_bot_id r =? bot_id)
                    && String.eqb (bf_file_unique_id r) k)
          (bot_files d).

Definition check_entities (d : db) (chat_ids user_ids : list Z)
    (messages : list (Z * Z)) (file_ids : list string) (bot_id : Z)
  : list check_row :=
  List.map (fun k => {| cr_chat_id := Some k; cr_user_id := None;
                        cr_message_id := None; cr_file_unique_id := None;
                        cr_exists := stored_chat d k;
                        cr_bot_relation := None;
                        cr_type := EntityCheckResultType.CHAT |}) chat_ids
  ++ List.map (fun k => {| cr_chat_id := None; cr_user_id := Some k;
                           cr_message_id := None; cr_file_unique_id := None;
                           cr_exists := stored_user d k;
                           cr_bot_relation := None;
                           cr_type := EntityCheckResultType.USER |}) user_ids
  ++ List.map (fun k => {| cr_chat_id := Some (fst k); cr_user_id := None;
                           cr_message_id := Some (snd k);
                           cr_file_unique_id := None;
                           cr_exists := stored_message d k;
                           cr_bot_relation := Some (linked_message d bot_id k);
                           cr_type := EntityCheckResultType.MESSAGE |}) messages
  ++ List.map (fun k => {| cr_chat_id := None; cr_user_id := None;
                           cr_message_id := None; cr_file_unique_id := Some k;
                           cr_exists := stored_file d k;
                           cr_bot_relation := Some (linked_file d bot_id k);
                           cr_type := EntityCheckResultType.FILE |}) file_ids.

End Contract.

(** ** Concrete stores and payloads used in the examples *)
Module Sample.

Definition chat_row (id : Z) : TelegramChat :=
  {| tc_id := id; tc_type := GROUP; tc_title := Some "room";
     tc_username := None; tc_first_name := None; tc_last_name := None;
     tc_is_forum := false; tc_is_direct_messages := false;
     tc_personal_chat_id := None; tc_parent_chat_id := None;
     tc_pinned_message_id := None; tc_photo_small_id := None;
     tc_photo_big_id := None; tc_other_data := None |}.

Definition user_row (id : Z) : TelegramUser :=
  {| tu_id := id; tu_first_name := "Ann"; tu_last_name := None;
     tu_username := None; tu_language_code := None;
     tu_is_premium := false; tu_is_bot := false |}.

(** A stored photo message with a caption that was edited once. *)
Definition message_row (chat id : Z) : TelegramMessage :=
  {| tm_id := id; tm_chat_id := chat; tm_message_type := MessageType.PHOTO;
     tm_message_thread_id := None; tm_text := None;
     tm_caption := Some "hello"; tm_from_user_id := None;
     tm_sender_chat_id := None; tm_sender_boost_count := None;
     tm_sender_business_bot_id := None; tm_date := 1700000000;
     tm_edit_date := Some 1700000500; tm_business_connection_id := None;
     tm_is_topic_message := false; tm_is_automatic_forward := false;
     tm_has_media_spoiler := false; tm_has_protected_content := false;
     tm_is_from_offline := false; tm_is_paid_post := false;
     tm_author_signature := None; tm_paid_star_count := None;
     tm_other_data :=
       Some [("photo", JList [JDict [("file_unique_id", JStr "u1");
                                     ("width", JInt 90);
                                     ("height", JInt 90)]])] |}.

Definition link (bot chat id : Z) : BotMessage :=
  {| bm_bot_id := bot; bm_chat_id := chat; bm_message_id := id |}.

Definition no_store : db :=
  {| telegram_users := []; telegram_chats := []; telegram_messages := [];
     telegram_files := []; bot_messages := []; bot_files := [];
     executed := [] |}.

(** Chats 100 and 200 are stored, no user is, and of the messages of
    chat 100 only number 1 is, already linked to bot 9. *)
Definition store : db :=
  {| telegram_users := [];
     telegram_chats := [chat_row 100; chat_row 200];
     telegram_messages := [message_row 100 1];
     telegram_files := [];
     bot_messages := [link 9 100 1];
     bot_files := [];
     executed := [] |}.

(** One user is stored and nothing else. *)
Definition user_store : db :=
  {| telegram_users := [user_row 5]; telegram_chats := [];
     telegram_messages := []; telegram_files := []; bot_messages := [];
     bot_files := []; executed := [] |}.

(** Chats 1 and 2 are stored; message (1, 50) is, linked to bot 8 only. *)
Definition copy_store : db :=
  {| telegram_users := [];
     telegram_chats := [chat_row 1; chat_row 2];
     telegram_messages := [message_row 1 50];
     telegram_files := [];
     bot_messages := [link 8 1 50];
     bot_files := [];
     executed := [] |}.

Definition chat (id : Z) : TgChat :=
  {| c_id := id; c_type := "group"; c_title := Some "room";
     c_username := None; c_first_name := None; c_last_name := None;
     c_is_forum := None; c_is_direct_messages := None |}.

Definition user (id : Z) : TgUser :=
  {| u_id := id; u_first_name := "Ann"; u_last_name := None;
     u_username := None; u_language_code := None; u_is_premium := None;
     u_is_bot := false |}.

(** A text message of [chat] with number [id], as decoded from a
    payload. *)
Definition message (chat_id id : Z) (text : string) (edit_date : option Z)
  : TgMessage :=
  {| m_id := id; m_chat := chat chat_id; m_message_thread_id := None;
     m_text := Some text; m_caption := None; m_from_user := None;
     m_sender_chat := None; m_sender_boost_count := None;
     m_sender_business_bot := None; m_date := 1700000000;
     m_edit_date := edit_date; m_business_connection_id := None;
     m_is_topic_message := None; m_is_automatic_forward := None;
     m_has_media_spoiler := None; m_has_protected_content := None;
     m_is_from_offline := None; m_is_paid_post := None;
     m_author_signature := None; m_paid_star_count := None;
     m_delete_chat_photo := None; m_group_chat_created := None;
     m_supergroup_chat_created := None; m_channel_chat_created := None;
     m_dict := [("message_id", JInt id); ("date", JInt 1700000000);
                ("chat", JDict [("id", JInt chat_id); ("type", JStr "group");
                                ("title", JStr "room")]);
                ("text", JStr text)]
               ++ match edit_date with
                  | Some t => [("edit_date", JInt t)]
                  | None => []
                  end |}.

(** A webhook update (object 1) whose [edited_message] is the message
    at object 2, with its chat at object 3; its [update_id] is the number
    at object 10. *)
Definition edited_update (m : TgMessage) : heap :=
  list_to_map
    ([ (1%positive, PInst (IUpdate (Some 2%positive) None None)
                          [("_frozen", None);
                           ("edited_message", Some 2%positive);
                           ("effective_message", Some 2%positive);
                           ("update_id", Some 10%positive)]);
       (2%positive, PInst (IMessage m)
                          [("_bot", None); ("chat", Some 3%positive)]);
       (3%positive, PInst (IChat (m_chat m)) []) ]
     ++ Builtins.numbers 10%positive).

(** The same update when the edited message is a live location: the
    message has a [location] (object 4) whose [latitude] and [longitude]
    are the floats at objects 5 and 6. *)
Definition live_location (m : TgMessage) : heap :=
  list_to_map
    ([ (1%positive, PInst (IUpdate (Some 2%positive) None None)
                          [("_frozen", None);
                           ("edited_message", Some 2%positive);
                           ("effective_message", Some 2%positive);
                           ("update_id", Some 10%positive)]);
       (2%positive, PInst (IMessage m)
                          [("_bot", None); ("chat", Some 3%positive);
                           ("location", Some 4%positive)]);
       (3%positive, PInst (IChat (m_chat m)) []);
       (4%positive, PInst IOther [("latitude", Some 5%positive);
                                  ("longitude", Some 6%positive)]);
       (5%positive, PFloat);
       (6%positive, PFloat) ]
     ++ Builtins.numbers 10%positive).

(** A payload with two users, one of them with id 0, and an answer of
    the resolver that calls both of them new. *)
Definition two_users : heap :=
  list_to_map
    [ (1%positive, PSeq [2%positive; 3%positive]);
      (2%positive, PInst (IUser (user 0)) []);
      (3%positive, PInst (IUser (user 7)) []) ].

Definition both_new : list check_row :=
  List.map (fun k => {| cr_chat_id := None; cr_user_id := Some k;
                        cr_message_id := None; cr_file_unique_id := None;
                        cr_exists := false; cr_bot_relation := None;
                        cr_type := EntityCheckResultType.USER |})
           [0; 7].

(** A full-info snapshot of chat 100 without avatar. *)
Definition chat_info : ChatFullInfo :=
  {| cfi_id := 100; cfi_type := "supergroup"; cfi_title := Some "lobby";
     cfi_username := Some "lobby_chat"; cfi_first_name := None;
     cfi_last_name := None; cfi_is_forum := Some true;
     cfi_is_direct_messages := None; cfi_personal_chat := None;
     cfi_parent_chat := None; cfi_pinned_message := None;
     cfi_photo := None;
     cfi_dict := [("id", JInt 100); ("type", JStr "supergroup");
                  ("title", JStr "lobby"); ("username", JStr "lobby_chat");
                  ("is_forum", JBool true); ("accent_color_id", JInt 3);
                  ("max_reaction_count", JInt 11)] |}.

(** The bot's own profile as getMe reports it. *)
Definition me : TgUser :=
  {| u_id := 5; u_first_name := "Proxy"; u_last_name := None;
     u_username := Some "proxy_bot"; u_language_code := None;
     u_is_premium := Some true; u_is_bot := true |}.

(** The collaborators when none of them answers. *)
Definition offline : telegram_lib :=
  {| decode_updates := fun _ => Err TelegramError;
     ChatFullInfo_de_json := fun _ => Err TypeError;
     get_chat := fun _ => Err TelegramError |}.

Definition copy_request : jdict :=
  [("chat_id", JInt 2); ("from_chat_id", JInt 1); ("message_id", JInt 50)].

Definition copies_request : jdict :=
  [("chat_id", JInt 2); ("from_chat_id", JInt 1);
   ("message_ids", JList [JInt 50]); ("remove_caption", JBool true);
   ("protect_content", JBool true)].

Definition reply_markup : json :=
  JDict [("inline_keyboard",
          JList [JList [JDict [("text", JStr "open");
                               ("url", JStr "https://example.org")]]])].

End Sample.

(** Every entry of the extractor's maps sits under the key its object
    shows. *)
Definition keyed (e : entities) : Prop :=
  (forall k u, (k, u) ∈ unique_users e -> u_id u = k)
  /\ (forall k c, (k, c) ∈ unique_chats e -> c_id c = k)
  /\ (forall k m, (k, m) ∈ unique_messages e -> (m_chat_id m, m_id m) = k)
  /\ (forall k f, (k, f) ∈ unique_files_json e ->
        dlookup f "file_unique_id" = Some (JStr k)).

(** No key of the six lists is falsy. *)
Definition truthy_batches (b : batches) : Prop :=
  Forall (fun u => u_id u <> 0) (new_users b)
  /\ Forall (fun c => c_id c <> 0) (new_chats b)
  /\ Forall (fun m => m_chat_id m <> 0 /\ m_id m <> 0) (new_messages b)
  /\ Forall (fun k => fst k <> 0 /\ snd k <> 0) (new_bot_messages b)
  /\ Forall (fun f => exists k, dlookup f "file_unique_id" = Some (JStr k)
                                /\ k <> "") (new_files b)
  /\ Forall (fun kf => fst kf <> "") (new_bot_files b).

(** The rows of [d'] that have a falsy key were already in [d]. *)
Definition no_falsy_key_written (d d' : db) : Prop :=
  (forall r, r ∈ telegram_users d' -> tu_id r = 0 -> r ∈ telegram_users d)
  /\ (forall r, r ∈ telegram_chats d' -> tc_id r = 0 -> r ∈ telegram_chats d)
  /\ (forall r, r ∈ telegram_messages d' ->
        tm_chat_id r = 0 \/ tm_id r = 0 -> r ∈ telegram_messages d)
  /\ (forall r, r ∈ bot_messages d' ->
        bm_chat_id r = 0 \/ bm_message_id r = 0 -> r ∈ bot_messages d)
  /\ (forall r, r ∈ telegram_files d' ->
        tf_file_unique_id r = "" -> r ∈ telegram_files d)
  /\ (forall r, r ∈ bot_files d' ->
        bf_file_unique_id r = "" -> r ∈ bot_files d).

(** The step of the chat-info upsert that looks after the avatar files. *)
Definition avatar_step (chat : ChatFullInfo) (bot_id : Z) : M unit :=
  match cfi_photo chat with
  | Some photo => insert_chat_photo_if_not_exist photo bot_id
  | None => ret tt
  end.

(** The columns of the user table [log_me] assigns. *)
Definition refreshed_by (user : TgUser) (row : TelegramUser) : Prop :=
  tu_first_name row = u_first_name user
  /\ tu_last_name row = u_last_name user
  /\ tu_username row = u_username user
  /\ tu_language_code row = u_language_code user.

(** The stored rows of a chat id. *)
Definition chat_rows (id : Z) (d : db) : list TelegramChat :=
  List.filter (fun r => tc_id r =? id) (telegram_chats d).

(** *** When a copy or forward has nothing to go on *)

(** The new id a [copyMessage] result carries, if it is an object. *)
Definition new_id_of (data : json) : json :=
  match data with JDict o => dget o "message_id" | _ => JNull end.

(** The source ids of a [copyMessages] / [forwardMessages] request:
    [req.get("message_ids", [])]. *)
Definition source_ids_of (req : jdict) : json :=
  match dlookup req "message_ids" with Some v => v | None => JList [] end.

(** A required parameter of [copyMessage] is missing (or falsy). *)
Definition copy_message_incomplete (req : jdict) (data : json) : bool :=
  negb (truthy (dget req "chat_id")) || negb (truthy (dget req "from_chat_id"))
  || negb (truthy (dget req "message_id")) || negb (truthy (new_id_of data)).

(** A required parameter of [copyMessages] / [forwardMessages] is
    missing, or the result holds no new id. *)
Definition copy_messages_incomplete (req : jdict) (data : json) : bool :=
  negb (truthy (dget req "chat_id")) || negb (truthy (dget req "from_chat_id"))
  || negb (truthy (source_ids_of req))
  || match data with JList (_ :: _) => false | _ => true end.

(** Some stored message is the source of the [copyMessage] request. *)
Definition source_logged (req : jdict) (d : db) : bool :=
  existsb (fun m => eq_BigInteger (tm_id m) (dget req "message_id")
                    && eq_BigInteger (tm_chat_id m) (dget req "from_chat_id"))
          (telegram_messages d).

(** Some stored message is among the sources of the [copyMessages] /
    [forwardMessages] request. *)
Definition sources_logged (req : jdict) (d : db) : bool :=
  match source_ids_of req with
  | JList ids =>
      existsb (fun m => eq_BigInteger (tm_chat_id m) (dget req "from_chat_id")
                        && existsb (eq_BigInteger (tm_id m)) ids)
              (telegram_messages d)
  | _ => false
  end.

(** The situations in which a copy or forward is to be skipped. *)
Definition nothing_to_copy (req : jdict) (data : json) (method : string)
    (d : db) : bool :=
  if String.eqb method "copyMessage" then
    copy_message_incomplete req data || negb (source_logged req d)
  else if String.eqb method "copyMessages"
          || String.eqb method "forwardMessages" then
    copy_messages_incomplete req data || negb (sources_logged req d)
  else false.

(** The result has the shape the method promises: an object for
    [copyMessage]; for the other two a list of objects that each carry a
    [message_id], answering a request whose [message_ids] is a list. *)
Definition well_shaped (req : jdict) (data : json) (method : string) : bool :=
  if String.eqb method "copyMessage" then
    match data with JDict _ => true | _ => false end
  else
    match data, source_ids_of req with
    | JList items, JList _ =>
        forallb (fun i => match i with
                          | JDict o => dmem o "message_id"
                          | _ => false
                          end) items
    | _, _ => false
    end.

(** A computation that leaves the message table and the bot-message
    links as they are whenever it returns. *)
Definition keeps_messages {A} (m : M A) : Prop :=
  forall d a d',
    m d = Ok (a, d') ->
    telegram_messages d' = telegram_messages d
    /\ bot_messages d' = bot_messages d.

(** A resolver that can only answer "exists" and, for messages and
    files, "linked". *)
Definition never_reports_new (m : M (list check_row)) : Prop :=
  forall d rows d',
    m d = Ok (rows, d') ->
    forall r, r ∈ rows ->
      cr_exists r = true /\ not_bot_relation (cr_bot_relation r) = false
      \/ cr_exists r = true /\ cr_bot_relation r = None.

(** What the name [msg_dict] is bound to at the end of the [copyMessage]
    branch when one of the two parameters is given. *)
Definition replaced_clone (req : jdict) : option json :=
  if truthy (dget req "reply_markup") then Some (dget req "reply_markup")
  else if truthy (dget req "show_caption_above_media")
       then Some (dget req "show_caption_above_media")
       else None.

(** ** Vocabulary of the further properties *)

(** [obj] without the values, items and attribute values that [keep]
    turns down. *)
Definition prune (keep : oid -> bool) (obj : pyobj) : pyobj :=
  match obj with
  | PDict values => PDict (List.filter keep values)
  | PSeq items => PSeq (List.filter keep items)
  | PInst i attrs =>
      PInst i (List.filter (fun av => match snd av with
                                      | Some value => keep value
                                      | None => true
                                      end) attrs)
  | PFloat => PFloat
  end.

(** Behind [x] there is nothing that [wanted] asks for and no float. *)
Definition inert (h : heap) (wanted : oid -> bool) (x : oid) : Prop :=
  forall y, reachable h x y -> wanted y = false /\ is_float h y = false.

(** [key] is a key of [v] or of a dictionary inside it, at any depth. *)
Fixpoint mentions (key : string) (v : json) : bool :=
  match v with
  | JDict kvs =>
      (fix any (kvs : list (string * json)) : bool :=
         match kvs with
         | [] => false
         | (k, x) :: r => String.eqb k key || mentions key x || any r
         end) kvs
  | JList xs =>
      (fix any (xs : list json) : bool :=
         match xs with
         | [] => false
         | x :: r => mentions key x || any r
         end) xs
  | _ => false
  end.

(** The row and the link that stand for an avatar file. *)
Definition chat_photo_file (file_unique_id : string) : TelegramFile :=
  {| tf_file_unique_id := file_unique_id;
     tf_file_type := FileType.value FileType.CHAT_PHOTO;
     tf_file_size := None;
     tf_mime_type := None;
     tf_other_data := None |}.

Definition chat_photo_link (bot_id : Z) (x : string * string) : BotFile :=
  {| bf_bot_id := bot_id; bf_file_unique_id := fst x; bf_file_id := snd x |}.

(** The primary keys of the two file tables hold. *)
Definition file_keys_unique (d : db) : Prop :=
  NoDup (List.map tf_file_unique_id (telegram_files d))
  /\ NoDup (List.map bot_file_pk (bot_files d)).

(** The avatar files of [photo] that have no row yet, and the pairs of
    unique id and file id that bot [bot_id] has no link for yet (a pair
    with an empty file id is passed over). *)
Definition missing_files (d : db) (photo : ChatPhoto) : list string :=
  List.filter (fun u => negb (Contract.stored_file d u))
              [small_file_unique_id photo; big_file_unique_id photo].

Definition missing_links (d : db) (bot_id : Z) (photo : ChatPhoto)
  : list (string * string) :=
  List.filter (fun x => negb (Contract.linked_file d bot_id (fst x))
                        && truthy_str (Some (snd x)))
              [(small_file_unique_id photo, small_file_id photo);
               (big_file_unique_id photo, big_file_id photo)].

(** The dictionary [insert_chat_photo_entities] makes up for an avatar
    file that has no row. *)
Definition chat_photo_dict (file_unique_id : string) : jdict :=
  [("file_unique_id", JStr file_unique_id);
   ("file_type", JStr (FileType.value FileType.CHAT_PHOTO))].

(** Examples for the avatar files: a photo, and a store that has the
    small file only, linked to another bot. *)
Module Avatar.

Definition photo : ChatPhoto :=
  {| small_file_id := "AQADsmall"; small_file_unique_id := "AQADs";
     big_file_id := "AQADbig"; big_file_unique_id := "AQADb" |}.

Definition store : db :=
  {| telegram_users := []; telegram_chats := []; telegram_messages := [];
     telegram_files := [chat_photo_file "AQADs"];
     bot_messages := [];
     bot_files := [chat_photo_link 8 ("AQADs", "AQADsmall8")];
     executed := [] |}.

(** A photo whose two sizes have one and the same unique id. *)
Definition square : ChatPhoto :=
  {| small_file_id := "AQADsmall"; small_file_unique_id := "AQADs";
     big_file_id := "AQADbig"; big_file_unique_id := "AQADs" |}.

End Avatar.

(** ** app/core/utils.py: generate_numeric_otp *)

(** The decimal digit of a number from 0 to 9, and back. *)
Definition digit (z : Z) : ascii := ascii_of_N (Z.to_N (48 + z)).

Definition digit_value (c : ascii) : option Z :=
  let n := Z.of_N (N_of_ascii c) in
  if (48 <=? n) && (n <=? 57) then Some (n - 48) else None.

(** [str(z)] for [z >= 0]: the digits are produced from the last one
    on; [fuel] bounds their number. *)
Fixpoint decimal (fuel : nat) (z : Z) (acc : string) : string :=
  match fuel with
  | O => acc
  | S fuel' =>
      let acc := String (digit (z mod 10)) acc in
      if z <? 10 then acc else decimal fuel' (z / 10) acc
  end.

(** A number has no more decimal digits than binary ones. *)
Definition str_of_nonneg (z : Z) : string :=
  decimal (S (Z.to_nat (Z.log2 z))) z "".

Fixpoint zeros (n : nat) : string :=
  match n with O => "" | S n' => String "0" (zeros n') end.

(** [sys.get_int_max_str_digits()]: CPython (from 3.11 on, and the
    maintenance releases of the older versions that took the change over)
    refuses to turn an [int] of more decimal digits than this into a
    string; 4300 is the value it starts with, and nothing in the
    repository changes it. *)
Definition int_max_str_digits : Z := 4300.

(** [format(z, "0<width>d")]: the digits are filled up with zeros on
    the left to [width] characters, the sign of a negative number
    included; a number of too many digits is refused with [ValueError]. *)
Definition format_0d (width : Z) (z : Z) : result string :=
  let fill (w : nat) (s : string) :=
    String.append (zeros (w - String.length s)) s in
  let digits := str_of_nonneg (Z.abs z) in
  if int_max_str_digits <? Z.of_nat (String.length digits)
  then Err ValueError
  else if z <? 0
       then Ok (String "-" (fill (Z.to_nat width - 1)%nat digits))
       else Ok (fill (Z.to_nat width) digits).

(** [secrets.randbelow] is the parameter [randbelow]. *)
Definition generate_numeric_otp (randbelow : Z -> Z) (n_digits : Z)
  : result string :=
  if n_digits <=? 0 then Err ValueError
  else
    let upper := 10 ^ n_digits in
    let code := randbelow upper in
    format_0d n_digits code.

(** Reading a string of decimal digits; [None] when a character is not
    a digit or the string is empty. *)
Fixpoint int_of_digits (acc : Z) (s : string) : option Z :=
  match s with
  | EmptyString => Some acc
  | String c r =>
      match digit_value c with
      | Some v => int_of_digits (10 * acc + v) r
      | None => None
      end
  end.

Definition int_of_decimal (s : string) : option Z :=
  match s with
  | EmptyString => None
  | _ => int_of_digits 0 s
  end.

(** ** app/core/utils.py: update_user_bool_field

    The accounts of the service itself ([app/db/models/user.py]); the
    table is a list of rows, and what ends the request is an
    [HTTPException] with its status code and detail. *)
Module Accounts.

Module UserRole.
Inductive t := USER | ADMIN | GOD.
End UserRole.

Record User := {
  id : Z;
  email : string;
  username : string;
  is_banned : bool;
  password_hash : string;
  email_verified : bool;
  role : UserRole.t }.

Record AuthorizedUser := {
  au_id : Z;
  au_role : UserRole.t;
  au_is_email_verified : bool;
  au_jti : string }.

Inductive failure :=
| HTTPException (status_code : Z) (detail : string)
| MultipleResultsFound.

(** The Boolean columns the callers name in [field_name]. *)
Inductive bool_field := Is_banned | Email_verified.

Definition getattr (user : User) (field_name : bool_field) : bool :=
  match field_name with
  | Is_banned => is_banned user
  | Email_verified => email_verified user
  end.

Definition setattr (user : User) (field_name : bool_field) (value : bool)
  : User :=
  match field_name with
  | Is_banned =>
      {| id := id user; email := email user; username := username user;
         is_banned := value; password_hash := password_hash user;
         email_verified := email_verified user; role := role user |}
  | Email_verified =>
      {| id := id user; email := email user; username := username user;
         is_banned := is_banned user; password_hash := password_hash user;
         email_verified := value; role := role user |}
  end.

Definition is_staff (r : UserRole.t) : bool :=
  match r with UserRole.ADMIN | UserRole.GOD => true | UserRole.USER => false end.

Definition is_god (r : UserRole.t) : bool :=
  match r with UserRole.GOD => true | _ => false end.

(** The table after the commit and the user that is returned, or the
    exception. *)
Definition update_user_bool_field (authorized_user : AuthorizedUser)
    (user_id : Z) (users : list User) (field_name : bool_field)
    (value : bool) (error_msg : string)
  : list User * User + failure :=
  match List.filter (fun u => id u =? user_id) users with
  | [] => inr (HTTPException 404 "User not found")
  | [user] =>
      if is_staff (role user) && negb (is_god (au_role authorized_user))
      then inr (HTTPException 403 "Forbidden")
      else
        let current_value := getattr user field_name in
        if Bool.eqb current_value value
        then inr (HTTPException 409 error_msg)
        else
          let user' := setattr user field_name value in
          inl (List.map (fun u => if id u =? user_id then user' else u) users,
               user')
  | _ => inr MultipleResultsFound
  end.

End Accounts.

(** Three accounts, one of each role, and an administrator who asks. *)
Module Staff.
Import Accounts.

Definition account (id : Z) (name : string) (role : UserRole.t) : User :=
  {| Accounts.id := id; email := String.append name "@example.org";
     username := name; is_banned := false; password_hash := "$2b$12$hash";
     email_verified := true; Accounts.role := role |}.

Definition accounts : list User :=
  [account 1 "alice" UserRole.USER; account 2 "bob" UserRole.ADMIN;
   account 3 "root" UserRole.GOD].

Definition admin : AuthorizedUser :=
  {| au_id := 2; au_role := UserRole.ADMIN; au_is_email_verified := true;
     au_jti := "a1b2" |}.

End Staff.

(** A stored post that was sent on behalf of chat 100 itself. *)
Definition channel_post : TelegramMessage :=
  {| tm_id := 50; tm_chat_id := 1; tm_message_type := MessageType.TEXT;
     tm_message_thread_id := None; tm_text := Some "news";
     tm_caption := None; tm_from_user_id := None;
     tm_sender_chat_id := Some 1; tm_sender_boost_count := None;
     tm_sender_business_bot_id := None; tm_date := 1700000000;
     tm_edit_date := None; tm_business_connection_id := None;
     tm_is_topic_message := false; tm_is_automatic_forward := false;
     tm_has_media_spoiler := false; tm_has_protected_content := false;
     tm_is_from_offline := false; tm_is_paid_post := false;
     tm_author_signature := None; tm_paid_star_count := None;
     tm_other_data := None |}.

(** ** app/services/telegram/logger.py: verify_token *)
Module Tokens.

Definition in_range (lo hi c : ascii) : bool :=
  (N_of_ascii lo <=? N_of_ascii c)%N && (N_of_ascii c <=? N_of_ascii hi)%N.

(** [[0-9]] and [[A-Za-z0-9_-]] *)
Definition is_digit (c : ascii) : bool := in_range "0" "9" c.

Definition is_token_char (c : ascii) : bool :=
  in_range "A" "Z" c || in_range "a" "z" c || in_range "0" "9" c
  || Ascii.eqb c "_" || Ascii.eqb c "-".

(** The longest prefix of characters of a class, and what follows it. *)
Fixpoint span (p : ascii -> bool) (s : string) : string * string :=
  match s with
  | String c r =>
      if p c then let '(a, b) := span p r in (String c a, b) else ("", s)
  | EmptyString => ("", "")
  end.

(** [re.match(BOT_TOKEN_REGEX, token)] for
    [^[0-9]{8,10}:[A-Za-z0-9_-]{35}$]: eight to ten digits, a colon and
    35 characters of the second class; [$] matches at the end and also
    before a line feed that ends the string. *)
Definition match_BOT_TOKEN_REGEX (token : string) : bool :=
  let '(digits, rest) := span is_digit token in
  (8 <=? String.length digits)%nat && (String.length digits <=? 10)%nat
  && match rest with
     | String ":" body =>
         let '(chars, tail) := span is_token_char body in
         (String.length chars =? 35)%nat
         && (String.eqb tail "" || String.eqb tail (String "010" ""))
     | _ => false
     end.

(** [s.split(":")[0]] and [s.split(":", 1)[1]] ([None]: there is no
    colon, and the index is out of range). *)
Fixpoint before_colon (s : string) : string :=
  match s with
  | String c r => if Ascii.eqb c ":" then "" else String c (before_colon r)
  | EmptyString => ""
  end.

Fixpoint after_colon (s : string) : option string :=
  match s with
  | String c r => if Ascii.eqb c ":" then Some r else after_colon r
  | EmptyString => None
  end.

(** A row of the table of bots, as far as the check reads it. *)
Record Bot := {
  b_id : Z;
  b_token : string }.

Inductive failure :=
| HTTPException (status_code : Z) (detail : string)
| ValueError            (* int() of something that is no number *)
| IndexError
| MultipleResultsFound
| InvalidTag.           (* the stored token cannot be decrypted *)

(** [crypto.decrypt_data(_, CryptoInfo.BOT_TOKEN)] is the parameter
    [decrypt_data]. *)
Definition verify_token (decrypt_data : string -> option string)
    (bots : list Bot) (token : string) : Z + failure :=
  if String.eqb token "" || negb (match_BOT_TOKEN_REGEX token) then
    inr (HTTPException 400 "Invalid Telegram bot token format")
  else
    match int_of_decimal (before_colon token) with
    | None => inr ValueError
    | Some bot_id =>
        match List.filter (fun b => b_id b =? bot_id) bots with
        | [] => inr (HTTPException 404 "Bot not found")
        | [bot] =>
            match after_colon token with
            | None => inr IndexError
            | Some token_stripped =>
                match decrypt_data (b_token bot) with
                | None => inr InvalidTag
                | Some token_decrypted =>
                    if negb (String.eqb token_stripped token_decrypted)
                    then inr (HTTPException 404 "Bot not found")
                    else inl bot_id
                end
            end
        | _ => inr MultipleResultsFound
        end
    end.

End Tokens.

(** A bot and its token as the proxy gets it in the path. *)
Module Registered.

Definition secret : string := "AAHdqTcvCH1vGWJxfSeofSAs0K5PALDsaw0".

Definition bots : list Tokens.Bot :=
  [{| Tokens.b_id := 123456789; Tokens.b_token := "n0nce+c1phertext" |}].

(** Stands for the decryption: the stored bytes belong to [secret]. *)
Definition decrypt_data (data_bytes : string) : option string :=
  if String.eqb data_bytes "n0nce+c1phertext" then Some secret else None.

End Registered.

(** ** app/services/telegram/logger.py: log_chats, with its SELECT

    [log_chats] as the source has it for any dictionary: the rows it
    loads are those whose id is a key of the dictionary.  ([log_chats]
    above, which the dispatcher calls with every chat filed under its id,
    looks the chat up in the whole table; see [log_chats_by_id].) *)
Module Upsert.

Definition assign (c row : TelegramChat) : TelegramChat :=
  {| tc_id := tc_id row;
     tc_type := tc_type c;
     tc_title := tc_title c;
     tc_username := tc_username c;
     tc_first_name := tc_first_name c;
     tc_last_name := tc_last_name c;
     tc_is_forum := tc_is_forum c;
     tc_is_direct_messages := tc_is_direct_messages c;
     tc_personal_chat_id := tc_personal_chat_id row;
     tc_parent_chat_id := tc_parent_chat_id row;
     tc_pinned_message_id := tc_pinned_message_id row;
     tc_photo_small_id := tc_photo_small_id row;
     tc_photo_big_id := tc_photo_big_id row;
     tc_other_data := tc_other_data row |}.

(** One turn of the loop, [existing_chats] being the rows loaded. *)
Definition log_chat (existing_chats : list TelegramChat) (chat : TgChat)
  : M unit :=
  (let* c := lift (chat_values chat) in
   let* d := get_db in
   if existsb (fun row => tc_id row =? c_id chat) existing_chats then
     log_statement (UpdateChatRow (c_id chat)) ;;
     set_chats
       (List.map (fun row => if tc_id row =? c_id chat then assign c row
                             else row)
                 (telegram_chats d))
   else
     log_statement InsertChats ;;
     let* rows := required IntegrityError
                    (insert_rows tc_id (telegram_chats d) [c]) in
     set_chats rows)%work.

Definition log_chats (chats : list (Z * TgChat)) : M unit :=
  (log_statement SelectChat ;;
   let* d0 := get_db in
   let existing_chats :=
     List.filter (fun row => existsb (Z.eqb (tc_id row)) (List.map fst chats))
                 (telegram_chats d0) in
   for_each (fun kc => log_chat existing_chats (snd kc)) chats)%work.

(** The columns only the full information of a chat fills. *)
Definition full_info (row : TelegramChat) :=
  (tc_personal_chat_id row, tc_parent_chat_id row, tc_pinned_message_id row,
   tc_photo_small_id row, tc_photo_big_id row, tc_other_data row).

(** The columns [log_chats] assigns. *)
Definition basic (row : TelegramChat) :=
  (tc_type row, tc_title row, tc_username row, tc_first_name row,
   tc_last_name row, tc_is_forum row, tc_is_direct_messages row).

End Upsert.

(** A chat that is stored with its full information, and a dictionary
    that names it and a chat that is not stored. *)
Module Rooms.

Definition lobby : TelegramChat :=
  {| tc_id := 100; tc_type := SUPERGROUP; tc_title := Some "lobby";
     tc_username := Some "lobby_chat"; tc_first_name := None;
     tc_last_name := None; tc_is_forum := true;
     tc_is_direct_messages := false; tc_personal_chat_id := None;
     tc_parent_chat_id := Some 200; tc_pinned_message_id := Some 7;
     tc_photo_small_id := Some "AQADs"; tc_photo_big_id := Some "AQADb";
     tc_other_data := Some [("accent_color_id", JInt 3)] |}.

Definition store : db :=
  {| telegram_users := []; telegram_chats := [lobby];
     telegram_messages := []; telegram_files := []; bot_messages := [];
     bot_files := []; executed := [] |}.

Definition named : list (Z * TgChat) :=
  [(100, Sample.chat 100); (300, Sample.chat 300)].

End Rooms.
(** * Properties *)

(** ** The extractor's traversal *)

Section Walk.
Variable h : heap.

Lemma unseen_mono (seen seen' : gset oid) :
  seen ⊆ seen' -> (unseen h seen' <= unseen h seen)%nat.
Proof. intros Hs. unfold unseen. apply subseteq_size. set_solver. Qed.

Lemma unseen_enter (seen : gset oid) (o : oid) :
  o ∈ dom h -> o ∉ seen -> (unseen h ({[o]} ∪ seen) < unseen h seen)%nat.
Proof.
  intros Hd Hn. unfold unseen. apply subset_size. split; [set_solver|].
  intros Hsub. assert (o ∈ dom h ∖ ({[o]} ∪ seen)) by set_solver.
  set_solver.
Qed.

Lemma children_outside (o : oid) : o ∉ dom h -> children h o = [].
Proof.
  intros Hn. unfold children.
  apply not_elem_of_dom in Hn. by rewrite Hn.
Qed.

Lemma reachable_step (o c x : oid) :
  c ∈ children h o -> reachable h c x -> reachable h o x.
Proof.
  intros Hc Hr. induction Hr as [|y z Hy IHy Hz].
  - by apply (reachable_child h o o c); [constructor|].
  - by apply (reachable_child h o y z).
Qed.

Variable wanted : oid -> bool.

(** What a loop that ends guarantees. *)
Lemma extend_all_ok (f : gset oid -> oid -> option walked) :
  (forall seen o r, f seen o = Some r -> walk_ok h seen [o] r) ->
  forall values seen r,
    extend_all f seen values = Some r -> walk_ok h seen values r.
Proof.
  intros Hf values. induction values as [|v rest IH]; intros seen r; simpl.
  - intros [= <-]. repeat split; try set_solver. constructor.
  - destruct (f seen v) as [[[seen1 vis1] found1]|] eqn:E1; [|done].
    destruct (extend_all f seen1 rest) as [[[seen2 vis2] found2]|] eqn:E2;
      [|done].
    intros [= <-].
    destruct (Hf _ _ _ E1) as (-> & N1 & D1 & T1 & C1 & F1).
    destruct (IH _ _ E2) as (-> & N2 & D2 & T2 & C2 & F2).
    repeat split.
    + rewrite list_to_set_app_L. set_solver.
    + apply NoDup_app. repeat split; [done| |done].
      intros x Hx1 Hx2. apply D2 in Hx2. set_solver.
    + intros x Hx. apply elem_of_app in Hx as [Hx|Hx]; [by apply D1|].
      apply D2 in Hx. set_solver.
    + intros x Hx. apply elem_of_cons in Hx as [->|Hx]; [|by apply T2].
      specialize (T1 v). set_solver.
    + intros x c Hx Hc. apply elem_of_app in Hx as [Hx|Hx].
      * specialize (C1 x c Hx Hc). set_solver.
      * by apply (C2 x c).
    + intros x Hx. apply elem_of_app in Hx as [Hx|Hx]; [by apply F1|].
      by apply F2.
Qed.

(** What a call that returns guarantees, whatever fuel it had: no
    object was gone into twice, none that was seen before, no float, and
    every child of an object gone into has been seen. *)
Lemma walk_Some (n : nat) :
  forall seen o r, walk h wanted n seen o = Some r -> walk_ok h seen [o] r.
Proof.
  induction n as [|n IH]; intros seen o r; [done|]. simpl.
  destruct (decide (o ∈ seen)) as [Hin|Hout].
  - intros [= <-]. repeat split; try set_solver. constructor.
  - destruct (is_float h o) eqn:Ef; [done|].
    destruct (extend_all (walk h wanted n) _ _) as [[[seen' vis] found]|] eqn:E;
      [|done].
    intros [= <-].
    destruct (extend_all_ok _ IH _ _ _ E) as (-> & N & D & T & C & F).
    repeat split.
    + simpl. set_solver.
    + constructor; [|done]. intros Hx. apply D in Hx. set_solver.
    + intros x Hx. apply elem_of_cons in Hx as [->|Hx]; [done|].
      apply D in Hx. set_solver.
    + intros x Hx. set_solver.
    + intros x c Hx Hc. apply elem_of_cons in Hx as [->|Hx].
      * by apply T.
      * by apply (C x c).
    + intros x Hx. apply elem_of_cons in Hx as [->|Hx]; [done|]. by apply F.
Qed.

(** A loop that does not end has met a call that does not return. *)
Lemma extend_all_None (f : gset oid -> oid -> option walked) :
  (forall seen o r, f seen o = Some r -> walk_ok h seen [o] r) ->
  forall values seen,
    extend_all f seen values = None ->
    exists v seen1, v ∈ values /\ seen ⊆ seen1 /\ f seen1 v = None.
Proof.
  intros Hf values. induction values as [|v rest IH]; intros seen; [done|].
  simpl. destruct (f seen v) as [[[seen1 vis1] found1]|] eqn:E1.
  - destruct (extend_all f seen1 rest) as [[[seen2 vis2] found2]|] eqn:E2;
      [done|].
    intros _. destruct (IH _ E2) as (w & s & Hw & Hs & Hn).
    destruct (Hf _ _ _ E1) as (-> & _).
    exists w, s. split; [by right|]. split; [set_solver|done].
  - intros _. exists v, seen. split; [by left|]. by split.
Qed.

(** Termination: a call that has more fuel than there are unseen
    objects and does not return has come to a float. *)
Lemma walk_None (n : nat) :
  forall seen o, (unseen h seen < n)%nat ->
    walk h wanted n seen o = None ->
    exists f, reachable h o f /\ is_float h f = true.
Proof.
  induction n as [|n IH]; intros seen o Hlt; [lia|]. simpl.
  destruct (decide (o ∈ seen)) as [Hin|Hout]; [done|].
  destruct (is_float h o) eqn:Ef.
  - intros _. exists o. split; [constructor|done].
  - destruct (extend_all (walk h wanted n) _ _) as [[[seen' vis] found]|] eqn:E;
      [done|].
    intros _.
    destruct (extend_all_None _ (walk_Some n) _ _ E) as (v & s & Hv & Hs & Hn).
    destruct (decide (o ∈ dom h)) as [Hd|Hd];
      [|rewrite children_outside in Hv by done; by apply not_elem_of_nil in Hv].
    destruct (IH s v) as (f & Hr & Hf); [|done|].
    + pose proof (unseen_enter seen o Hd Hout).
      pose proof (unseen_mono _ _ Hs). lia.
    + exists f. split; [by apply (reachable_step o v)|done].
Qed.

Lemma extend_all_more (f g : gset oid -> oid -> option walked) :
  (forall seen o r, f seen o = Some r -> g seen o = Some r) ->
  forall values seen r,
    extend_all f seen values = Some r -> extend_all g seen values = Some r.
Proof.
  intros Hfg values. induction values as [|v rest IH]; intros seen r; [done|].
  simpl. destruct (f seen v) as [[[s1 v1] f1]|] eqn:E1; [|done].
  rewrite (Hfg _ _ _ E1).
  destruct (extend_all f s1 rest) as [[[s2 v2] f2]|] eqn:E2; [|done].
  by rewrite (IH _ _ E2).
Qed.

(** The result does not depend on how much spare fuel there is. *)
Lemma walk_more_fuel (n : nat) :
  forall m seen o r, (n <= m)%nat ->
    walk h wanted n seen o = Some r -> walk h wanted m seen o = Some r.
Proof.
  induction n as [|n IH]; intros m seen o r Hle; [done|].
  destruct m as [|m]; [lia|]. simpl.
  destruct (decide (o ∈ seen)); [done|].
  destruct (is_float h o); [done|].
  destruct (extend_all (walk h wanted n) _ _) as [[[s v] f]|] eqn:E; [|done].
  intros Hr.
  assert (Hm : forall s' o' r', walk h wanted n s' o' = Some r' ->
                                walk h wanted m s' o' = Some r').
  { intros s' o' r'. apply IH. lia. }
  by rewrite (extend_all_more _ _ Hm _ _ _ E).
Qed.

(** A call goes only into objects that can be reached from the one it
    was given. *)
Lemma walk_reaches (n : nat) :
  forall seen o seen' vis found,
    walk h wanted n seen o = Some (seen', vis, found) ->
    forall x, x ∈ vis -> reachable h o x.
Proof.
  assert (Hext : forall f : gset oid -> oid -> option walked,
             (forall seen o seen' vis found,
                 f seen o = Some (seen', vis, found) ->
                 forall x, x ∈ vis -> reachable h o x) ->
             forall values seen seen' vis found,
               extend_all f seen values = Some (seen', vis, found) ->
               forall x, x ∈ vis -> exists v, v ∈ values /\ reachable h v x).
  { intros f Hf values. induction values as [|v rest IH]; simpl.
    - intros seen seen' vis found [= _ <- _] x Hx.
      by apply not_elem_of_nil in Hx.
    - intros seen seen' vis found.
      destruct (f seen v) as [[[s1 v1] f1]|] eqn:E1; [|done].
      destruct (extend_all f s1 rest) as [[[s2 v2] f2]|] eqn:E2; [|done].
      intros [= _ <- _] x Hx. apply elem_of_app in Hx as [Hx|Hx].
      + exists v. split; [by left|]. by apply (Hf _ _ _ _ _ E1).
      + destruct (IH _ _ _ _ E2 x Hx) as (w & Hw & Hr).
        exists w. split; [by right|done]. }
  induction n as [|n IH]; [done|]. simpl. intros seen o seen' vis found.
  destruct (decide (o ∈ seen)).
  - intros [= _ <- _] x Hx. by apply not_elem_of_nil in Hx.
  - destruct (is_float h o); [done|].
    destruct (extend_all (walk h wanted n) _ _) as [[[s v] f]|] eqn:E; [|done].
    intros [= _ <- _] x Hx. apply elem_of_cons in Hx as [->|Hx].
    + constructor.
    + destruct (Hext _ IH _ _ _ _ _ E x Hx) as (c & Hc & Hr).
      by apply (reachable_step o c).
Qed.

(** A walk from scratch that returns has gone into everything that can
    be reached, each object once, and into no float. *)
Lemma walk_visits (n : nat) (obj : oid) (seen : gset oid)
    (vis found : list oid) :
  walk h wanted n ∅ obj = Some (seen, vis, found) ->
  NoDup vis
  /\ (forall x, x ∈ vis <-> reachable h obj x)
  /\ float_free h obj.
Proof.
  intros E. pose proof (walk_reaches _ _ _ _ _ _ E) as Hr.
  destruct (walk_Some _ _ _ _ E) as (-> & N & D & T & C & F).
  assert (Hall : forall x, reachable h obj x -> x ∈ vis).
  { intros x Hx. induction Hx as [|x c Hx IHx Hc].
    - specialize (T obj). set_solver.
    - specialize (C x c IHx Hc). set_solver. }
  split; [done|]. split.
  - intros x. split; [apply Hr|apply Hall].
  - intros x Hx. apply F. by apply Hall.
Qed.

(** When a float can be reached the walk does not return, whatever
    fuel it has. *)
Lemma walk_float (obj f : oid) :
  reachable h obj f -> is_float h f = true ->
  forall n, walk h wanted n ∅ obj = None.
Proof.
  intros Hr Hf n.
  destruct (walk h wanted n ∅ obj) as [[[seen vis] found]|] eqn:E; [|done].
  destruct (walk_visits _ _ _ _ _ E) as (_ & _ & F).
  specialize (F f Hr). congruence.
Qed.

(** When no float can be reached it returns, cycles or not, with any
    amount of fuel from [enough h] on and always with the same answer. *)
Lemma walk_returns (obj : oid) :
  float_free h obj ->
  exists seen vis found,
    forall fuel, (enough h <= fuel)%nat ->
      walk h wanted fuel ∅ obj = Some (seen, vis, found).
Proof.
  intros F.
  destruct (walk h wanted (enough h) ∅ obj) as [[[seen vis] found]|] eqn:E.
  - exists seen, vis, found. intros fuel Hle.
    by apply (walk_more_fuel (enough h)).
  - apply walk_None in E as (f & Hr & Hf).
    + specialize (F f Hr). congruence.
    + unfold unseen, enough. rewrite difference_empty_L, size_dom. lia.
Qed.

Lemma walk_found (n : nat) :
  forall seen o seen' vis found,
    walk h wanted n seen o = Some (seen', vis, found) ->
    found = List.filter wanted vis.
Proof.
  assert (Hext : forall f : gset oid -> oid -> option walked,
             (forall seen o seen' vis found,
                 f seen o = Some (seen', vis, found) ->
                 found = List.filter wanted vis) ->
             forall values seen seen' vis found,
               extend_all f seen values = Some (seen', vis, found) ->
               found = List.filter wanted vis).
  { intros f Hf values. induction values as [|v rest IH]; simpl.
    - intros seen seen' vis found [= _ <- <-]. done.
    - intros seen seen' vis found.
      destruct (f seen v) as [[[s1 v1] f1]|] eqn:E1; [|done].
      destruct (extend_all f s1 rest) as [[[s2 v2] f2]|] eqn:E2; [|done].
      intros [= _ <- <-]. rewrite List.filter_app.
      by rewrite (Hf _ _ _ _ _ E1), (IH _ _ _ _ E2). }
  induction n as [|n IH]; [done|]. simpl. intros seen o seen' vis found.
  destruct (decide (o ∈ seen)).
  - intros [= _ <- <-]. done.
  - destruct (is_float h o); [done|].
    destruct (extend_all (walk h wanted n) _ _) as [[[s v] f]|] eqn:E; [|done].
    intros [= _ <- <-]. simpl. rewrite (Hext _ IH _ _ _ _ _ E).
    by destruct (wanted o).
Qed.

(** The list a walk from scratch returns: the objects that can be
    reached and are wanted, each once. *)
Lemma walk_exact (n : nat) (obj : oid) (seen : gset oid)
    (vis found : list oid) :
  walk h wanted n ∅ obj = Some (seen, vis, found) ->
  NoDup found
  /\ forall o, o ∈ found <-> reachable h obj o /\ wanted o = true.
Proof.
  intros E. destruct (walk_visits _ _ _ _ _ E) as (N & R & _).
  rewrite (walk_found _ _ _ _ _ _ E). split.
  - apply NoDup_ListNoDup, List.NoDup_filter. by apply NoDup_ListNoDup.
  - intros o. rewrite list_elem_of_In, List.filter_In, <- list_elem_of_In.
    by rewrite R.
Qed.
End Walk.

(** The outcome of the two walkers in terms of what can be reached. *)
Lemma find_instances_Ok (h : heap) (obj : oid) (target : target_type)
    (found : list oid) :
  find_instances h obj target = Ok found ->
  float_free h obj
  /\ NoDup found
  /\ forall o, o ∈ found <-> reachable h obj o /\ isinstance h o target = true.
Proof.
  unfold find_instances, find_instances_from.
  destruct (walk _ _ _ _ _) as [[[seen vis] f]|] eqn:E; [|done].
  intros [= <-]. split; [by destruct (walk_visits _ _ _ _ _ _ _ E) as (_&_&F)|].
  by apply (walk_exact _ _ _ _ _ _ _ E).
Qed.

Lemma find_objects_with_attributes_Ok (h : heap) (obj : oid)
    (required_attrs : list string) (found : list oid) :
  find_objects_with_attributes h obj required_attrs = Ok found ->
  float_free h obj
  /\ NoDup found
  /\ forall o, o ∈ found
               <-> reachable h obj o
                   /\ forallb (hasattr h o) required_attrs = true.
Proof.
  unfold find_objects_with_attributes, find_objects_with_attributes_from.
  destruct (walk _ _ _ _ _) as [[[seen vis] f]|] eqn:E; [|done].
  intros [= <-]. split; [by destruct (walk_visits _ _ _ _ _ _ _ E) as (_&_&F)|].
  by apply (walk_exact _ _ _ _ _ _ _ E).
Qed.

Lemma find_instances_returns (h : heap) (obj : oid) (target : target_type) :
  float_free h obj -> exists found, find_instances h obj target = Ok found.
Proof.
  intros F.
  destruct (walk_returns h (fun o => isinstance h o target) obj F)
    as (seen & vis & found & E).
  exists found. unfold find_instances, find_instances_from.
  by rewrite (E (enough h)) by lia.
Qed.

Lemma find_objects_with_attributes_returns (h : heap) (obj : oid)
    (required_attrs : list string) :
  float_free h obj ->
  exists found, find_objects_with_attributes h obj required_attrs = Ok found.
Proof.
  intros F.
  destruct (walk_returns h (fun o => forallb (hasattr h o) required_attrs)
                         obj F)
    as (seen & vis & found & E).
  exists found.
  unfold find_objects_with_attributes, find_objects_with_attributes_from.
  by rewrite (E (enough h)) by lia.
Qed.

Lemma find_instances_raises (h : heap) (obj f : oid) (target : target_type) :
  reachable h obj f -> is_float h f = true ->
  find_instances h obj target = Err RecursionError.
Proof.
  intros Hr Hf. unfold find_instances, find_instances_from.
  by rewrite (walk_float h _ obj f Hr Hf).
Qed.

Lemma find_objects_with_attributes_raises (h : heap) (obj f : oid)
    (required_attrs : list string) :
  reachable h obj f -> is_float h f = true ->
  find_objects_with_attributes h obj required_attrs = Err RecursionError.
Proof.
  intros Hr Hf.
  unfold find_objects_with_attributes, find_objects_with_attributes_from.
  by rewrite (walk_float h _ obj f Hr Hf).
Qed.

(** Whether a float can be reached is decided by a walk. *)
Lemma float_free_dec (h : heap) (obj : oid) :
  float_free h obj \/ exists f, reachable h obj f /\ is_float h f = true.
Proof.
  destruct (walk h (fun _ => false) (enough h) ∅ obj)
    as [[[seen vis] found]|] eqn:E.
  - left. by destruct (walk_visits _ _ _ _ _ _ _ E) as (_ & _ & F).
  - right. apply walk_None in E; [done|].
    unfold unseen, enough. rewrite difference_empty_L, size_dom. lia.
Qed.


(** ** Deduplication *)

Section DeduplicateFacts.
Context {K V : Type} (eqb : K -> K -> bool) (key : V -> option K).
Hypothesis eqb_eq : forall a b, eqb a b = true <-> a = b.

Let step (unique : list (K * V)) (obj : V) :=
  match key obj with
  | None => unique
  | Some k => if has_key eqb unique k then unique else unique ++ [(k, obj)]
  end.

Lemma deduplicate_fold_keys (objects : list V) :
  forall acc,
    (forall k v, (k, v) ∈ acc -> key v = Some k) ->
    forall k v, (k, v) ∈ fold_left step objects acc -> key v = Some k.
Proof.
  induction objects as [|o rest IH]; intros acc Hacc k v; simpl; [apply Hacc|].
  apply IH. intros k' v' Hin. unfold step in Hin.
  destruct (key o) as [ko|] eqn:Eo; [|by apply Hacc].
  destruct (has_key eqb acc ko); [by apply Hacc|].
  apply elem_of_app in Hin as [Hin|Hin]; [by apply Hacc|].
  apply list_elem_of_singleton in Hin. by inversion Hin; subst.
Qed.

(** Every entry of the map is filed under the key its object shows. *)
Lemma deduplicate_keys (objects : list V) (k : K) (v : V) :
  (k, v) ∈ deduplicate eqb key objects -> key v = Some k.
Proof.
  apply (deduplicate_fold_keys objects []). intros ? ? Hin.
  by apply not_elem_of_nil in Hin.
Qed.

Lemma item_elem (unique : list (K * V)) (k : K) (v : V) :
  item eqb unique k = Some v -> (k, v) ∈ unique.
Proof.
  unfold item. destruct (List.find _ unique) as [[k' v']|] eqn:E; [|done].
  simpl. intros [= <-]. apply List.find_some in E as [Hin Hk].
  simpl in Hk. apply eqb_eq in Hk as ->. by apply list_elem_of_In.
Qed.

Lemma item_is_Some (unique : list (K * V)) (k : K) :
  k ∈ List.map fst unique -> exists v, item eqb unique k = Some v.
Proof.
  intros Hin. unfold item.
  destruct (List.find (fun kv => eqb (fst kv) k) unique) as [[k' v']|] eqn:E.
  - by exists v'.
  - apply list_elem_of_In, List.in_map_iff in Hin as ([k' v'] & Hk & Hin).
    simpl in Hk. subst k'.
    pose proof (List.find_none _ _ E _ Hin) as Hf. simpl in Hf.
    assert (eqb k k = true) by (by apply eqb_eq). congruence.
Qed.


End DeduplicateFacts.

Lemma pair_eqb_eq (a b : Z * Z) : pair_eqb a b = true <-> a = b.
Proof.
  destruct a as [a1 a2], b as [b1 b2]. unfold pair_eqb. simpl.
  rewrite andb_true_iff, !Z.eqb_eq. split; [intros [-> ->]|intros [= -> ->]]; done.
Qed.

Lemma string_eqb_eq (a b : string) : String.eqb a b = true <-> a = b.
Proof. apply String.eqb_eq. Qed.

(** ** The resolver as written *)


Lemma values_cte_ok (n : nat) (data : list tuple) :
  Forall (fun t => length t = n) data -> values_cte n data = Ok data.
Proof.
  intros H. unfold values_cte.
  replace (forallb _ data) with true; [done|].
  symmetry. apply forallb_forall. intros t Ht.
  rewrite Forall_forall in H. apply Nat.eqb_eq, H. by apply list_elem_of_In.
Qed.

Lemma values_cte_single {A} (f : A -> cell) (xs : list A) :
  values_cte 1 (non_empty_cte_data (List.map (fun x => [f x]) xs))
  = Ok (non_empty_cte_data (List.map (fun x => [f x]) xs)).
Proof.
  apply values_cte_ok. destruct xs as [|x xs]; simpl.
  - by repeat constructor.
  - constructor; [done|]. apply Forall_forall. intros t Ht.
    apply list_elem_of_In, List.in_map_iff in Ht as (y & <- & _). done.
Qed.


Lemma values_cte_messages (messages : list (Z * Z)) :
  values_cte 2 (non_empty_cte_data (List.map message_tuple messages))
  = if nonempty messages then Ok (List.map message_tuple messages)
    else Err ArgumentError.
Proof.
  destruct messages as [|m ms]; [done|]. simpl nonempty.
  change (non_empty_cte_data (List.map message_tuple (m :: ms)))
    with (List.map message_tuple (m :: ms)).
  apply values_cte_ok, Forall_forall. intros t Ht.
  apply list_elem_of_In, List.in_map_iff in Ht as ([a b] & <- & _). done.
Qed.


Lemma check_entities_outcome (chat_ids user_ids : list Z)
    (messages : list (Z * Z)) (file_ids : list string) (bot_id : Z) (d : db) :
  check_entities chat_ids user_ids messages file_ids bot_id d
  = if nonempty messages
    then Ok (check_rows d chat_ids user_ids messages file_ids,
             executes SelectEntities d)
    else Err ArgumentError.
Proof.
  unfold check_entities, bind, lift, log_statement, get_db, ret. simpl.
  rewrite (values_cte_single (fun x => Some (VInt x)) chat_ids).
  rewrite (values_cte_single (fun x => Some (VInt x)) user_ids).
  change (fun '(chat_id, msg_id) => [Some (VInt chat_id); Some (VInt msg_id)])
    with message_tuple.
  rewrite values_cte_messages.
  destruct (nonempty messages); [|done].
  by rewrite (values_cte_single (fun x => Some (VStr x)) file_ids).
Qed.

Lemma elem_of_product {A B} (xs : list A) (ys : list B) (x : A) (y : B) :
  (x, y) ∈ product xs ys <-> x ∈ xs /\ y ∈ ys.
Proof.
  unfold product. rewrite list_elem_of_In, List.in_flat_map. split.
  - intros (x' & Hx & Hin). apply List.in_map_iff in Hin as (y' & [= <- <-] & Hy).
    by rewrite !list_elem_of_In.
  - intros [Hx Hy]. exists x. rewrite <- list_elem_of_In. split; [done|].
    apply List.in_map. by apply list_elem_of_In.
Qed.

Lemma elem_of_non_empty_cte_data {A} (g : A -> tuple) (xs : list A) (c : tuple) :
  c ∈ non_empty_cte_data (List.map g xs) ->
  c = [None] \/ exists x, x ∈ xs /\ c = g x.
Proof.
  destruct xs as [|x xs]; simpl.
  - intros Hc. left. by apply list_elem_of_singleton in Hc.
  - intros Hc. right. change (g x :: List.map g xs) with (List.map g (x :: xs)) in Hc.
    apply list_elem_of_In, List.in_map_iff in Hc as (y & <- & Hy).
    exists y. by rewrite list_elem_of_In.
Qed.

Lemma batches_eta (b : batches) :
  {| new_users := new_users b; new_chats := new_chats b;
     new_messages := new_messages b; new_bot_messages := new_bot_messages b;
     new_files := new_files b; new_bot_files := new_bot_files b |} = b.
Proof. by destruct b. Qed.

Section Settled.
Variable e : entities.
Variable d : db.

Lemma chat_rows_settled (row : check_row) (b : batches) :
  row ∈ chat_query d
          (non_empty_cte_data
             (List.map (fun chat_id => [Some (VInt chat_id)])
                       (List.map fst (unique_chats e)))) ->
  log_object_row e b row = Ok b.
Proof.
  unfold chat_query. intros Hrow.
  apply list_elem_of_In, List.in_map_iff in Hrow as ([c tc] & <- & Hin).
  apply list_elem_of_In, elem_of_product in Hin as [Hc _].
  apply elem_of_non_empty_cte_data in Hc as [->|(k & Hk & ->)]; [done|].
  unfold log_object_row. simpl.
  destruct (k =? 0); [done|]. simpl.
  destruct (item_is_Some Z.eqb Z.eqb_eq _ _ Hk) as [v ->].
  by rewrite batches_eta.
Qed.

Lemma user_rows_settled (row : check_row) (b : batches) :
  row ∈ user_query d
          (non_empty_cte_data
             (List.map (fun user_id => [Some (VInt user_id)])
                       (List.map fst (unique_users e)))) ->
  log_object_row e b row = Ok b.
Proof.
  unfold user_query. intros Hrow.
  apply list_elem_of_In, List.in_map_iff in Hrow as ([c tu] & <- & Hin).
  apply list_elem_of_In, elem_of_product in Hin as [Hc _].
  apply elem_of_non_empty_cte_data in Hc as [->|(k & Hk & ->)]; [done|].
  unfold log_object_row. simpl.
  destruct (k =? 0); [done|]. simpl.
  destruct (item_is_Some Z.eqb Z.eqb_eq _ _ Hk) as [v ->].
  by rewrite batches_eta.
Qed.

Lemma msg_rows_settled (row : check_row) (b : batches) :
  row ∈ msg_query d (List.map message_tuple (List.map fst (unique_messages e))) ->
  log_object_row e b row = Ok b.
Proof.
  unfold msg_query. intros Hrow.
  apply list_elem_of_In, List.in_map_iff in Hrow as ([[c tm] bm] & <- & Hin).
  apply list_elem_of_In, elem_of_product in Hin as [Hin _].
  apply elem_of_product in Hin as [Hc _].
  apply list_elem_of_In, List.in_map_iff in Hc as ([k1 k2] & <- & Hk).
  apply list_elem_of_In in Hk.
  unfold log_object_row. simpl.
  destruct (negb (k1 =? 0) && negb (k2 =? 0)); [|done].
  destruct (item_is_Some pair_eqb pair_eqb_eq _ _ Hk) as [v ->].
  by rewrite batches_eta.
Qed.

Lemma file_rows_settled (row : check_row) (b : batches) :
  row ∈ file_query d
          (non_empty_cte_data
             (List.map (fun f => [Some (VStr f)])
                       (List.map fst (unique_files_json e)))) ->
  log_object_row e b row = Ok b.
Proof.
  unfold file_query. intros Hrow.
  apply list_elem_of_In, List.in_map_iff in Hrow as ([[c tf] bf] & <- & Hin).
  apply list_elem_of_In, elem_of_product in Hin as [Hin _].
  apply elem_of_product in Hin as [Hc _].
  apply elem_of_non_empty_cte_data in Hc as [->|(k & Hk & ->)]; [done|].
  unfold log_object_row. simpl.
  destruct (negb (String.eqb k "")); [|done].
  destruct (item_is_Some String.eqb string_eqb_eq _ _ Hk) as [v ->].
  by rewrite batches_eta.
Qed.

Lemma log_object_rows_settled (rows : list check_row) :
  (forall row b, row ∈ rows -> log_object_row e b row = Ok b) ->
  forall b, log_object_rows e b rows = Ok b.
Proof.
  induction rows as [|row rest IH]; intros Hrows b; [done|].
  simpl. rewrite Hrows by left. apply IH. intros r b' Hr. apply Hrows. by right.
Qed.
End Settled.

(** [collect_entities] returns exactly when the four walks do. *)
Lemma collect_entities_returns (h : heap) (object : oid) :
  float_free h object -> exists e, collect_entities h object = Ok e.
Proof.
  intros F. unfold collect_entities.
  destruct (find_instances_returns h object UpdateUser F) as (us & ->).
  destruct (find_instances_returns h object Chat F) as (cs & ->).
  destruct (find_instances_returns h object Message F) as (ms & ->).
  destruct (find_objects_with_attributes_returns
              h object ["file_unique_id"; "file_id"] F) as (fs & ->).
  simpl. eauto.
Qed.

Lemma collect_entities_raises (h : heap) (object f : oid) :
  reachable h object f -> is_float h f = true ->
  collect_entities h object = Err RecursionError.
Proof.
  intros Hr Hf. unfold collect_entities.
  by rewrite (find_instances_raises h object f UpdateUser Hr Hf).
Qed.

Lemma collect_entities_Ok (h : heap) (object : oid) (e : entities) :
  collect_entities h object = Ok e ->
  exists users chats messages files,
    find_instances h object UpdateUser = Ok users
    /\ find_instances h object Chat = Ok chats
    /\ find_instances h object Message = Ok messages
    /\ find_objects_with_attributes h object ["file_unique_id"; "file_id"]
       = Ok files
    /\ e = entities_of (omap (user_at h) users) (omap (chat_at h) chats)
                       (omap (message_at h) messages) (omap (file_at h) files).
Proof.
  unfold collect_entities.
  destruct (find_instances h object UpdateUser) as [us|]; [|done].
  destruct (find_instances h object Chat) as [cs|]; [|done].
  destruct (find_instances h object Message) as [ms|]; [|done].
  destruct (find_objects_with_attributes _ _ _) as [fs|]; [|done].
  simpl. intros [= <-]. by exists us, cs, ms, fs.
Qed.

(** What [log_object] does, whatever the payload and the store: what
    the walk raises is raised; with no message in the payload the
    statement is refused; otherwise the query runs, every row it returns
    says "exists" and "associated", and nothing is inserted. *)
Lemma log_object_outcome (h : heap) (object : oid) (bot_id : Z) (d : db) :
  log_object h object bot_id d
  = match collect_entities h object with
    | Ok e =>
        if nonempty (unique_messages e)
        then Ok ((false, false, false, false, false, false),
                 executes SelectEntities d)
        else Err ArgumentError
    | Err e => Err e
    end.
Proof.
  unfold log_object, log_object_with.
  unfold bind at 1, lift at 1.
  destruct (collect_entities h object) as [e|]; [|done].
  unfold bind at 1. rewrite check_entities_outcome.
  replace (nonempty (List.map fst (unique_messages e)))
    with (nonempty (unique_messages e)) by (by destruct (unique_messages e)).
  destruct (nonempty (unique_messages e)); [|done].
  unfold log_object_apply, bind at 1, lift.
  rewrite (log_object_rows_settled e).
  - done.
  - intros row b Hrow. unfold check_rows in Hrow.
    rewrite !elem_of_app in Hrow.
    destruct Hrow as [H|[H|[H|H]]].
    + by eapply chat_rows_settled.
    + by eapply user_rows_settled.
    + by eapply msg_rows_settled.
    + by eapply file_rows_settled.
Qed.

(** ** The resolver against its contract *)

Lemma check_entities_never_reports_new (chat_ids user_ids : list Z)
    (messages : list (Z * Z)) (file_ids : list string) (bot_id : Z) :
  never_reports_new (check_entities chat_ids user_ids messages file_ids bot_id).
Proof.
  intros d rows d'. rewrite check_entities_outcome.
  destruct (nonempty messages); [|done]. intros [= <- <-] r.
  unfold check_rows, chat_query, user_query, msg_query, file_query.
  rewrite !elem_of_app. intros [H|[H|[H|H]]];
    apply list_elem_of_In, List.in_map_iff in H as (x & <- & _).
  - right. by destruct x.
  - right. by destruct x.
  - left. by destruct x as [[? ?] ?].
  - left. by destruct x as [[? ?] ?].
Qed.

(** C1 (the code departs from the claim).  Whatever it is asked, the
    resolver never reports a key as new or as not linked.  In the example
    of the design document chats 100 and 200 are stored, users 1, 2 and 3
    are not, and of messages 1 to 5 of chat 100 only the first is stored
    and linked to bot 9.  One statement is executed, but it returns nine
    rows where the contract has ten: each chat key is paired with both
    stored chats, the three new users have no row at all, and every
    message key is reported as stored and linked. *)
Theorem check_entities_joins_nothing :
  (forall chat_ids user_ids messages file_ids bot_id,
      never_reports_new
        (check_entities chat_ids user_ids messages file_ids bot_id))
  /\
  let messages := [(100, 1); (100, 2); (100, 3); (100, 4); (100, 5)] in
  exists rows,
    check_entities [100; 200] [1; 2; 3] messages [] 9 Sample.store
    = Ok (rows, executes SelectEntities Sample.store)
    /\ executed (executes SelectEntities Sample.store) = [SelectEntities]
    /\ length rows = 9%nat
    /\ length (Contract.check_entities Sample.store [100; 200] [1; 2; 3]
                                       messages [] 9) = 10%nat
    /\ List.map (fun r => (cr_type r, cr_chat_id r, cr_user_id r,
                           cr_message_id r, cr_exists r, cr_bot_relation r))
                rows
       = [ (1, Some 100, None, None, true, None);
           (1, Some 100, None, None, true, None);
           (1, Some 200, None, None, true, None);
           (1, Some 200, None, None, true, None);
           (3, Some 100, None, Some 1, true, Some true);
           (3, Some 100, None, Some 2, true, Some true);
           (3, Some 100, None, Some 3, true, Some true);
           (3, Some 100, None, Some 4, true, Some true);
           (3, Some 100, None, Some 5, true, Some true) ]
    /\ List.map (fun r => (cr_type r, cr_chat_id r, cr_user_id r,
                           cr_message_id r, cr_exists r, cr_bot_relation r))
                (Contract.check_entities Sample.store [100; 200] [1; 2; 3]
                                         messages [] 9)
       = [ (1, Some 100, None, None, true, None);
           (1, Some 200, None, None, true, None);
           (2, None, Some 1, None, false, None);
           (2, None, Some 2, None, false, None);
           (2, None, Some 3, None, false, None);
           (3, Some 100, None, Some 1, true, Some true);
           (3, Some 100, None, Some 2, false, Some false);
           (3, Some 100, None, Some 3, false, Some false);
           (3, Some 100, None, Some 4, false, Some false);
           (3, Some 100, None, Some 5, false, Some false) ].
Proof.
  split; [intros; apply check_entities_never_reports_new|].
  intros messages. eexists. split; [vm_compute; reflexivity|].
  repeat split; vm_compute; reflexivity.
Qed.

(** ** Re-sighting *)

(** The stored rows survive every call of [log_object]: none is
    changed, removed or doubled, because nothing at all is written. *)
Lemma log_object_writes_nothing (h : heap) (object : oid) (bot_id : Z)
    (d d' : db) (res : flags) :
  log_object h object bot_id d = Ok (res, d') ->
  tables d' = tables d
  /\ res = (false, false, false, false, false, false)
  /\ executed d' = executed d ++ [SelectEntities].
Proof.
  rewrite log_object_outcome.
  destruct (collect_entities h object) as [e|]; [|done].
  destruct (nonempty _); [|done]. by intros [= <- <-].
Qed.

(** C2 (the code departs from the claim).  No call of [log_object]
    adds a message row or a link.  Message (1, 50) is stored and linked to
    bot 8 only; when bot 9 sees it for the first time the call returns,
    finds nothing to do, and leaves the link table as it was, without the
    row (9, 1, 50) the claim asks for. *)
Theorem first_sighting_by_another_bot_links_nothing :
  (forall h object bot_id, keeps_messages (log_object h object bot_id))
  /\
  let '(h, object) := messages_heap [Sample.message 1 50 "hello" None] in
  Contract.stored_message Sample.copy_store (1, 50) = true
  /\ Contract.linked_message Sample.copy_store 9 (1, 50) = false
  /\ exists d',
      log_object h object 9 Sample.copy_store
      = Ok ((false, false, false, false, false, false), d')
      /\ telegram_messages d' = [Sample.message_row 1 50]
      /\ bot_messages d' = [Sample.link 8 1 50].
Proof.
  split.
  { intros h object bot_id d res d' H.
    apply log_object_writes_nothing in H as (Ht & _).
    unfold tables in Ht. by inversion Ht. }
  simpl. split; [done|]. split; [done|].
  eexists. rewrite log_object_outcome. split; [vm_compute; reflexivity|].
  by split.
Qed.

(** ** Copies *)

(** C5 (the code departs from the claim).  A [copyMessage] request
    that carries [reply_markup] or [show_caption_above_media] binds the
    whole cloned dictionary to the value of that parameter; decoding it as
    a message fails and the copy is lost.  The same request with a new
    caption instead stores the copy with that caption. *)
Theorem copy_message_markup_replaces_the_clone :
  let data := JDict [("message_id", JInt 99)] in
  log_telegram_request Sample.offline
    (Sample.copy_request ++ [("reply_markup", Sample.reply_markup)])
    data "copyMessage" 9 Sample.copy_store
  = Err TypeError
  /\ log_telegram_request Sample.offline
       (Sample.copy_request ++ [("show_caption_above_media", JBool true)])
       data "copyMessage" 9 Sample.copy_store
     = Err AttributeError
  /\ tables (proxy_request_log Sample.offline
               (Sample.copy_request ++ [("reply_markup", Sample.reply_markup)])
               data "copyMessage" 9 Sample.copy_store)
     = tables Sample.copy_store
  /\ exists d',
      log_telegram_request Sample.offline
        (Sample.copy_request ++ [("caption", JStr "fresh")])
        data "copyMessage" 9 Sample.copy_store
      = Ok (tt, d')
      /\ List.map (fun r => (tm_chat_id r, tm_id r, tm_caption r))
                  (telegram_messages d')
         = [(1, 50, Some "hello"); (2, 99, Some "fresh")]
      /\ bot_messages d' = [Sample.link 8 1 50; Sample.link 9 2 99].
Proof.
  intros data. split; [vm_compute; reflexivity|].
  split; [vm_compute; reflexivity|].
  split; [vm_compute; reflexivity|].
  eexists. split; [vm_compute; reflexivity|]. by split.
Qed.

(** ** Edited messages *)








(** ** Floats in the payload *)

Lemma live_location_reaches_float (m : TgMessage) :
  reachable (Sample.live_location m) 1%positive 5%positive
  /\ is_float (Sample.live_location m) 5%positive = true.
Proof.
  split; [|reflexivity].
  apply (reachable_child _ _ 4%positive);
    [|apply list_elem_of_In; vm_compute; tauto].
  apply (reachable_child _ _ 2%positive);
    [|apply list_elem_of_In; vm_compute; tauto].
  apply (reachable_child _ _ 1%positive);
    [|apply list_elem_of_In; vm_compute; tauto].
  constructor.
Qed.

(** A walker that raises takes [log_object] and the handler of the
    webhook with it: nothing is asked, written or edited. *)
Lemma log_object_raises (h : heap) (object f : oid) (bot_id : Z) (d : db) :
  reachable h object f -> is_float h f = true ->
  log_object h object bot_id d = Err RecursionError
  /\ handle_update h object bot_id d = d.
Proof.
  intros Hr Hf.
  assert (H : log_object h object bot_id d = Err RecursionError)
    by (by rewrite log_object_outcome, (collect_entities_raises h object f)).
  split; [done|].
  unfold handle_update, handle_update_try, bind. by rewrite H.
Qed.

(** C9 (the code departs from the claim).  The walk does not return on
    every payload.  When a float can be reached from the root, neither
    walker returns, whatever depth of recursion is allowed: both end in
    [RecursionError].  An update with an edited live location is such a
    payload; [log_object] raises on it, the handler of the webhook catches
    the error, and the update leaves no trace.  Where no float can be
    reached the claim holds: both walkers return, cycles or not, with any
    fuel from [enough h] on, and go into the objects that can be reached,
    each once, by identity. *)
Theorem traversal_of_a_float_never_returns :
  (forall h obj f target required_attrs,
      reachable h obj f -> is_float h f = true ->
      (forall fuel,
          find_instances_from h target fuel ∅ obj = None
          /\ find_objects_with_attributes_from h required_attrs fuel ∅ obj
             = None)
      /\ find_instances h obj target = Err RecursionError
      /\ find_objects_with_attributes h obj required_attrs
         = Err RecursionError)
  /\ (let h := Sample.live_location
                (Sample.message 100 1 "moving" (Some 1700000900)) in
      reachable h 1%positive 5%positive
      /\ is_float h 5%positive = true
      /\ forall bot_id d,
          log_object h 1%positive bot_id d = Err RecursionError
          /\ handle_update h 1%positive bot_id d = d)
  /\ (forall h obj target required_attrs,
        float_free h obj ->
        (exists seen vis found,
            (forall fuel, (enough h <= fuel)%nat ->
               find_instances_from h target fuel ∅ obj
               = Some (seen, vis, found))
            /\ find_instances h obj target = Ok found
            /\ NoDup vis
            /\ (forall x, x ∈ vis <-> reachable h obj x))
        /\ (exists seen vis found,
              (forall fuel, (enough h <= fuel)%nat ->
                 find_objects_with_attributes_from h required_attrs fuel ∅ obj
                 = Some (seen, vis, found))
              /\ find_objects_with_attributes h obj required_attrs = Ok found
              /\ NoDup vis
              /\ (forall x, x ∈ vis <-> reachable h obj x))).
Proof.
  split; [|split].
  - intros h obj f target required_attrs Hr Hf. split; [|split].
    + intros fuel. unfold find_instances_from,
        find_objects_with_attributes_from.
      by rewrite !(walk_float h _ obj f Hr Hf).
    + by apply (find_instances_raises h obj f).
    + by apply (find_objects_with_attributes_raises h obj f).
  - intros h. destruct (live_location_reaches_float
                          (Sample.message 100 1 "moving" (Some 1700000900)))
      as [Hr Hf].
    split; [done|]. split; [done|].
    intros bot_id d. by apply (log_object_raises h 1%positive 5%positive).
  - intros h obj target required_attrs F. split.
    + destruct (walk_returns h (fun o => isinstance h o target) obj F)
        as (seen & vis & found & E).
      exists seen, vis, found. split; [exact E|].
      pose proof (E (enough h) (Nat.le_refl _)) as E0.
      destruct (walk_visits _ _ _ _ _ _ _ E0) as (N & R & _).
      unfold find_instances, find_instances_from. by rewrite E0.
    + destruct (walk_returns h
                  (fun o => forallb (hasattr h o) required_attrs) obj F)
        as (seen & vis & found & E).
      exists seen, vis, found. split; [exact E|].
      pose proof (E (enough h) (Nat.le_refl _)) as E0.
      destruct (walk_visits _ _ _ _ _ _ _ E0) as (N & R & _).
      unfold find_objects_with_attributes,
        find_objects_with_attributes_from. by rewrite E0.
Qed.

(** ** Empty key sets *)

Lemma chat_query_row (d : db) (cte : list tuple) (r : check_row) :
  r ∈ chat_query d cte ->
  cr_type r = EntityCheckResultType.CHAT
  /\ exists c, c ∈ cte /\ cr_chat_id r = as_BigInteger (column c 0).
Proof.
  unfold chat_query. intros Hr.
  apply list_elem_of_In, List.in_map_iff in Hr as ([c tc] & <- & Hin).
  apply list_elem_of_In, elem_of_product in Hin as [Hc _].
  split; [done|]. by exists c.
Qed.

Lemma user_query_row (d : db) (cte : list tuple) (r : check_row) :
  r ∈ user_query d cte ->
  cr_type r = EntityCheckResultType.USER
  /\ exists c, c ∈ cte /\ cr_user_id r = as_BigInteger (column c 0).
Proof.
  unfold user_query. intros Hr.
  apply list_elem_of_In, List.in_map_iff in Hr as ([c tu] & <- & Hin).
  apply list_elem_of_In, elem_of_product in Hin as [Hc _].
  split; [done|]. by exists c.
Qed.

Lemma msg_query_row (d : db) (cte : list tuple) (r : check_row) :
  r ∈ msg_query d cte ->
  cr_type r = EntityCheckResultType.MESSAGE
  /\ exists c, c ∈ cte /\ cr_chat_id r = as_BigInteger (column c 0)
               /\ cr_message_id r = as_BigInteger (column c 1).
Proof.
  unfold msg_query. intros Hr.
  apply list_elem_of_In, List.in_map_iff in Hr as ([[c tm] bm] & <- & Hin).
  apply list_elem_of_In, elem_of_product in Hin as [Hin _].
  apply elem_of_product in Hin as [Hc _].
  split; [done|]. by exists c.
Qed.

Lemma file_query_row (d : db) (cte : list tuple) (r : check_row) :
  r ∈ file_query d cte ->
  cr_type r = EntityCheckResultType.FILE
  /\ exists c, c ∈ cte /\ cr_file_unique_id r = as_String (column c 0).
Proof.
  unfold file_query. intros Hr.
  apply list_elem_of_In, List.in_map_iff in Hr as ([[c tf] bf] & <- & Hin).
  apply list_elem_of_In, elem_of_product in Hin as [Hin _].
  apply elem_of_product in Hin as [Hc _].
  split; [done|]. by exists c.
Qed.

(** What a row of the answer can be: its kind and, unless the key is
    NULL, a key that was passed in. *)
Lemma check_rows_row (d : db) (chat_ids user_ids : list Z)
    (messages : list (Z * Z)) (file_ids : list string) (r : check_row) :
  r ∈ check_rows d chat_ids user_ids messages file_ids ->
  (cr_type r = EntityCheckResultType.CHAT
   /\ (cr_chat_id r = None \/ exists k, k ∈ chat_ids /\ cr_chat_id r = Some k))
  \/ (cr_type r = EntityCheckResultType.USER
      /\ (cr_user_id r = None \/ exists k, k ∈ user_ids /\ cr_user_id r = Some k))
  \/ (cr_type r = EntityCheckResultType.MESSAGE
      /\ exists c m, (c, m) ∈ messages
                     /\ cr_chat_id r = Some c /\ cr_message_id r = Some m)
  \/ (cr_type r = EntityCheckResultType.FILE
      /\ (cr_file_unique_id r = None
          \/ exists k, k ∈ file_ids /\ cr_file_unique_id r = Some k)).
Proof.
  unfold check_rows. rewrite !elem_of_app. intros [H|[H|[H|H]]].
  - left. apply chat_query_row in H as [Ht (c & Hc & Hk)]. split; [done|].
    apply elem_of_non_empty_cte_data in Hc as [->|(k & Hin & ->)]; [by left|].
    right. by exists k.
  - right; left. apply user_query_row in H as [Ht (c & Hc & Hk)]. split; [done|].
    apply elem_of_non_empty_cte_data in Hc as [->|(k & Hin & ->)]; [by left|].
    right. by exists k.
  - right; right; left. apply msg_query_row in H as [Ht (c & Hc & Hk & Hm)].
    split; [done|].
    apply list_elem_of_In, List.in_map_iff in Hc as ([a b] & <- & Hin).
    exists a, b. by rewrite <- list_elem_of_In in Hin.
  - right; right; right. apply file_query_row in H as [Ht (c & Hc & Hk)].
    split; [done|].
    apply elem_of_non_empty_cte_data in Hc as [->|(k & Hin & ->)]; [by left|].
    right. by exists k.
Qed.

(** A row whose key is falsy is passed over by the loop of
    [log_object], without an error. *)
Lemma log_object_row_falsy_key (e : entities) (b : batches) (r : check_row) :
  (cr_type r = EntityCheckResultType.CHAT -> truthy_int (cr_chat_id r) = false) ->
  (cr_type r = EntityCheckResultType.USER -> truthy_int (cr_user_id r) = false) ->
  (cr_type r = EntityCheckResultType.MESSAGE ->
     truthy_int (cr_chat_id r) && truthy_int (cr_message_id r) = false) ->
  (cr_type r = EntityCheckResultType.FILE ->
     truthy_str (cr_file_unique_id r) = false) ->
  log_object_row e b r = Ok b.
Proof.
  intros Hc Hu Hm Hf. unfold log_object_row.
  destruct (cr_type r =? EntityCheckResultType.USER) eqn:E1.
  { apply Z.eqb_eq in E1. specialize (Hu E1).
    destruct (cr_user_id r); [|done]. by rewrite Hu. }
  destruct (cr_type r =? EntityCheckResultType.CHAT) eqn:E2.
  { apply Z.eqb_eq in E2. specialize (Hc E2).
    destruct (cr_chat_id r); [|done]. by rewrite Hc. }
  destruct (cr_type r =? EntityCheckResultType.MESSAGE) eqn:E3.
  { apply Z.eqb_eq in E3. specialize (Hm E3).
    destruct (cr_chat_id r); [|done]. destruct (cr_message_id r); [|done].
    by rewrite Hm. }
  destruct (cr_type r =? EntityCheckResultType.FILE) eqn:E4; [|done].
  apply Z.eqb_eq in E4. specialize (Hf E4).
  destruct (cr_file_unique_id r); [|done]. by rewrite Hf.
Qed.

Lemma log_object_row_null_key (e : entities) (b : batches) (r : check_row) :
  (cr_type r = EntityCheckResultType.CHAT -> cr_chat_id r = None) ->
  (cr_type r = EntityCheckResultType.USER -> cr_user_id r = None) ->
  (cr_type r = EntityCheckResultType.MESSAGE ->
     cr_chat_id r = None \/ cr_message_id r = None) ->
  (cr_type r = EntityCheckResultType.FILE -> cr_file_unique_id r = None) ->
  log_object_row e b r = Ok b.
Proof.
  intros Hc Hu Hm Hf. apply log_object_row_falsy_key.
  - intros H. by rewrite (Hc H).
  - intros H. by rewrite (Hu H).
  - intros H. destruct (Hm H) as [-> | ->]; [done|]. apply andb_false_r.
  - intros H. by rewrite (Hf H).
Qed.

(** C7 (as amended).  With at least one message key the statement is
    executed whatever other key sets are empty.  An empty set of chat,
    user or file keys is replaced by one placeholder tuple, so the answer
    may hold rows of that kind, but each of them has a NULL key; every
    key the answer names was passed in; and the loop of [log_object]
    passes over the rows without a key. *)
Theorem empty_kind_yields_only_null_keys (chat_ids user_ids : list Z)
    (messages : list (Z * Z)) (file_ids : list string) (bot_id : Z) (d : db) :
  messages <> [] ->
  exists rows,
    check_entities chat_ids user_ids messages file_ids bot_id d
    = Ok (rows, executes SelectEntities d)
    /\ (chat_ids = [] -> forall r, r ∈ rows ->
          cr_type r = EntityCheckResultType.CHAT -> cr_chat_id r = None)
    /\ (user_ids = [] -> forall r, r ∈ rows ->
          cr_type r = EntityCheckResultType.USER -> cr_user_id r = None)
    /\ (file_ids = [] -> forall r, r ∈ rows ->
          cr_type r = EntityCheckResultType.FILE ->
          cr_file_unique_id r = None)
    /\ (forall r k, r ∈ rows -> cr_type r = EntityCheckResultType.CHAT ->
          cr_chat_id r = Some k -> k ∈ chat_ids)
    /\ (forall r k, r ∈ rows -> cr_type r = EntityCheckResultType.USER ->
          cr_user_id r = Some k -> k ∈ user_ids)
    /\ (forall r, r ∈ rows -> cr_type r = EntityCheckResultType.MESSAGE ->
          exists c m, (c, m) ∈ messages
                      /\ cr_chat_id r = Some c /\ cr_message_id r = Some m)
    /\ (forall r k, r ∈ rows -> cr_type r = EntityCheckResultType.FILE ->
          cr_file_unique_id r = Some k -> k ∈ file_ids)
    /\ (forall e b r, r ∈ rows ->
          (cr_type r = EntityCheckResultType.CHAT -> cr_chat_id r = None) ->
          (cr_type r = EntityCheckResultType.USER -> cr_user_id r = None) ->
          (cr_type r = EntityCheckResultType.FILE ->
             cr_file_unique_id r = None) ->
          cr_type r <> EntityCheckResultType.MESSAGE ->
          log_object_row e b r = Ok b).
Proof.
  intros Hne. exists (check_rows d chat_ids user_ids messages file_ids).
  split.
  { rewrite check_entities_outcome. by destruct messages. }
  assert (Hkind : forall r, r ∈ check_rows d chat_ids user_ids messages file_ids ->
            _) by (intros r; apply check_rows_row).
  unfold EntityCheckResultType.CHAT, EntityCheckResultType.USER,
    EntityCheckResultType.MESSAGE, EntityCheckResultType.FILE in *.
  repeat split.
  - intros -> r Hr Ht.
    destruct (Hkind r Hr) as [[_ [H|(k & Hk & _)]]|[[H _]|[[H _]|[H _]]]];
      try done; try congruence. by apply not_elem_of_nil in Hk.
  - intros -> r Hr Ht.
    destruct (Hkind r Hr) as [[H _]|[[_ [H|(k & Hk & _)]]|[[H _]|[H _]]]];
      try done; try congruence. by apply not_elem_of_nil in Hk.
  - intros -> r Hr Ht.
    destruct (Hkind r Hr) as [[H _]|[[H _]|[[H _]|[_ [H|(k & Hk & _)]]]]];
      try done; try congruence. by apply not_elem_of_nil in Hk.
  - intros r k Hr Ht Hk.
    destruct (Hkind r Hr) as [[_ [H|(k' & Hk' & H)]]|[[H _]|[[H _]|[H _]]]];
      congruence.
  - intros r k Hr Ht Hk.
    destruct (Hkind r Hr) as [[H _]|[[_ [H|(k' & Hk' & H)]]|[[H _]|[H _]]]];
      congruence.
  - intros r Hr Ht.
    destruct (Hkind r Hr) as [[H _]|[[H _]|[[_ H]|[H _]]]];
      congruence || done.
  - intros r k Hr Ht Hk.
    destruct (Hkind r Hr) as [[H _]|[[H _]|[[H _]|[_ [H|(k' & Hk' & H)]]]]];
      congruence.
  - intros e b r _ Hc Hu Hf Hm. apply log_object_row_null_key; try done.
Qed.

(** Chat 100 and message (100, 1) are asked about, no user and no
    file. *)
Lemma empty_kind_yields_only_null_keys_witness :
  [(100, 1)] <> ([] : list (Z * Z))
  /\ exists rows,
      check_entities [100] [] [(100, 1)] [] 9 Sample.user_store
      = Ok (rows, executes SelectEntities Sample.user_store)
      /\ (forall r, r ∈ rows ->
            cr_type r = EntityCheckResultType.USER -> cr_user_id r = None).
Proof.
  split; [discriminate|].
  destruct (empty_kind_yields_only_null_keys [100] [] [(100, 1)] [] 9
              Sample.user_store) as (rows & Hrun & _ & Husers & _).
  - discriminate.
  - exists rows. split; [exact Hrun|]. exact (Husers eq_refl).
Defined.

(** C7 (the claim as stated fails).  No user key is passed and one
    user is stored: the answer has a row of kind USER all the same, with a
    NULL key and flagged as existing. *)
Lemma empty_kind_contributes_a_row :
  exists rows d',
    check_entities [100] [] [(100, 1)] [] 9 Sample.user_store = Ok (rows, d')
    /\ List.filter (fun r => cr_type r =? EntityCheckResultType.USER) rows
       = [ {| cr_chat_id := None; cr_user_id := None; cr_message_id := None;
              cr_file_unique_id := None; cr_exists := true;
              cr_bot_relation := None;
              cr_type := EntityCheckResultType.USER |} ].
Proof. do 2 eexists. split; vm_compute; reflexivity. Qed.

(** ** Dictionaries *)

Lemma dlookup_dset_ne (d : jdict) (k k' : string) (v : json) :
  k <> k' -> dlookup (dset d k v) k' = dlookup d k'.
Proof.
  intros Hne. induction d as [|[k0 v0] d IH]; simpl.
  - destruct (String.eqb k k') eqn:E; [|done]. by apply String.eqb_eq in E.
  - destruct (String.eqb k0 k) eqn:E0; simpl.
    + apply String.eqb_eq in E0 as ->.
      destruct (String.eqb k k') eqn:E; [|done]. by apply String.eqb_eq in E.
    + by rewrite IH.
Qed.

Lemma dlookup_dset_eq (d : jdict) (k : string) (v : json) :
  dlookup (dset d k v) k = Some v.
Proof.
  induction d as [|[k0 v0] d IH]; simpl.
  - by rewrite String.eqb_refl.
  - destruct (String.eqb k0 k) eqn:E0; simpl.
    + by rewrite String.eqb_refl.
    + by rewrite E0.
Qed.

Lemma dlookup_ddel_eq (d : jdict) (k : string) :
  dlookup (ddel d k) k = None.
Proof.
  induction d as [|[k0 v0] d IH]; simpl; [done|].
  destruct (String.eqb k0 k) eqn:E0; simpl; [done|]. by rewrite E0.
Qed.

Lemma dlookup_ddel_ne (d : jdict) (k k' : string) :
  k <> k' -> dlookup (ddel d k) k' = dlookup d k'.
Proof.
  intros Hne. induction d as [|[k0 v0] d IH]; simpl; [done|].
  destruct (String.eqb k0 k) eqn:E0; simpl.
  - apply String.eqb_eq in E0 as ->.
    destruct (String.eqb k k') eqn:E; [|done]. by apply String.eqb_eq in E.
  - by rewrite IH.
Qed.

(** ** Falsy keys *)

Lemma entities_of_keyed (users : list TgUser) (chats : list TgChat)
    (messages : list TgMessage) (files : list TgFile) :
  keyed (entities_of users chats messages files).
Proof.
  unfold keyed. simpl. repeat split.
  - intros k u Hin. apply (deduplicate_keys Z.eqb) in Hin. by inversion Hin.
  - intros k c Hin. apply (deduplicate_keys Z.eqb) in Hin. by inversion Hin.
  - intros k m Hin. apply (deduplicate_keys pair_eqb) in Hin. by inversion Hin.
  - intros k f Hin. apply list_elem_of_omap in Hin as ([k' file] & Hin & Hf).
    apply (deduplicate_keys String.eqb) in Hin.
    destruct (get_file_type file); [|done].
    destruct (is_TelegramObject file); [|done].
    inversion Hf; subst. rewrite dlookup_dset_ne by done.
    unfold f_file_unique_id in Hin.
    destruct (dlookup (f_dict file) "file_unique_id") as [[]|]; try done.
    by inversion Hin.
Qed.

Lemma collect_entities_keyed (h : heap) (object : oid) (e : entities) :
  collect_entities h object = Ok e -> keyed e.
Proof.
  intros He. apply collect_entities_Ok in He as (us & cs & ms & fs & H).
  destruct H as (_ & _ & _ & _ & ->). apply entities_of_keyed.
Qed.

Lemma truthy_int_Some (k : Z) : truthy_int (Some k) = true -> k <> 0.
Proof. simpl. intros H ->. done. Qed.

Lemma truthy_str_Some (k : string) : truthy_str (Some k) = true -> k <> "".
Proof. simpl. intros H ->. done. Qed.

Lemma log_object_row_truthy (e : entities) (b b' : batches) (row : check_row) :
  keyed e -> truthy_batches b ->
  log_object_row e b row = Ok b' -> truthy_batches b'.
Proof.
  intros (Ku & Kc & Km & Kf) (Tu & Tc & Tm & Tbm & Tf & Tbf).
  unfold log_object_row.
  destruct (cr_type row =? EntityCheckResultType.USER).
  { destruct (cr_user_id row) as [k|]; [|by intros [= <-]].
    destruct (truthy_int (Some k)) eqn:Ek; [|by intros [= <-]].
    destruct (item Z.eqb (unique_users e) k) as [u|] eqn:Ei; [|done].
    intros [= <-]. repeat split; simpl; try done.
    destruct (negb (cr_exists row)); [|done].
    apply Forall_app. split; [done|]. constructor; [|done].
    apply (item_elem Z.eqb Z.eqb_eq) in Ei. rewrite (Ku _ _ Ei).
    by apply truthy_int_Some. }
  destruct (cr_type row =? EntityCheckResultType.CHAT).
  { destruct (cr_chat_id row) as [k|]; [|by intros [= <-]].
    destruct (truthy_int (Some k)) eqn:Ek; [|by intros [= <-]].
    destruct (item Z.eqb (unique_chats e) k) as [c|] eqn:Ei; [|done].
    intros [= <-]. repeat split; simpl; try done.
    destruct (negb (cr_exists row)); [|done].
    apply Forall_app. split; [done|]. constructor; [|done].
    apply (item_elem Z.eqb Z.eqb_eq) in Ei. rewrite (Kc _ _ Ei).
    by apply truthy_int_Some. }
  destruct (cr_type row =? EntityCheckResultType.MESSAGE).
  { destruct (cr_chat_id row) as [c|]; [|by intros [= <-]].
    destruct (cr_message_id row) as [m|]; [|by intros [= <-]].
    destruct (truthy_int (Some c) && truthy_int (Some m)) eqn:Ek;
      [|by intros [= <-]].
    apply andb_true_iff in Ek as [Ec Em].
    apply truthy_int_Some in Ec, Em.
    destruct (item pair_eqb (unique_messages e) (c, m)) as [msg|] eqn:Ei;
      [|done].
    apply (item_elem pair_eqb pair_eqb_eq) in Ei. apply Km in Ei.
    inversion Ei as [[Hc Hm]].
    intros [= <-]. repeat split; simpl; try done.
    - destruct (negb (cr_exists row)); [|done].
      apply Forall_app. split; [done|]. constructor; [|done].
      by rewrite Hc, Hm.
    - destruct (not_bot_relation _); [|done].
      apply Forall_app. split; [done|]. constructor; [|done].
      simpl. rewrite Hc, Hm. by split. }
  destruct (cr_type row =? EntityCheckResultType.FILE); [|by intros [= <-]].
  destruct (cr_file_unique_id row) as [k|]; [|by intros [= <-]].
  destruct (truthy_str (Some k)) eqn:Ek; [|by intros [= <-]].
  apply truthy_str_Some in Ek.
  destruct (item String.eqb (unique_files_json e) k) as [f|] eqn:Ei; [|done].
  apply (item_elem String.eqb string_eqb_eq) in Ei. apply Kf in Ei.
  assert (Hfiles : Forall (fun f => exists k, dlookup f "file_unique_id"
                                              = Some (JStr k) /\ k <> "")
                          (if negb (cr_exists row) then new_files b ++ [f]
                           else new_files b)).
  { destruct (negb (cr_exists row)); [|done].
    apply Forall_app. split; [done|]. constructor; [|done]. by exists k. }
  destruct (not_bot_relation _).
  - destruct (dlookup f "file_id"); [|done].
    intros [= <-]. repeat split; simpl; try done.
    apply Forall_app. split; [done|]. by constructor.
  - intros [= <-]. by repeat split.
Qed.

Lemma log_object_rows_truthy (e : entities) (rows : list check_row) :
  keyed e -> forall b b', truthy_batches b ->
  log_object_rows e b rows = Ok b' -> truthy_batches b'.
Proof.
  intros Hk. induction rows as [|row rest IH]; intros b b' Hb; simpl.
  - by intros [= <-].
  - destruct (log_object_row e b row) as [b1|] eqn:E; [|done].
    apply IH. by eapply log_object_row_truthy.
Qed.

Lemma no_batches_truthy : truthy_batches no_batches.
Proof. by repeat split. Qed.

(** ** The bulk statements *)

Lemma insert_rows_app {R K : Type} `{EqDecision K} (pk : R -> K)
    (rows table table' : list R) :
  insert_rows pk table rows = Some table' -> table' = table ++ rows.
Proof.
  revert table. induction rows as [|r rest IH]; intros table; simpl.
  - intros [= <-]. by rewrite app_nil_r.
  - destruct (pk_free pk table (pk r)); [|done].
    intros H. apply IH in H. by rewrite <- app_assoc in H.
Qed.

Ltac run_insert :=
  unfold when_any, bulk_insert_users, bulk_insert_chats,
    bulk_insert_messages, bulk_insert_bot_messages, bulk_insert_files,
    bulk_insert_bot_files, bind, lift, log_statement, get_db, required,
    ret, raise, set_users, set_chats, set_messages, set_files,
    set_bot_messages, set_bot_files; simpl.

Lemma when_any_users (us : list TgUser) (d d' : db) :
  when_any us bulk_insert_users d = Ok (tt, d') ->
  telegram_users d' = telegram_users d ++ List.map user_values us
  /\ telegram_chats d' = telegram_chats d
  /\ telegram_messages d' = telegram_messages d
  /\ bot_messages d' = bot_messages d
  /\ telegram_files d' = telegram_files d
  /\ bot_files d' = bot_files d.
Proof.
  destruct us as [|u us].
  - run_insert. intros [= <-]. by rewrite app_nil_r.
  - unfold when_any. generalize (u :: us). clear. intros us. run_insert.
    destruct (insert_rows _ _ _) as [rows|] eqn:E; simpl; [|done].
    apply insert_rows_app in E as ->. by intros [= <-].
Qed.

Lemma when_any_chats (cs : list TgChat) (d d' : db) :
  when_any cs bulk_insert_chats d = Ok (tt, d') ->
  exists rows, traverse chat_values cs = Ok rows
  /\ telegram_users d' = telegram_users d
  /\ telegram_chats d' = telegram_chats d ++ rows
  /\ telegram_messages d' = telegram_messages d
  /\ bot_messages d' = bot_messages d
  /\ telegram_files d' = telegram_files d
  /\ bot_files d' = bot_files d.
Proof.
  destruct cs as [|c cs].
  - run_insert. intros [= <-]. exists []. by rewrite app_nil_r.
  - unfold when_any. generalize (c :: cs). clear. intros cs. run_insert.
    destruct (traverse chat_values cs) as [rows|]; simpl; [|done].
    destruct (insert_rows _ _ _) as [rows'|] eqn:E; simpl; [|done].
    apply insert_rows_app in E as ->. intros [= <-]. by exists rows.
Qed.

Lemma when_any_messages (ms : list TgMessage) (d d' : db) :
  when_any ms bulk_insert_messages d = Ok (tt, d') ->
  telegram_users d' = telegram_users d
  /\ telegram_chats d' = telegram_chats d
  /\ telegram_messages d' = telegram_messages d ++ bulk_prepare_messages ms
  /\ bot_messages d' = bot_messages d
  /\ telegram_files d' = telegram_files d
  /\ bot_files d' = bot_files d.
Proof.
  destruct ms as [|m ms].
  - run_insert. intros [= <-]. by rewrite app_nil_r.
  - unfold when_any. generalize (m :: ms). clear. intros ms. run_insert.
    destruct (insert_rows _ _ _) as [rows|] eqn:E; simpl; [|done].
    apply insert_rows_app in E as ->. by intros [= <-].
Qed.


Lemma when_any_bot_messages (data : list (Z * Z)) (bot_id : Z) (d d' : db) :
  when_any data (fun xs => bulk_insert_bot_messages xs bot_id) d = Ok (tt, d') ->
  telegram_users d' = telegram_users d
  /\ telegram_chats d' = telegram_chats d
  /\ telegram_messages d' = telegram_messages d
  /\ bot_messages d' = bot_messages d ++ bot_message_rows bot_id data
  /\ telegram_files d' = telegram_files d
  /\ bot_files d' = bot_files d.
Proof.
  destruct data as [|x data].
  - run_insert. intros [= <-]. by rewrite app_nil_r.
  - unfold when_any. generalize (x :: data). clear. intros data. run_insert.
    destruct (insert_rows _ _ _) as [rows|] eqn:E; simpl; [|done].
    apply insert_rows_app in E as ->. by intros [= <-].
Qed.

Lemma when_any_files (fs : list jdict) (d d' : db) :
  when_any fs bulk_insert_files d = Ok (tt, d') ->
  exists rows, bulk_prepare_files fs = Ok rows
  /\ telegram_users d' = telegram_users d
  /\ telegram_chats d' = telegram_chats d
  /\ telegram_messages d' = telegram_messages d
  /\ bot_messages d' = bot_messages d
  /\ telegram_files d' = telegram_files d ++ rows
  /\ bot_files d' = bot_files d.
Proof.
  destruct fs as [|f fs].
  - run_insert. intros [= <-]. exists []. by rewrite app_nil_r.
  - unfold when_any. generalize (f :: fs). clear. intros fs. run_insert.
    destruct (bulk_prepare_files fs) as [rows|]; simpl; [|done].
    destruct (insert_rows _ _ _) as [rows'|] eqn:E; simpl; [|done].
    apply insert_rows_app in E as ->. intros [= <-]. by exists rows.
Qed.


Lemma when_any_bot_files (data : list (string * json)) (bot_id : Z) (d d' : db) :
  when_any data (fun xs => bulk_insert_bot_files xs bot_id) d = Ok (tt, d') ->
  exists rows, traverse (bot_file_row bot_id) data = Ok rows
  /\ telegram_users d' = telegram_users d
  /\ telegram_chats d' = telegram_chats d
  /\ telegram_messages d' = telegram_messages d
  /\ bot_messages d' = bot_messages d
  /\ telegram_files d' = telegram_files d
  /\ bot_files d' = bot_files d ++ rows.
Proof.
  destruct data as [|x data].
  - run_insert. intros [= <-]. exists []. by rewrite app_nil_r.
  - unfold when_any. generalize (x :: data). clear. intros data. run_insert.
    destruct (traverse (bot_file_row bot_id) data) as [rows|]; simpl; [|done].
    destruct (insert_rows _ _ _) as [rows'|] eqn:E; simpl; [|done].
    apply insert_rows_app in E as ->. intros [= <-]. by exists rows.
Qed.

(** What [log_object] has written once the resolver's answer was
    walked through: each table grew by the rows of its list, and only by
    them. *)
Lemma log_object_apply_tables (e : entities) (check_result : list check_row)
    (bot_id : Z) (d d' : db) (res : flags) :
  log_object_apply e check_result bot_id d = Ok (res, d') ->
  exists b chats files links,
    log_object_rows e no_batches check_result = Ok b
    /\ traverse chat_values (new_chats b) = Ok chats
    /\ bulk_prepare_files (new_files b) = Ok files
    /\ traverse (bot_file_row bot_id) (new_bot_files b) = Ok links
    /\ telegram_users d' = telegram_users d ++ List.map user_values (new_users b)
    /\ telegram_chats d' = telegram_chats d ++ chats
    /\ telegram_messages d'
       = telegram_messages d ++ bulk_prepare_messages (new_messages b)
    /\ bot_messages d'
       = bot_messages d ++ bot_message_rows bot_id (new_bot_messages b)
    /\ telegram_files d' = telegram_files d ++ files
    /\ bot_files d' = bot_files d ++ links
    /\ res = (nonempty (new_users b), nonempty (new_chats b),
              nonempty (new_messages b), nonempty (new_bot_messages b),
              nonempty (new_files b), nonempty (new_bot_files b)).
Proof.
  unfold log_object_apply, bind, lift, ret.
  destruct (log_object_rows e no_batches check_result) as [b|]; [|done].
  destruct (when_any (new_users b) _ d) as [[[] d1]|] eqn:E1; [|done].
  destruct (when_any (new_chats b) _ d1) as [[[] d2]|] eqn:E2; [|done].
  destruct (when_any (new_messages b) _ d2) as [[[] d3]|] eqn:E3; [|done].
  destruct (when_any (new_bot_messages b) _ d3) as [[[] d4]|] eqn:E4; [|done].
  destruct (when_any (new_files b) _ d4) as [[[] d5]|] eqn:E5; [|done].
  destruct (when_any (new_bot_files b) _ d5) as [[[] d6]|] eqn:E6; [|done].
  intros [= <- <-].
  apply when_any_users in E1 as (U1 & C1 & M1 & B1 & F1 & L1).
  apply when_any_chats in E2 as (chats & Hc & U2 & C2 & M2 & B2 & F2 & L2).
  apply when_any_messages in E3 as (U3 & C3 & M3 & B3 & F3 & L3).
  apply when_any_bot_messages in E4 as (U4 & C4 & M4 & B4 & F4 & L4).
  apply when_any_files in E5 as (files & Hf & U5 & C5 & M5 & B5 & F5 & L5).
  apply when_any_bot_files in E6 as (links & Hl & U6 & C6 & M6 & B6 & F6 & L6).
  exists b, chats, files, links. repeat split; try done; congruence.
Qed.

Lemma traverse_elem {A B} (f : A -> result B) (xs : list A) (ys : list B) (y : B) :
  traverse f xs = Ok ys -> y ∈ ys -> exists x, x ∈ xs /\ f x = Ok y.
Proof.
  revert ys. induction xs as [|x xs IH]; intros ys; simpl.
  - intros [= <-] Hy. by apply not_elem_of_nil in Hy.
  - destruct (f x) as [y0|] eqn:Ex; [|done].
    destruct (traverse f xs) as [ys0|]; [|done].
    intros [= <-] Hy. apply elem_of_cons in Hy as [->|Hy].
    + exists x. split; [by left|done].
    + destruct (IH ys0 eq_refl Hy) as (x' & Hx' & Hfx').
      exists x'. split; [by right|done].
Qed.

Lemma file_values_key (file : jdict) (row : TelegramFile) (k : string) :
  dlookup file "file_unique_id" = Some (JStr k) ->
  file_values file = Ok row -> tf_file_unique_id row = k.
Proof.
  intros Hk. unfold file_values. rewrite Hk. simpl.
  destruct (want_str (dlookup file "file_type")); [|done].
  destruct (opt_int _); [|done]. destruct (opt_str _); [|done].
  by intros [= <-].
Qed.

Lemma log_object_apply_no_falsy_key (e : entities)
    (check_result : list check_row) (bot_id : Z) (d d' : db) (res : flags) :
  keyed e ->
  log_object_apply e check_result bot_id d = Ok (res, d') ->
  no_falsy_key_written d d'.
Proof.
  intros Hkeyed Hrun. unfold no_falsy_key_written.
  apply log_object_apply_tables in Hrun
    as (b & chats & files & links & Hb & Hc & Hf & Hl
        & -> & -> & -> & -> & -> & -> & _).
  apply (log_object_rows_truthy e _ Hkeyed _ _ no_batches_truthy) in Hb
    as (Tu & Tc & Tm & Tbm & Tf & Tbf).
  repeat split; intros r Hr Hkey;
    apply elem_of_app in Hr as [Hr|Hr]; try done; exfalso.
  - apply list_elem_of_In, List.in_map_iff in Hr as (u & <- & Hu).
    rewrite Forall_forall in Tu. by apply (Tu u); [apply list_elem_of_In|].
  - destruct (traverse_elem _ _ _ _ Hc Hr) as (c & Hin & Hv).
    rewrite Forall_forall in Tc. apply (Tc c Hin).
    unfold chat_values in Hv. destruct (ChatType_of_value _); [|done].
    by inversion Hv; subst.
  - apply list_elem_of_In, List.in_map_iff in Hr as (m & <- & Hm).
    rewrite Forall_forall in Tm.
    destruct (Tm m) as [H1 H2]; [by apply list_elem_of_In|].
    simpl in Hkey. by destruct Hkey.
  - apply list_elem_of_In, List.in_map_iff in Hr as ([c m] & <- & Hm).
    rewrite Forall_forall in Tbm.
    destruct (Tbm (c, m)) as [H1 H2]; [by apply list_elem_of_In|].
    simpl in *. by destruct Hkey.
  - destruct (traverse_elem _ _ _ _ Hf Hr) as (f & Hin & Hv).
    rewrite Forall_forall in Tf. destruct (Tf f Hin) as (k & Hk & Hne).
    by rewrite (file_values_key _ _ _ Hk Hv) in Hkey.
  - destruct (traverse_elem _ _ _ _ Hl Hr) as ([k v] & Hin & Hv).
    rewrite Forall_forall in Tbf. apply (Tbf _ Hin). simpl.
    unfold bot_file_row in Hv. destruct (want_str (Some v)); [|done].
    by inversion Hv; subst.
Qed.

(** C10.  Whatever the resolver answers (and in particular when it
    says that a key does not exist), a row of the answer whose key is
    falsy is passed over without an error, and the rows [log_object]
    writes never have a falsy key: a user or chat row with id 0, a message
    or link row whose chat id or message id is 0, a file or file-link row
    with an empty unique id is in the store afterwards only if it was
    there before.  This holds for the maps [collect_entities] returns for
    any payload, and so for [log_object] with the resolver of the
    source. *)
Theorem falsy_keys_are_never_written (h : heap) (object : oid) (bot_id : Z)
    (d d' : db) (res : flags) :
  (forall e b r,
      collect_entities h object = Ok e ->
      (cr_type r = EntityCheckResultType.CHAT ->
         truthy_int (cr_chat_id r) = false) ->
      (cr_type r = EntityCheckResultType.USER ->
         truthy_int (cr_user_id r) = false) ->
      (cr_type r = EntityCheckResultType.MESSAGE ->
         truthy_int (cr_chat_id r) && truthy_int (cr_message_id r) = false) ->
      (cr_type r = EntityCheckResultType.FILE ->
         truthy_str (cr_file_unique_id r) = false) ->
      log_object_row e b r = Ok b)
  /\ (forall e check_result,
        collect_entities h object = Ok e ->
        log_object_apply e check_result bot_id d = Ok (res, d') ->
        no_falsy_key_written d d')
  /\ (log_object h object bot_id d = Ok (res, d') ->
      no_falsy_key_written d d').
Proof.
  split; [intros e b r _; apply log_object_row_falsy_key|]. split.
  - intros e check_result He. apply log_object_apply_no_falsy_key.
    by apply (collect_entities_keyed h object).
  - intros Hrun. apply log_object_writes_nothing in Hrun as (Ht & _ & _).
    unfold tables in Ht. inversion Ht as [[Hu Hc Hm Hf Hbm Hbf]].
    unfold no_falsy_key_written. rewrite Hu, Hc, Hm, Hf, Hbm, Hbf.
    by repeat split.
Qed.

(** Users 0 and 7 are both reported as new; only user 7 is inserted. *)
Lemma falsy_keys_are_never_written_witness :
  exists e res d',
    collect_entities Sample.two_users 1%positive = Ok e
    /\ log_object_apply e Sample.both_new 9 Sample.no_store = Ok (res, d')
    /\ List.map tu_id (telegram_users d') = [7]
    /\ no_falsy_key_written Sample.no_store d'.
Proof.
  eexists _, _, _. split; [vm_compute; reflexivity|].
  split; [vm_compute; reflexivity|]. split; [reflexivity|].
  eapply (proj1 (proj2 (falsy_keys_are_never_written Sample.two_users
                           1%positive 9 Sample.no_store _ _))
                 _ Sample.both_new).
  - vm_compute; reflexivity.
  - vm_compute; reflexivity.
Defined.

(** ** Profile refresh *)

Lemma bind_Ok {A B} (m : M A) (k : A -> M B) (d : db) (r : B * db) :
  bind m k d = Ok r -> exists a d1, m d = Ok (a, d1) /\ k a d1 = Ok r.
Proof.
  unfold bind. destruct (m d) as [[a d1]|]; [|done]. intros H. by exists a, d1.
Qed.

Lemma avatar_step_chats (chat : ChatFullInfo) (bot_id : Z) (d d' : db) :
  avatar_step chat bot_id d = Ok (tt, d') ->
  telegram_chats d' = telegram_chats d.
Proof.
  unfold avatar_step. destruct (cfi_photo chat) as [photo|].
  - unfold insert_chat_photo_if_not_exist. intros H.
    apply bind_Ok in H as (res & d0 & Hq & H).
    unfold chat_photo_check_entities in Hq.
    apply bind_Ok in Hq as ([] & d00 & Hlog & Hq).
    apply bind_Ok in Hq as (dd & d01 & Hget & Hq).
    inversion Hlog; subst d00. inversion Hget; subst dd d01.
    inversion Hq; subst d0. clear Hlog Hget Hq.
    unfold insert_chat_photo_entities in H.
    apply bind_Ok in H as ([] & d1 & E1 & E2).
    apply when_any_files in E1 as (? & _ & _ & C1 & _).
    apply when_any_bot_files in E2 as (? & _ & _ & C2 & _).
    by rewrite C2, C1.
  - by intros [= <-].
Qed.

Lemma filter_nil_pk_free (rows : list TelegramChat) (k : Z) :
  List.filter (fun r => tc_id r =? k) rows = [] -> pk_free tc_id rows k = true.
Proof.
  induction rows as [|r rows IH]; simpl; [done|].
  destruct (tc_id r =? k) eqn:E; [done|]. intros H.
  rewrite (IH H), andb_true_r. apply Z.eqb_neq in E.
  by rewrite bool_decide_eq_false_2.
Qed.

Lemma chat_full_info_values_id (chat : ChatFullInfo) (row : TelegramChat) :
  chat_full_info_values chat = Ok row -> tc_id row = cfi_id chat.
Proof.
  unfold chat_full_info_values. destruct (ChatType_of_value _); [|done].
  by intros [= <-].
Qed.

(** C6 (as amended).  [log_me] inserts nothing: it overwrites the four
    name columns of the rows with the user's id and leaves their [is_bot]
    and [is_premium], every other row and the set of ids as they were.
    [log_chat_full_info] is an upsert: when the chat type is a known one
    and the avatar step goes through, it returns; if the chat had no row,
    the row of the snapshot is appended, otherwise it takes the place of
    the stored one, every column but the id being assigned; afterwards
    the snapshot's row is the only row with that id, and the rows of other
    chats are unchanged. *)
Theorem profile_refresh (user : TgUser) (chat : ChatFullInfo) (bot_id : Z)
    (d d1 : db) (row : TelegramChat) :
  chat_full_info_values chat = Ok row ->
  (length (chat_rows (cfi_id chat) d) <= 1)%nat ->
  avatar_step chat bot_id (executes SelectChat d) = Ok (tt, d1) ->
  (exists d',
      log_me user d = Ok (tt, d')
      /\ List.map tu_id (telegram_users d') = List.map tu_id (telegram_users d)
      /\ List.map (fun r => (tu_is_premium r, tu_is_bot r)) (telegram_users d')
         = List.map (fun r => (tu_is_premium r, tu_is_bot r)) (telegram_users d)
      /\ (forall r, r ∈ telegram_users d' -> tu_id r = u_id user ->
            refreshed_by user r)
      /\ (forall r, r ∈ telegram_users d -> tu_id r <> u_id user ->
            r ∈ telegram_users d'))
  /\ (exists d',
        log_chat_full_info chat bot_id d = Ok (tt, d')
        /\ (chat_rows (cfi_id chat) d = []
            -> telegram_chats d' = telegram_chats d ++ [row])
        /\ (chat_rows (cfi_id chat) d <> []
            -> telegram_chats d'
               = List.map (fun r => if tc_id r =? cfi_id chat then row else r)
                          (telegram_chats d))
        /\ row ∈ telegram_chats d'
        /\ (forall r, r ∈ telegram_chats d' -> tc_id r = cfi_id chat -> r = row)
        /\ (forall r, r ∈ telegram_chats d -> tc_id r <> cfi_id chat ->
              r ∈ telegram_chats d')).
Proof.
  intros Hrow Hpk Havatar. split.
  - eexists. split; [reflexivity|]. simpl. repeat split.
    + rewrite List.map_map. apply List.map_ext. intros r.
      by destruct (tu_id r =? u_id user).
    + rewrite List.map_map. apply List.map_ext. intros r.
      by destruct (tu_id r =? u_id user).
    + apply list_elem_of_In, List.in_map_iff in H as (r0 & <- & _).
      destruct (tu_id r0 =? u_id user) eqn:E; [done|].
      apply Z.eqb_neq in E. done.
    + apply list_elem_of_In, List.in_map_iff in H as (r0 & <- & _).
      destruct (tu_id r0 =? u_id user) eqn:E; [done|].
      apply Z.eqb_neq in E. done.
    + apply list_elem_of_In, List.in_map_iff in H as (r0 & <- & _).
      destruct (tu_id r0 =? u_id user) eqn:E; [done|].
      apply Z.eqb_neq in E. done.
    + apply list_elem_of_In, List.in_map_iff in H as (r0 & <- & _).
      destruct (tu_id r0 =? u_id user) eqn:E; [done|].
      apply Z.eqb_neq in E. done.
    + intros r Hr Hne. apply list_elem_of_In, List.in_map_iff. exists r.
      split; [|by apply list_elem_of_In].
      apply Z.eqb_neq in Hne. by rewrite Hne.
  - pose proof (avatar_step_chats _ _ _ _ Havatar) as Hchats.
    pose proof (chat_full_info_values_id _ _ Hrow) as Hid.
    simpl in Hchats. unfold chat_rows in *.
    unfold log_chat_full_info.
    unfold bind at 1 2 3. unfold log_statement at 1. unfold get_db at 1.
    fold (executes SelectChat d). unfold lift at 1.
    change (telegram_chats (executes SelectChat d)) with (telegram_chats d).
    destruct (List.filter _ (telegram_chats d)) as [|r0 [|r1 rest]] eqn:Ef;
      [| |simpl in Hpk; lia].
    + (* no row yet *)
      simpl scalar_one_or_none. cbv iota beta.
      unfold log_new_chat_full_info. fold (avatar_step chat bot_id).
      unfold bind. rewrite Havatar. unfold lift. rewrite Hrow.
      unfold log_statement, get_db, required. simpl.
      assert (Hfree : pk_free tc_id (telegram_chats d) (tc_id row) = true)
        by (rewrite Hid; by apply filter_nil_pk_free).
      rewrite Hchats, Hfree.
      simpl. eexists. split; [reflexivity|]. simpl.
      assert (Hnone : forall r, r ∈ telegram_chats d -> tc_id r <> cfi_id chat).
      { intros r Hr Heq.
        assert (r ∈ List.filter (fun r => tc_id r =? cfi_id chat)
                                (telegram_chats d)) as Hin.
        { apply list_elem_of_In, List.filter_In.
          split; [by apply list_elem_of_In|by apply Z.eqb_eq]. }
        rewrite Ef in Hin. by apply not_elem_of_nil in Hin. }
      repeat split; try done.
      * set_solver.
      * intros r Hr Heq. apply elem_of_app in Hr as [Hr|Hr].
        -- by apply Hnone in Hr.
        -- by apply list_elem_of_singleton in Hr.
      * intros r Hr _. set_solver.
    + (* one row *)
      simpl scalar_one_or_none. cbv iota beta.
      fold (avatar_step chat bot_id).
      unfold bind. rewrite Havatar. unfold lift. rewrite Hrow.
      unfold log_statement, get_db, set_chats. simpl.
      rewrite Hchats. eexists. split; [reflexivity|]. simpl.
      assert (Hr0 : r0 ∈ telegram_chats d /\ tc_id r0 = cfi_id chat).
      { assert (r0 ∈ List.filter (fun r => tc_id r =? cfi_id chat)
                                 (telegram_chats d)) as Hin
          by (rewrite Ef; by left).
        apply list_elem_of_In, List.filter_In in Hin as [Hin Heq].
        split; [by apply list_elem_of_In|by apply Z.eqb_eq]. }
      repeat split; try done.
      * apply list_elem_of_In, List.in_map_iff. exists r0.
        destruct Hr0 as [Hin Heq]. rewrite Heq, Z.eqb_refl.
        split; [done|by apply list_elem_of_In].
      * intros r Hr Heq.
        apply list_elem_of_In, List.in_map_iff in Hr as (r' & <- & _).
        destruct (tc_id r' =? cfi_id chat) eqn:E; [done|].
        apply Z.eqb_neq in E. done.
      * intros r Hr Hne. apply list_elem_of_In, List.in_map_iff. exists r.
        apply Z.eqb_neq in Hne. rewrite Hne.
        split; [done|by apply list_elem_of_In].
Qed.

(** The bot's profile is refreshed in chat 100's store; chat 100 has a
    row, which the snapshot replaces. *)
Lemma profile_refresh_witness :
  exists row,
    chat_full_info_values Sample.chat_info = Ok row
    /\ (length (chat_rows 100 Sample.store) <= 1)%nat
    /\ avatar_step Sample.chat_info 9 (executes SelectChat Sample.store)
       = Ok (tt, executes SelectChat Sample.store)
    /\ exists d',
        log_chat_full_info Sample.chat_info 9 Sample.store = Ok (tt, d')
        /\ telegram_chats d' = [row; Sample.chat_row 200].
Proof.
  eexists. split; [vm_compute; reflexivity|].
  split; [vm_compute; lia|]. split; [reflexivity|].
  destruct (profile_refresh Sample.me Sample.chat_info 9 Sample.store
              (executes SelectChat Sample.store) _ eq_refl)
    as [_ (d' & Hrun & _ & Hupd & _)].
  - vm_compute; lia.
  - reflexivity.
  - exists d'. split; [exact Hrun|]. rewrite Hupd; [reflexivity|discriminate].
Defined.

(** C6 (the claim as stated fails).  getMe for a bot whose user row is
    missing inserts nothing; and where the row is there, [is_premium] and
    [is_bot] keep their stored values whatever the snapshot says. *)
Lemma log_me_neither_inserts_nor_overwrites_all :
  (exists d', log_me Sample.me Sample.no_store = Ok (tt, d')
              /\ telegram_users d' = [])
  /\ (u_is_premium Sample.me, u_is_bot Sample.me) = (Some true, true)
  /\ exists d', log_me Sample.me Sample.user_store = Ok (tt, d')
                /\ List.map (fun r => (tu_id r, tu_first_name r,
                                       tu_is_premium r, tu_is_bot r))
                            (telegram_users d')
                   = [(5, "Proxy", false, false)].
Proof.
  split; [eexists; split; reflexivity|]. split; [reflexivity|].
  eexists. split; reflexivity.
Qed.

(** ** Copies that are skipped *)

Lemma filter_existsb_false {A} (f : A -> bool) (l : list A) :
  existsb f l = false -> List.filter f l = [].
Proof.
  induction l as [|x l IH]; simpl; [done|].
  destruct (f x); [done|]. apply IH.
Qed.

Lemma outerjoin_nil {A B} (on : A -> B -> bool) (ys : list B) :
  outerjoin on [] ys = [].
Proof. done. Qed.

Section Skipped.
Variable lib : telegram_lib.

Lemma log_copy_message_skips (req : jdict) (data : json) (bot_id : Z) (d : db) :
  copy_message_incomplete req data = true \/ source_logged req d = false ->
  match log_copy_message lib req data bot_id d with
  | Ok (_, d') => tables d' = tables d
  | Err _ => forall o, data <> JDict o
  end.
Proof.
  intros H.
  destruct data as [| | | | |o]; try done.
  unfold log_copy_message. unfold bind at 1. unfold ret at 1.
  unfold copy_message_incomplete, new_id_of in H.
  destruct (negb (truthy (dget req "chat_id"))
            || negb (truthy (dget req "from_chat_id"))
            || negb (truthy (dget req "message_id"))
            || negb (truthy (dget o "message_id"))) eqn:Eg; [done|].
  destruct H as [H|H]; [done|].
  unfold source_logged in H. apply filter_existsb_false in H.
  unfold bind at 1. unfold get_db at 1. rewrite H.
  by destruct (dget req "chat_id").
Qed.

Lemma traverse_length {A B} (f : A -> result B) (xs : list A) (ys : list B) :
  traverse f xs = Ok ys -> length ys = length xs.
Proof.
  revert ys. induction xs as [|x xs IH]; intros ys; simpl.
  - by intros [= <-].
  - destruct (f x); [|done]. destruct (traverse f xs) as [ys0|]; [|done].
    intros [= <-]. simpl. by rewrite (IH ys0).
Qed.

Lemma traverse_Ok {A B} (f : A -> result B) (xs : list A) :
  (forall x, x ∈ xs -> exists y, f x = Ok y) -> exists ys, traverse f xs = Ok ys.
Proof.
  induction xs as [|x xs IH]; intros H; simpl; [by eexists|].
  destruct (H x) as [y ->]; [by left|].
  destruct IH as [ys ->]; [intros ? ?; apply H; by right|]. by eexists.
Qed.

Lemma log_copy_messages_skips (req : jdict) (items : list json)
    (method : string) (bot_id : Z) (d : db) :
  copy_messages_incomplete req (JList items) = true
  \/ sources_logged req d = false ->
  match log_copy_messages lib req items method bot_id d with
  | Ok (_, d') => tables d' = tables d
  | Err _ => well_shaped req (JList items) "copyMessages" = false
  end.
Proof.
  intros H. unfold log_copy_messages.
  fold (source_ids_of req).
  unfold bind at 1. unfold lift at 1.
  match goal with
  | |- context [traverse ?f items] => set (get_id := f)
  end.
  assert (Hshape : well_shaped req (JList items) "copyMessages" = true ->
            exists ids, source_ids_of req = JList ids
                        /\ exists copied, traverse get_id items = Ok copied).
  { unfold well_shaped. simpl.
    destruct (source_ids_of req) as [| | | |ids|]; try done.
    intros Hall. exists ids. split; [done|].
    apply traverse_Ok. intros x Hx.
    rewrite forallb_forall in Hall. specialize (Hall x).
    rewrite <- list_elem_of_In in Hall. specialize (Hall Hx).
    unfold get_id. destruct x as [| | | | |o]; try done.
    destruct (dlookup o "message_id") eqn:E; [by eexists|].
    clear -Hall E. exfalso. induction o as [|[k v] o IH]; [done|].
    simpl in *. destruct (String.eqb k "message_id"); [done|]. by apply IH. }
  assert (Hbad : forall P : Prop,
            (well_shaped req (JList items) "copyMessages" = true -> P -> False) ->
            P -> well_shaped req (JList items) "copyMessages" = false).
  { intros P HP p. destruct (well_shaped _ _ _); [|done]. by destruct (HP eq_refl p). }
  destruct (traverse get_id items) as [copied_ids|] eqn:Et.
  2: { apply (Hbad True); [|done]. intros Hw _.
       destruct (Hshape Hw) as (? & _ & ? & ?). done. }
  assert (Hne : nonempty copied_ids
                = match items with [] => false | _ => true end).
  { apply traverse_length in Et. destruct items, copied_ids; done. }
  unfold copy_messages_incomplete in H.
  destruct (negb (truthy (dget req "chat_id"))
            || negb (truthy (dget req "from_chat_id"))
            || negb (truthy (source_ids_of req))
            || negb (nonempty copied_ids)) eqn:Eg; [done|].
  assert (Hlogged : sources_logged req d = false).
  { destruct H as [H|H]; [|done]. rewrite Hne in Eg.
    destruct items; simpl in *.
    - by rewrite !orb_true_r in Eg.
    - rewrite orb_false_r in H. rewrite orb_false_r in Eg. congruence. }
  unfold sources_logged in Hlogged.
  unfold bind at 1. unfold lift at 1.
  destruct (py_len (source_ids_of req)) as [n|] eqn:En.
  2: { apply (Hbad True); [|done]. intros Hw _.
       destruct (Hshape Hw) as (ids & Hids & _). rewrite Hids in En. done. }
  destruct (negb (Nat.eqb n (length copied_ids))); [done|].
  unfold bind at 1. unfold lift at 1.
  destruct (source_ids_of req) as [| | | |ids|] eqn:Eids;
    try (apply (Hbad True); [|done]; intros Hw _;
         destruct (Hshape Hw) as (? & ? & _); done).
  simpl in_list. cbv iota beta.
  apply filter_existsb_false in Hlogged.
  unfold bind at 1. unfold get_db at 1. rewrite Hlogged.
  by destruct (dget req "chat_id").
Qed.
End Skipped.

(** C8.  When a parameter a copy or forward needs is missing, or no
    stored message is a source of it, nothing is written: the logging
    either returns with all six tables as they were or raises, in which
    case the proxy logs the exception and commits nothing; and it raises
    only if the result has not the shape its method promises. *)
Theorem copy_without_source_is_skipped (lib : telegram_lib) (req : jdict)
    (data : json) (method : string) (bot_id : Z) (d : db) :
  nothing_to_copy req data method d = true ->
  tables (proxy_request_log lib req data method bot_id d) = tables d
  /\ match log_telegram_request lib req data method bot_id d with
     | Ok (_, d') => tables d' = tables d
     | Err _ => well_shaped req data method = false
     end.
Proof.
  intros H.
  assert (Hrun : match log_telegram_request lib req data method bot_id d with
                 | Ok (_, d') => tables d' = tables d
                 | Err _ => well_shaped req data method = false
                 end).
  { unfold nothing_to_copy in H.
    destruct (String.eqb method "copyMessage") eqn:E1.
    - apply String.eqb_eq in E1 as ->.
      apply orb_true_iff in H. rewrite negb_true_iff in H.
      pose proof (log_copy_message_skips lib req data bot_id d H) as Hs.
      destruct data as [| | | | |o]; try done.
      simpl. destruct (log_copy_message lib req (JDict o) bot_id d)
        as [[u d']|]; [done|]. by destruct (Hs o).
    - destruct (String.eqb method "copyMessages"
                || String.eqb method "forwardMessages") eqn:E2; [|done].
      apply orb_true_iff in H. rewrite negb_true_iff in H.
      assert (Hm : method = "copyMessages" \/ method = "forwardMessages").
      { apply orb_true_iff in E2 as [E|E]; apply String.eqb_eq in E; auto. }
      destruct data as [| | | |items|];
        try (destruct Hm as [-> | ->]; done).
      pose proof (log_copy_messages_skips lib req items method bot_id d H) as Hs.
      destruct Hm as [-> | ->]; simpl; exact Hs. }
  split; [|exact Hrun].
  unfold proxy_request_log, commit_or_rollback.
  by destruct (log_telegram_request lib req data method bot_id d) as [[u d']|].
Qed.

(** The source (7, 50) of the copy was never stored. *)
Lemma copy_without_source_is_skipped_witness :
  let req := [("chat_id", JInt 2); ("from_chat_id", JInt 7);
              ("message_id", JInt 50)] in
  let data := JDict [("message_id", JInt 99)] in
  nothing_to_copy req data "copyMessage" Sample.copy_store = true
  /\ tables (proxy_request_log Sample.offline req data "copyMessage" 9
                               Sample.copy_store)
     = tables Sample.copy_store.
Proof.
  intros req data. split; [reflexivity|].
  apply (copy_without_source_is_skipped Sample.offline req data
           "copyMessage" 9 Sample.copy_store).
  reflexivity.
Defined.

(** ** What the synthesizer hands over *)

Lemma dget_dset_eq (d : jdict) (k : string) (v : json) :
  dget (dset d k v) k = v.
Proof. unfold dget. by rewrite dlookup_dset_eq. Qed.

Lemma dget_dset_ne (d : jdict) (k k' : string) (v : json) :
  k <> k' -> dget (dset d k v) k' = dget d k'.
Proof. intros H. unfold dget. by rewrite dlookup_dset_ne. Qed.

Lemma dget_ddel_eq (d : jdict) (k : string) : dget (ddel d k) k = JNull.
Proof. unfold dget. by rewrite dlookup_ddel_eq. Qed.

Lemma dget_ddel_ne (d : jdict) (k k' : string) :
  k <> k' -> dget (ddel d k) k' = dget d k'.
Proof. intros H. unfold dget. by rewrite dlookup_ddel_ne. Qed.

Lemma dlookup_dupdate_other (other d : jdict) (k : string) :
  dmem other k = false -> dlookup (dupdate d other) k = dlookup d k.
Proof.
  unfold dupdate. revert d. induction other as [|[k0 v0] other IH];
    intros d; simpl; [done|].
  destruct (String.eqb k0 k) eqn:E; [done|]. intros H.
  rewrite (IH _ H). simpl. apply dlookup_dset_ne.
  intros ->. by rewrite String.eqb_refl in E.
Qed.

Ltac step_de_json :=
  repeat match goal with
         | |- context [rbind ?r _] =>
             let E := fresh "E" in destruct r eqn:E; simpl; [|done]
         end.

Lemma Chat_de_json_id (v : json) (c : TgChat) :
  Chat_de_json v = Ok c ->
  exists d, v = JDict d /\ dget d "id" = JInt (c_id c).
Proof.
  destruct v as [| | | | |d]; try done. unfold Chat_de_json.
  destruct (dget d "id") as [| |z| | |] eqn:Eid; try done. simpl.
  step_de_json. intros [= <-]. by exists d.
Qed.

(** The attributes of a decoded message are the entries of its
    dictionary. *)
Lemma Message_de_json_fields (d : jdict) (m : TgMessage) :
  Message_de_json (JDict d) = Ok m ->
  dget d "message_id" = JInt (m_id m)
  /\ Chat_de_json (dget d "chat") = Ok (m_chat m)
  /\ opt_int (dget d "message_thread_id") = Ok (m_message_thread_id m)
  /\ opt_str (dget d "caption") = Ok (m_caption m)
  /\ opt_int (dget d "edit_date") = Ok (m_edit_date m)
  /\ opt_bool (dget d "has_protected_content")
     = Ok (m_has_protected_content m).
Proof.
  unfold Message_de_json.
  destruct (dget d "message_id") as [| |z| | |] eqn:Eid; try done. simpl.
  step_de_json. by intros [= <-].
Qed.

(** The clone of a stored message, whenever it can be built: it
    carries the new number and the destination chat, it has no edit date,
    its thread id is the requested one if one is requested, its protection
    flag is set if that is requested, and its caption is removed on request
    by [copyMessages]; any other method leaves the caption the stored row
    has (provided the overflow of the row does not hold a caption of its
    own). *)
Lemma synthesize_fields (req : jdict) (method : string) (chat_id new_id : json)
    (original : TelegramMessage) (m : TgMessage) :
  synthesize req method chat_id (original, new_id) = Ok m ->
  new_id = JInt (m_id m)
  /\ chat_id = JInt (m_chat_id m)
  /\ message_pk (message_values m) = (m_chat_id m, m_id m)
  /\ m_edit_date m = None
  /\ tm_edit_date (message_values m) = None
  /\ (truthy (dget req "message_thread_id") = true ->
      dget req "message_thread_id" = jopt JInt (m_message_thread_id m))
  /\ (truthy (dget req "protect_content") = true ->
      tm_has_protected_content (message_values m) = true)
  /\ (truthy (dget req "remove_caption") = true -> method = "copyMessages" ->
      tm_caption (message_values m) = None)
  /\ (method <> "copyMessages" ->
      (forall other, tm_other_data original = Some other ->
                     dmem other "caption" = false) ->
      tm_caption (message_values m) = tm_caption original).
Proof.
  unfold synthesize, set_chat_id.
  set (d0 := dset (ddel (TelegramMessage_to_dict original) "edit_date")
                  "message_id" new_id).
  destruct (dlookup d0 "chat") as [[| | | | |chat]|] eqn:Echat; try done.
  simpl rbind.
  set (d1 := dset d0 "chat" (JDict (dset chat "id" chat_id))).
  set (d2 := if truthy (dget req "message_thread_id")
             then dset d1 "message_thread_id" (dget req "message_thread_id")
             else d1).
  set (d3 := if truthy (dget req "remove_caption")
                && String.eqb method "copyMessages"
             then dset d2 "caption" JNull else d2).
  set (d4 := if truthy (dget req "protect_content")
             then dset d3 "has_protected_content" (JBool true) else d3).
  intros Hm.
  apply Message_de_json_fields in Hm as (Hid & Hchat & Hthread & Hcap & Hedit & Hprot).
  assert (G : forall k, k <> "message_thread_id" -> k <> "caption" ->
                        k <> "has_protected_content" ->
                        dget d4 k = dget d1 k).
  { intros k H1 H2 H3. unfold d4, d3, d2.
    repeat match goal with
           | |- context [if ?b then _ else _] => destruct b
           end; rewrite ?dget_dset_ne by done; done. }
  assert (Hcaption1 : dget d1 "caption"
                      = dget (TelegramMessage_to_dict original) "caption").
  { unfold d1, d0. rewrite !dget_dset_ne, dget_ddel_ne by done. done. }
  repeat split.
  - rewrite G in Hid by done. unfold d1, d0 in Hid.
    rewrite dget_dset_ne, dget_dset_eq in Hid by done. done.
  - rewrite G in Hchat by done. unfold d1 in Hchat.
    rewrite dget_dset_eq in Hchat.
    apply Chat_de_json_id in Hchat as (c & [= <-] & Hc).
    by rewrite dget_dset_eq in Hc.
  - rewrite G in Hedit by done. unfold d1, d0 in Hedit.
    rewrite !dget_dset_ne, dget_ddel_eq in Hedit by done. by inversion Hedit.
  - simpl. rewrite G in Hedit by done. unfold d1, d0 in Hedit.
    rewrite !dget_dset_ne, dget_ddel_eq in Hedit by done. by inversion Hedit.
  - intros Ht. unfold d4, d3, d2 in Hthread. rewrite Ht in Hthread.
    repeat match type of Hthread with
           | context [if ?b then _ else _] => destruct b
           end; rewrite ?dget_dset_ne, ?dget_dset_eq in Hthread by done;
      rewrite ?dget_dset_eq in Hthread;
      by destruct (dget req "message_thread_id"); inversion Hthread.
  - intros Hp. simpl. unfold d4 in Hprot. rewrite Hp in Hprot.
    rewrite dget_dset_eq in Hprot. by inversion Hprot.
  - intros Hr ->. simpl. unfold d4, d3 in Hcap. rewrite Hr in Hcap. simpl in Hcap.
    destruct (truthy (dget req "protect_content"));
      rewrite ?dget_dset_ne, ?dget_dset_eq in Hcap by done;
      rewrite ?dget_dset_eq in Hcap; by inversion Hcap.
  - intros Hmethod Hother. simpl.
    assert (Hd3 : dget d4 "caption" = dget d1 "caption").
    { unfold d4, d3, d2.
      apply String.eqb_neq in Hmethod. rewrite Hmethod, andb_false_r.
      repeat match goal with
             | |- context [if ?b then _ else _] => destruct b
             end; rewrite ?dget_dset_ne by done; done. }
    rewrite Hd3, Hcaption1 in Hcap.
    assert (Hrow : dget (TelegramMessage_to_dict original) "caption"
                   = jopt JStr (tm_caption original)).
    { unfold TelegramMessage_to_dict, dget.
      destruct (tm_other_data original) as [other|] eqn:Eo; [|done].
      by rewrite (dlookup_dupdate_other _ _ _ (Hother other eq_refl)). }
    rewrite Hrow in Hcap. by destruct (tm_caption original); inversion Hcap.
Qed.

(** ** No message is ever stored by a bulk copy *)

Lemma keeps_bind {A B} (m : M A) (k : A -> M B) :
  keeps_messages m -> (forall a, keeps_messages (k a)) ->
  keeps_messages (bind m k).
Proof.
  intros Hm Hk d b d' H. apply bind_Ok in H as (a & d1 & H1 & H2).
  destruct (Hm _ _ _ H1) as [E1 E2]. destruct (Hk a _ _ _ H2) as [E3 E4].
  split; congruence.
Qed.

Lemma keeps_ret {A} (a : A) : keeps_messages (ret a).
Proof. by intros d a' d' [= <- <-]. Qed.

Lemma keeps_raise {A} (e : exn) : keeps_messages (@raise A e).
Proof. by intros d a d'. Qed.

Lemma keeps_lift {A} (r : result A) : keeps_messages (lift r).
Proof. intros d a d'. unfold lift. destruct r; [|done]. by intros [= <- <-]. Qed.

Lemma keeps_required {A} (e : exn) (o : option A) : keeps_messages (required e o).
Proof. destruct o; [apply keeps_ret|apply keeps_raise]. Qed.

Lemma keeps_get_db : keeps_messages get_db.
Proof. by intros d a d' [= <- <-]. Qed.

Lemma keeps_log_statement (s : statement) : keeps_messages (log_statement s).
Proof. by intros d a d' [= <- <-]. Qed.

Lemma keeps_set_chats (rows : list TelegramChat) : keeps_messages (set_chats rows).
Proof. by intros d a d' [= <- <-]. Qed.

Lemma keeps_log_object (h : heap) (object : oid) (bot_id : Z) :
  keeps_messages (log_object h object bot_id).
Proof.
  intros d res d' H. apply log_object_writes_nothing in H as (Ht & _).
  unfold tables in Ht. by inversion Ht.
Qed.

Lemma keeps_insert_chat_photo (photo : ChatPhoto) (bot_id : Z) :
  keeps_messages (insert_chat_photo_if_not_exist photo bot_id).
Proof.
  unfold insert_chat_photo_if_not_exist, chat_photo_check_entities,
    insert_chat_photo_entities.
  repeat (apply keeps_bind; [|intros ?]);
    try apply keeps_log_statement; try apply keeps_get_db;
    try apply keeps_ret.
  - intros d [] d' H. apply when_any_files in H as (? & _ & _ & _ & -> & -> & _).
    done.
  - intros d [] d' H.
    apply when_any_bot_files in H as (? & _ & _ & _ & -> & -> & _). done.
Qed.

Lemma keeps_log_new_chat_full_info (chat : ChatFullInfo) (bot_id : Z) :
  keeps_messages (log_new_chat_full_info chat bot_id).
Proof.
  unfold log_new_chat_full_info.
  repeat (apply keeps_bind; [|intros ?]);
    try apply keeps_log_statement; try apply keeps_get_db;
    try apply keeps_lift; try apply keeps_required; try apply keeps_set_chats.
  destruct (cfi_photo chat); [apply keeps_insert_chat_photo|apply keeps_ret].
Qed.

Section NoMessageStored.
Variable lib : telegram_lib.

Lemma keeps_fetch_new_chat_info (chat_id : json) (bot_id : Z) :
  keeps_messages (fetch_new_chat_info lib chat_id bot_id).
Proof.
  unfold fetch_new_chat_info.
  apply keeps_bind; [apply keeps_lift|intros info].
  apply keeps_bind; [apply keeps_log_new_chat_full_info|].
  intros ?. apply keeps_ret.
Qed.

Lemma keeps_select_by_username (s : string) (sources : list TelegramMessage) :
  keeps_messages (select_by_username s sources).
Proof.
  unfold select_by_username.
  repeat (apply keeps_bind; [|intros ?]);
    try apply keeps_log_statement; try apply keeps_get_db; apply keeps_ret.
Qed.

Lemma keeps_select_by_id (chat_id : json) (sources : list TelegramMessage) :
  keeps_messages (select_by_id chat_id sources).
Proof.
  unfold select_by_id.
  repeat (apply keeps_bind; [|intros ?]);
    try apply keeps_log_statement; try apply keeps_get_db; apply keeps_ret.
Qed.

(** Whatever the request, the branch of [copyMessages] and
    [forwardMessages] never adds a message row or a bot-message link:
    the clones it builds all go to [log_object]. *)
Lemma log_copy_messages_stores_no_message (req : jdict) (items : list json)
    (method : string) (bot_id : Z) :
  keeps_messages (log_copy_messages lib req items method bot_id).
Proof.
  unfold log_copy_messages.
  apply keeps_bind; [apply keeps_lift|intros copied_ids].
  destruct (_ || _); [apply keeps_ret|].
  apply keeps_bind; [apply keeps_lift|intros n].
  destruct (negb _); [apply keeps_ret|].
  apply keeps_bind; [apply keeps_lift|intros ids].
  apply keeps_bind; [apply keeps_get_db|intros d0].
  apply keeps_bind.
  { destruct (dget req "chat_id");
      (apply keeps_bind;
       [first [apply keeps_select_by_username|apply keeps_select_by_id]|];
       intros rows; destruct rows as [|[? ?] ?]; apply keeps_ret). }
  intros [[[original_db_msgs chat_exists] chat_id]|]; [|apply keeps_ret].
  apply keeps_bind.
  { destruct chat_exists; [apply keeps_ret|].
    apply keeps_bind; [apply keeps_fetch_new_chat_info|intros ?; apply keeps_ret]. }
  intros chat_id'.
  apply keeps_bind; [apply keeps_lift|intros copied].
  destruct (omap _ copied); [apply keeps_ret|].
  apply keeps_bind; [apply keeps_lift|intros new_messages].
  destruct (messages_heap new_messages) as [h object].
  apply keeps_bind; [apply keeps_log_object|intros ?; apply keeps_ret].
Qed.
End NoMessageStored.

Section Markup.
Variable lib : telegram_lib.

Lemma keeps_failed_lift {A B} (e : exn) (k : A -> M B) :
  keeps_messages (bind (lift (Err e)) k).
Proof. by intros d a d'. Qed.

(** A [copyMessage] request with [reply_markup] or
    [show_caption_above_media] never stores a copy, unless the value of
    that parameter happens to be a message itself. *)
Lemma copy_message_with_markup_stores_nothing (req : jdict) (data : json)
    (bot_id : Z) (v : json) (e : exn) :
  replaced_clone req = Some v -> Message_de_json v = Err e ->
  keeps_messages (log_copy_message lib req data bot_id).
Proof.
  intros Hv He. unfold log_copy_message.
  apply keeps_bind.
  { destruct data; first [apply keeps_ret|apply keeps_raise]. }
  intros copied_id. destruct (_ || _); [apply keeps_ret|].
  apply keeps_bind; [apply keeps_get_db|intros d0].
  apply keeps_bind.
  { destruct (dget req "chat_id");
      (apply keeps_bind;
       [first [apply keeps_select_by_username|apply keeps_select_by_id]|];
       intros rows; destruct rows as [|[? ?] ?]; apply keeps_ret). }
  intros [[[original_msg chat_exists] chat_id]|]; [|apply keeps_ret].
  apply keeps_bind.
  { destruct chat_exists; [apply keeps_ret|].
    apply keeps_bind; [apply keeps_fetch_new_chat_info|intros ?; apply keeps_ret]. }
  intros chat_id'.
  apply keeps_bind; [apply keeps_lift|intros msg_dict].
  unfold replaced_clone in Hv.
  destruct (truthy (dget req "reply_markup")).
  - inversion Hv; subst v. rewrite He. apply keeps_failed_lift.
  - destruct (truthy (dget req "show_caption_above_media")); [|done].
    inversion Hv; subst v. rewrite He. apply keeps_failed_lift.
Qed.
End Markup.

(** C4 (the code departs from the claim).  No bulk copy or forward
    ever adds a message row or a link.  Message (1, 50) is copied to chat
    2, where it gets number 99, caption removed and content protected:
    the clone is built and handed to [log_object], which writes nothing,
    and the store has no row (2, 99) afterwards. *)
Theorem copy_is_synthesized_but_not_stored :
  (forall lib req items method bot_id,
      keeps_messages (log_copy_messages lib req items method bot_id))
  /\ exists clone,
      synthesize Sample.copies_request "copyMessages" (JInt 2)
                 (Sample.message_row 1 50, JInt 99)
      = Ok clone
      /\ (tm_chat_id (message_values clone), tm_id (message_values clone),
          tm_caption (message_values clone),
          tm_edit_date (message_values clone),
          tm_has_protected_content (message_values clone))
         = (2, 99, None, None, true)
      /\ exists d',
          log_telegram_request Sample.offline Sample.copies_request
            (JList [JDict [("message_id", JInt 99)]]) "copyMessages" 9
            Sample.copy_store
          = Ok (tt, d')
          /\ executed d' = [SelectCopySource; SelectEntities]
          /\ telegram_messages d' = [Sample.message_row 1 50]
          /\ bot_messages d' = [Sample.link 8 1 50]
          /\ Contract.stored_message d' (2, 99) = false.
Proof.
  split; [intros; apply log_copy_messages_stores_no_message|].
  eexists. split; [vm_compute; reflexivity|]. split; [reflexivity|].
  eexists. split; [vm_compute; reflexivity|]. by repeat split.
Qed.

(** * Further properties of the code *)

(** ** What the extractor finds *)

(** X1.  [find_instances] ends in [RecursionError] exactly when a
    float can be reached from the root.  Otherwise it returns the objects
    that can be reached from the root and are instances of the class asked
    for, all of them and each once, however many paths lead to an object.
    [find_objects_with_attributes] does the same for the objects that
    show all the attributes asked for. *)
Theorem extractor_finds_what_is_reachable_once
    (h : heap) (obj : oid) (target : target_type)
    (required_attrs : list string) :
  ((find_instances h obj target = Err RecursionError
    <-> exists f, reachable h obj f /\ is_float h f = true)
   /\ ((exists found, find_instances h obj target = Ok found)
       <-> float_free h obj)
   /\ forall found,
        find_instances h obj target = Ok found ->
        NoDup found
        /\ forall o, o ∈ found
                     <-> reachable h obj o /\ isinstance h o target = true)
  /\ ((find_objects_with_attributes h obj required_attrs = Err RecursionError
       <-> exists f, reachable h obj f /\ is_float h f = true)
      /\ ((exists found,
             find_objects_with_attributes h obj required_attrs = Ok found)
          <-> float_free h obj)
      /\ forall found,
           find_objects_with_attributes h obj required_attrs = Ok found ->
           NoDup found
           /\ forall o, o ∈ found
                        <-> reachable h obj o
                            /\ forallb (hasattr h o) required_attrs = true).
Proof.
  split; (split; [|split]).
  - split.
    + intros E. destruct (float_free_dec h obj) as [F|F]; [|done].
      destruct (find_instances_returns h obj target F) as (found & E').
      congruence.
    + intros (f & Hr & Hf). by apply (find_instances_raises h obj f).
  - split.
    + intros (found & E). by apply find_instances_Ok in E as (F & _).
    + apply find_instances_returns.
  - intros found E. by apply find_instances_Ok in E as (_ & N & X).
  - split.
    + intros E. destruct (float_free_dec h obj) as [F|F]; [|done].
      destruct (find_objects_with_attributes_returns h obj required_attrs F)
        as (found & E').
      congruence.
    + intros (f & Hr & Hf).
      by apply (find_objects_with_attributes_raises h obj f).
  - split.
    + intros (found & E).
      by apply find_objects_with_attributes_Ok in E as (F & _).
    + apply find_objects_with_attributes_returns.
  - intros found E.
    by apply find_objects_with_attributes_Ok in E as (_ & N & X).
Qed.

(** ** Objects with nothing behind them *)

Section Prune.
Variable h : heap.
Variable keep : oid -> bool.
Variable wanted : oid -> bool.
Hypothesis dropped_inert : forall x, keep x = false -> inert h wanted x.

Let h' : heap := prune keep <$> h.

Lemma prune_lookup (o : oid) : h' !! o = prune keep <$> h !! o.
Proof. unfold h'. by rewrite lookup_fmap. Qed.

Lemma prune_is_float (o : oid) : is_float h' o = is_float h o.
Proof.
  unfold is_float. rewrite prune_lookup.
  by destruct (h !! o) as [[]|].
Qed.

Lemma public_values_filter (attrs : list (string * option oid)) :
  public_values
    (List.filter (fun av => match snd av with
                            | Some value => keep value
                            | None => true
                            end) attrs)
  = List.filter keep (public_values attrs).
Proof.
  induction attrs as [|[name value] attrs IH]; [done|].
  destruct value as [value|]; cbn [List.filter snd].
  - destruct (keep value) eqn:E.
    + unfold public_values in *. cbn [omap list_omap fst snd].
      destruct (startswith_underscore name); [done|].
      cbn [List.filter]. by rewrite E, IH.
    + rewrite IH. unfold public_values. cbn [omap list_omap fst snd].
      destruct (startswith_underscore name); [done|].
      cbn [List.filter]. by rewrite E.
  - unfold public_values in *. cbn [omap list_omap fst snd].
    by destruct (startswith_underscore name).
Qed.

Lemma prune_children (o : oid) :
  children h' o = List.filter keep (children h o).
Proof.
  unfold children. rewrite prune_lookup.
  destruct (h !! o) as [[values|items|i attrs|]|]; simpl; try done.
  apply public_values_filter.
Qed.

Lemma prune_reachable (o x : oid) : reachable h' o x -> reachable h o x.
Proof.
  intros Hr. induction Hr as [|y c Hy IHy Hc]; [constructor|].
  apply (reachable_child h o y c); [done|].
  rewrite prune_children in Hc.
  by apply list_elem_of_In, List.filter_In in Hc as [Hc%list_elem_of_In _].
Qed.

Lemma reachable_trans (o x y : oid) :
  reachable h o x -> reachable h x y -> reachable h o y.
Proof.
  intros Hx Hy. induction Hy as [|z c Hz IHz Hc]; [done|].
  by apply (reachable_child h o z c).
Qed.

Lemma inert_reachable (x y : oid) :
  inert h wanted x -> reachable h x y -> inert h wanted y.
Proof. intros Hx Hy z Hz. apply Hx. by apply (reachable_trans x y z). Qed.

(** A call on an inert object finds nothing and goes into inert objects
    only, in either heap. *)
Lemma walk_inert (n : nat) (seen seen1 : gset oid) (o : oid)
    (vis found : list oid) :
  inert h wanted o ->
  walk h wanted n seen o = Some (seen1, vis, found)
  \/ walk h' wanted n seen o = Some (seen1, vis, found) ->
  found = [] /\ seen1 = seen ∪ list_to_set vis
  /\ forall x, x ∈ vis -> inert h wanted x.
Proof.
  intros Hi E.
  assert (Hr : forall x, x ∈ vis -> reachable h o x).
  { intros x Hx. destruct E as [E|E].
    - by apply (walk_reaches h wanted _ _ _ _ _ _ E).
    - apply prune_reachable. by apply (walk_reaches h' wanted _ _ _ _ _ _ E). }
  assert (Hf : found = List.filter wanted vis).
  { destruct E as [E|E]; by apply walk_found in E. }
  assert (Hs : seen1 = seen ∪ list_to_set vis).
  { destruct E as [E|E]; by apply walk_Some in E as (-> & _). }
  split; [|split; [done|]].
  - rewrite Hf. clear -Hi Hr. induction vis as [|v vis IH]; [done|]. simpl.
    destruct (Hi v) as [-> _]; [apply Hr; by left|].
    apply IH. intros x Hx. apply Hr. by right.
  - intros x Hx. apply (inert_reachable o); [done|]. by apply Hr.
Qed.

(** The two [seen] sets differ by inert objects only. *)
Let alike (s s' : gset oid) : Prop :=
  (forall x, x ∈ s -> x ∉ s' -> inert h wanted x)
  /\ (forall x, x ∈ s' -> x ∉ s -> inert h wanted x).

Lemma alike_grow_l (s s' : gset oid) (vis : list oid) :
  alike s s' -> (forall x, x ∈ vis -> inert h wanted x) ->
  alike (s ∪ list_to_set vis) s'.
Proof.
  intros [H1 H2] Hv. split.
  - intros x Hx Hn. apply elem_of_union in Hx as [Hx|Hx]; [by apply H1|].
    apply Hv. by apply elem_of_list_to_set in Hx.
  - intros x Hx Hn. apply H2; [done|]. set_solver.
Qed.

Lemma alike_grow_r (s s' : gset oid) (vis : list oid) :
  alike s s' -> (forall x, x ∈ vis -> inert h wanted x) ->
  alike s (s' ∪ list_to_set vis).
Proof.
  intros [H1 H2] Hv. split.
  - intros x Hx Hn. apply H1; [done|]. set_solver.
  - intros x Hx Hn. apply elem_of_union in Hx as [Hx|Hx]; [by apply H2|].
    apply Hv. by apply elem_of_list_to_set in Hx.
Qed.

Lemma alike_enter (s s' : gset oid) (o : oid) :
  alike s s' -> alike ({[o]} ∪ s) ({[o]} ∪ s').
Proof.
  intros [H1 H2]. split; intros x Hx Hn.
  - apply H1; set_solver.
  - apply H2; set_solver.
Qed.

Lemma unseen_lt_pruned (s' : gset oid) (o : oid) (m : nat) :
  (unseen h' s' < S m)%nat -> o ∉ s' -> children h' o <> [] ->
  (unseen h' ({[o]} ∪ s') < m)%nat.
Proof.
  intros Hlt Ho Hc.
  destruct (decide (o ∈ dom h')) as [Hd|Hd].
  - pose proof (unseen_enter h' s' o Hd Ho). lia.
  - by rewrite children_outside in Hc.
Qed.

(** The walk over the pruned heap returns what the walk over the full
    heap returns. *)
Lemma walk_pruned (n : nat) :
  forall m s s' o s1 v1 f1,
    alike s s' -> float_free h o -> (unseen h' s' < m)%nat ->
    walk h wanted n s o = Some (s1, v1, f1) ->
    exists s1' v1',
      walk h' wanted m s' o = Some (s1', v1', f1) /\ alike s1 s1'.
Proof.
  induction n as [|n IH]; intros m s s' o s1 v1 f1 Ha Hff Hlt E; [done|].
  destruct m as [|m]; [lia|].
  destruct (decide (o ∈ s)) as [Hs|Hs]; destruct (decide (o ∈ s')) as [Hs'|Hs'].
  - simpl in *. rewrite decide_True in E by done. rewrite decide_True by done.
    inversion E; subst. by exists s', [].
  - (* seen in the full heap only *)
    assert (Hi : inert h wanted o) by (by apply (proj1 Ha)).
    simpl in E. rewrite decide_True in E by done. inversion E; subst.
    destruct (walk h' wanted (S m) s' o) as [[[s1' v1'] f1']|] eqn:E'.
    + destruct (walk_inert _ _ _ _ _ _ Hi (or_intror E')) as (-> & -> & Hv).
      exists (s' ∪ list_to_set v1'), v1'. split; [done|].
      by apply alike_grow_r.
    + apply walk_None in E' as (f & Hr & Hf); [|done].
      apply prune_reachable in Hr. specialize (Hff f Hr).
      rewrite prune_is_float in Hf. congruence.
  - (* seen in the pruned heap only *)
    assert (Hi : inert h wanted o) by (by apply (proj2 Ha)).
    destruct (walk_inert _ _ _ _ _ _ Hi (or_introl E)) as (-> & -> & Hv).
    exists s', []. simpl. rewrite decide_True by done. split; [done|].
    by apply alike_grow_l.
  - simpl in E. rewrite decide_False in E by done.
    simpl. rewrite decide_False by done. rewrite prune_is_float.
    destruct (is_float h o) eqn:Ef; [done|].
    destruct (extend_all (walk h wanted n) _ _) as [[[sa va] fa]|] eqn:El;
      [|done].
    injection E as <- <- <-.
    assert (Hloop : forall values s0 s0' sa va fa,
               alike s0 s0' ->
               (forall c, c ∈ values -> float_free h c) ->
               (List.filter keep values <> [] -> (unseen h' s0' < m)%nat) ->
               extend_all (walk h wanted n) s0 values = Some (sa, va, fa) ->
               exists sa' va',
                 extend_all (walk h' wanted m) s0' (List.filter keep values)
                 = Some (sa', va', fa)
                 /\ alike sa sa').
    { clear -IH dropped_inert. intros values.
      induction values as [|c rest IHl]; intros s0 s0' sa va fa Ha Hff Hlt E.
      - simpl in *. inversion E; subst. by exists s0', [].
      - simpl in E.
        destruct (walk h wanted n s0 c) as [[[sc vc] fc]|] eqn:Ec; [|done].
        destruct (extend_all (walk h wanted n) sc rest)
          as [[[sr vr] fr]|] eqn:Er; [|done].
        injection E as <- <- <-. simpl.
        simpl in Hlt. destruct (keep c) eqn:Ek.
        + assert (Hm : (unseen h' s0' < m)%nat) by (by apply Hlt).
          destruct (IH m s0 s0' c sc vc fc Ha) as (sc' & vc' & Ec' & Ha');
            [apply Hff; by left|done|done|].
          destruct (IHl sc sc' sr vr fr Ha') as (sr' & vr' & Er' & Ha'').
          { intros x Hx. apply Hff. by right. }
          { intros _. apply walk_Some in Ec' as (-> & _).
            eapply Nat.le_lt_trans; [|exact Hm].
            apply unseen_mono. set_solver. }
          { done. }
          exists sr', (vc' ++ vr'). simpl. rewrite Ec', Er'. by split.
        + destruct (walk_inert _ _ _ _ _ _ (dropped_inert c Ek) (or_introl Ec))
            as (-> & -> & Hv).
          destruct (IHl (s0 ∪ list_to_set vc) s0' sr vr fr)
            as (sr' & vr' & Er' & Ha'').
          { by apply alike_grow_l. }
          { intros x Hx. apply Hff. by right. }
          { done. }
          { done. }
          exists sr', vr'. by split. }
    destruct (Hloop (children h o) ({[o]} ∪ s) ({[o]} ∪ s') sa va fa)
      as (sa' & va' & El' & Ha').
    { by apply alike_enter. }
    { intros c Hc x Hx. apply Hff. by apply (reachable_step h o c). }
    { intros Hne. apply unseen_lt_pruned; [done|done|].
      by rewrite prune_children. }
    { done. }
    rewrite prune_children, El'. by exists sa', (o :: va').
Qed.

(** A float that can be reached in the full heap can be reached in the
    pruned one. *)
Lemma float_survives (o f : oid) :
  reachable h o f -> is_float h f = true -> reachable h' o f.
Proof.
  intros Hr Hf.
  assert (H : forall y, reachable h o y -> reachable h y f -> reachable h' o y).
  { intros y Hy. induction Hy as [|x c Hx IHx Hc]; intros Hyf; [constructor|].
    apply (reachable_child h' o x c).
    - apply IHx. by apply (reachable_step h x c).
    - rewrite prune_children. apply list_elem_of_In, List.filter_In.
      split; [by apply list_elem_of_In|].
      destruct (keep c) eqn:Ek; [done|].
      destruct (dropped_inert c Ek f Hyf). congruence. }
  apply H; [done|constructor].
Qed.

Lemma walk_pruned_from_scratch (obj : oid) :
  match walk h wanted (enough h) ∅ obj,
        walk h' wanted (enough h') ∅ obj with
  | Some (_, _, found), Some (_, _, found') => found = found'
  | None, None => True
  | _, _ => False
  end.
Proof.
  destruct (walk h wanted (enough h) ∅ obj) as [[[s v] f]|] eqn:E.
  - destruct (walk_pruned (enough h) (enough h') ∅ ∅ obj s v f)
      as (s' & v' & -> & _); try done.
    + by destruct (walk_visits _ _ _ _ _ _ _ E) as (_ & _ & F).
    + unfold unseen, enough. rewrite difference_empty_L, size_dom. lia.
  - apply walk_None in E as (f & Hr & Hf).
    + rewrite (walk_float h' wanted obj f); [done| |].
      * by apply float_survives.
      * by rewrite prune_is_float.
    + unfold unseen, enough. rewrite difference_empty_L, size_dom. lia.
Qed.
End Prune.

Lemma extend_all_ext (f g : gset oid -> oid -> option walked) :
  (forall seen o, f seen o = g seen o) ->
  forall values seen, extend_all f seen values = extend_all g seen values.
Proof.
  intros Hfg values. induction values as [|v rest IH]; intros seen; [done|].
  simpl. rewrite Hfg. destruct (g seen v) as [[[s1 v1] f1]|]; [|done].
  by rewrite IH.
Qed.

Lemma walk_ext (h : heap) (wanted wanted' : oid -> bool) :
  (forall o, wanted o = wanted' o) ->
  forall n seen o, walk h wanted n seen o = walk h wanted' n seen o.
Proof.
  intros Hw n. induction n as [|n IH]; intros seen o; [done|]. simpl.
  destruct (decide (o ∈ seen)); [done|].
  destruct (is_float h o); [done|].
  by rewrite Hw, (extend_all_ext _ _ IH).
Qed.

Lemma prune_isinstance (h : heap) (keep : oid -> bool) (o : oid)
    (target : target_type) :
  isinstance (prune keep <$> h) o target = isinstance h o target.
Proof.
  unfold isinstance. rewrite lookup_fmap.
  by destruct (h !! o) as [[| |[]|]|].
Qed.

(** X21.  What [find_instances] returns, or that it raises, depends
    only on the part of the payload that leads to what it looks for:
    values, items and attribute values behind which there is no instance
    of the class asked for and no float can be left out of every object
    without changing the outcome, the order of the list included. *)
Theorem find_instances_passes_over_what_has_nothing_behind
    (h : heap) (keep : oid -> bool) (obj : oid) (target : target_type) :
  (forall x, keep x = false ->
             inert h (fun o => isinstance h o target) x) ->
  find_instances (prune keep <$> h) obj target = find_instances h obj target.
Proof.
  intros Hinert.
  pose proof (walk_pruned_from_scratch h keep
                (fun o => isinstance h o target) Hinert obj) as H.
  unfold find_instances, find_instances_from.
  rewrite (walk_ext (prune keep <$> h)
             (fun o => isinstance (prune keep <$> h) o target)
             (fun o => isinstance h o target))
    by (intros o; apply prune_isinstance).
  destruct (walk h _ (enough h) ∅ obj) as [[[s v] f]|];
    destruct (walk (prune keep <$> h) _ _ ∅ obj) as [[[s' v'] f']|];
    try done. by subst.
Qed.

(** Whether an object is inert is decided by a walk from it. *)
Lemma inert_by_walk (h : heap) (wanted : oid -> bool) (x : oid)
    (seen : gset oid) (vis : list oid) :
  walk h wanted (enough h) ∅ x = Some (seen, vis, []) -> inert h wanted x.
Proof.
  intros E y Hy.
  destruct (walk_visits _ _ _ _ _ _ _ E) as (_ & R & F).
  split; [|by apply F].
  apply R in Hy. pose proof (walk_found _ _ _ _ _ _ _ _ E) as Hf.
  destruct (wanted y) eqn:Ew; [|done].
  assert (Hin : List.In y (List.filter wanted vis))
    by (apply List.filter_In; split; [by apply list_elem_of_In|done]).
  by rewrite <- Hf in Hin.
Qed.

(** The [update_id] of an update is a number; behind it there are
    numbers and bound methods only, and the walk for messages returns the
    same without it. *)
Lemma find_instances_passes_over_what_has_nothing_behind_witness :
  let h := Sample.edited_update
             (Sample.message 100 1 "new text" (Some 1700000900)) in
  let keep := fun o => negb (o =? 10)%positive in
  inert h (fun o => isinstance h o Message) 10%positive
  /\ find_instances (prune keep <$> h) 1%positive Message
     = find_instances h 1%positive Message.
Proof.
  intros h keep.
  assert (Hi : inert h (fun o => isinstance h o Message) 10%positive)
    by (eapply inert_by_walk; vm_compute; reflexivity).
  split; [exact Hi|].
  apply find_instances_passes_over_what_has_nothing_behind.
  intros x Hx. unfold keep in Hx.
  apply negb_false_iff, Pos.eqb_eq in Hx. subst x. exact Hi.
Defined.

(** ** Deduplication keeps the first object of a key *)

Section DeduplicateFirst.
Context {K V : Type} (eqb : K -> K -> bool) (key : V -> option K).
Hypothesis eqb_eq : forall a b, eqb a b = true <-> a = b.

Let shows (k : K) (obj : V) : bool :=
  match key obj with Some k' => eqb k' k | None => false end.

Let step (unique : list (K * V)) (obj : V) :=
  match key obj with
  | None => unique
  | Some k => if has_key eqb unique k then unique else unique ++ [(k, obj)]
  end.

Lemma has_key_elem (unique : list (K * V)) (k : K) :
  has_key eqb unique k = true <-> k ∈ List.map fst unique.
Proof.
  unfold has_key. rewrite existsb_exists, list_elem_of_In, List.in_map_iff.
  split.
  - intros ([k' v] & Hin & Hk). exists (k', v). simpl in *.
    split; [by apply eqb_eq|done].
  - intros ([k' v] & Hk & Hin). exists (k', v). simpl in *.
    split; [done|by apply eqb_eq].
Qed.

Lemma item_None (unique : list (K * V)) (k : K) :
  item eqb unique k = None <-> has_key eqb unique k = false.
Proof.
  unfold item, has_key. induction unique as [|[k' v] rest IH]; simpl; [done|].
  destruct (eqb k' k); simpl; [done|]. exact IH.
Qed.

Lemma item_app (unique : list (K * V)) (k k' : K) (v : V) :
  item eqb (unique ++ [(k', v)]) k
  = match item eqb unique k with
    | Some x => Some x
    | None => if eqb k' k then Some v else None
    end.
Proof.
  unfold item. induction unique as [|[k0 v0] rest IH]; simpl.
  - by destruct (eqb k' k).
  - destruct (eqb k0 k); simpl; [done|]. exact IH.
Qed.

Lemma deduplicate_fold_item (objects : list V) (k : K) :
  forall acc,
    item eqb (fold_left step objects acc) k
    = match item eqb acc k with
      | Some x => Some x
      | None => List.find (shows k) objects
      end.
Proof.
  induction objects as [|o rest IH]; intros acc; simpl.
  - by destruct (item eqb acc k).
  - rewrite IH. unfold step, shows at 2.
    destruct (key o) as [ko|] eqn:Eo; [|done].
    destruct (has_key eqb acc ko) eqn:Eh.
    + destruct (item eqb acc k) as [x|] eqn:Ei; [done|].
      destruct (eqb ko k) eqn:Ek; [|done].
      apply eqb_eq in Ek as ->. apply item_None in Ei. congruence.
    + rewrite item_app.
      destruct (item eqb acc k) as [x|] eqn:Ei; [done|].
      by destruct (eqb ko k).
Qed.

Lemma deduplicate_fold_NoDup (objects : list V) :
  forall acc, NoDup (List.map fst acc) ->
              NoDup (List.map fst (fold_left step objects acc)).
Proof.
  induction objects as [|o rest IH]; intros acc Hacc; simpl; [done|].
  apply IH. unfold step. destruct (key o) as [ko|]; [|done].
  destruct (has_key eqb acc ko) eqn:Eh; [done|].
  rewrite List.map_app. simpl. apply NoDup_app. repeat split; [done| |].
  - intros x Hx Hx'. apply list_elem_of_singleton in Hx' as ->.
    apply has_key_elem in Hx. congruence.
  - apply NoDup_singleton.
Qed.

Lemma deduplicate_first (objects : list V) (k : K) :
  NoDup (List.map fst (deduplicate eqb key objects))
  /\ item eqb (deduplicate eqb key objects) k = List.find (shows k) objects
  /\ (k ∈ List.map fst (deduplicate eqb key objects)
      <-> exists obj, obj ∈ objects /\ key obj = Some k).
Proof.
  split; [|split].
  - apply (deduplicate_fold_NoDup objects []). constructor.
  - apply (deduplicate_fold_item objects k []).
  - rewrite <- has_key_elem.
    assert (Hi : item eqb (deduplicate eqb key objects) k
                 = List.find (shows k) objects)
      by apply (deduplicate_fold_item objects k []).
    destruct (has_key eqb (deduplicate eqb key objects) k) eqn:Eh.
    + split; [intros _|done].
      destruct (item eqb (deduplicate eqb key objects) k) as [v|] eqn:Ei.
      * symmetry in Hi. apply List.find_some in Hi as [Hin Hs].
        exists v. split; [by apply list_elem_of_In|].
        unfold shows in Hs. destruct (key v) as [k'|]; [|done].
        apply eqb_eq in Hs. by subst.
      * apply item_None in Ei. congruence.
    + split; [done|]. intros (obj & Hin & Hk).
      apply item_None in Eh. rewrite Eh in Hi. symmetry in Hi.
      pose proof (List.find_none _ _ Hi obj) as Hn.
      rewrite <- list_elem_of_In in Hn. specialize (Hn Hin).
      unfold shows in Hn. rewrite Hk in Hn.
      assert (eqb k k = true) by (by apply eqb_eq). congruence.
Qed.
End DeduplicateFirst.

(** X2.  [deduplicate] (and [deduplicate_compound], which differs only
    in reading a tuple of attributes as the key) files every key once;
    what is kept under a key is the first object of the list that shows
    it; and a key is there exactly when some object shows it, the objects
    whose key cannot be read being skipped. *)
Theorem deduplicate_keeps_first_of_each_key {K V : Type}
    (eqb : K -> K -> bool) (key : V -> option K) (objects : list V) (k : K) :
  (forall a b, eqb a b = true <-> a = b) ->
  NoDup (List.map fst (deduplicate eqb key objects))
  /\ item eqb (deduplicate eqb key objects) k
     = List.find (fun obj => match key obj with
                             | Some k' => eqb k' k
                             | None => false
                             end) objects
  /\ (k ∈ List.map fst (deduplicate eqb key objects)
      <-> exists obj, obj ∈ objects /\ key obj = Some k).
Proof. intros Heq. by apply deduplicate_first. Qed.

(** Three messages, the first and the last of them with the key
    (100, 1): the first is kept. *)
Lemma deduplicate_keeps_first_of_each_key_witness :
  let ms := [Sample.message 100 1 "first" None;
             Sample.message 100 2 "other" None;
             Sample.message 100 1 "again" None] in
  item pair_eqb
       (deduplicate pair_eqb (fun m => Some (m_chat_id m, m_id m)) ms)
       (100, 1)
  = Some (Sample.message 100 1 "first" None)
  /\ List.map fst (deduplicate pair_eqb (fun m => Some (m_chat_id m, m_id m)) ms)
     = [(100, 1); (100, 2)].
Proof.
  intros ms. split; [|reflexivity].
  destruct (deduplicate_keeps_first_of_each_key pair_eqb
              (fun m => Some (m_chat_id m, m_id m)) ms (100, 1) pair_eqb_eq)
    as (_ & -> & _).
  reflexivity.
Defined.

(** ** remove_fields *)

Lemma json_nested_ind (P : json -> Prop) :
  P JNull -> (forall b, P (JBool b)) -> (forall z, P (JInt z)) ->
  (forall s, P (JStr s)) ->
  (forall xs, Forall P xs -> P (JList xs)) ->
  (forall kvs, Forall (fun kv => P (snd kv)) kvs -> P (JDict kvs)) ->
  forall v, P v.
Proof.
  intros HNull HBool HInt HStr HList HDict. fix IH 1.
  intros [| b | z | s | xs | kvs].
  - exact HNull.
  - apply HBool.
  - apply HInt.
  - apply HStr.
  - apply HList. induction xs as [|x xs IHxs]; constructor; [apply IH|exact IHxs].
  - apply HDict. induction kvs as [|[k x] kvs IHkvs]; constructor;
      [apply IH|exact IHkvs].
Qed.

Lemma str_in_elem (k : string) (ks : list string) :
  str_in k ks = true <-> k ∈ ks.
Proof.
  unfold str_in. rewrite existsb_exists, list_elem_of_In. split.
  - intros (x & Hin & Hx). apply String.eqb_eq in Hx. by subst.
  - intros Hin. exists k. split; [done|]. apply String.eqb_refl.
Qed.

Lemma str_in_false (k : string) (ks : list string) :
  k ∉ ks -> str_in k ks = false.
Proof.
  intros H. destruct (str_in k ks) eqn:E; [|done]. by apply str_in_elem in E.
Qed.

(** The deletions of [recurse] leave no excluded key behind, at any
    depth. *)
Lemma recurse_mentions (exclude_nested : list string) (key : string) :
  key ∈ exclude_nested ->
  forall v, mentions key (recurse exclude_nested v) = false.
Proof.
  intros Hin. induction v as [| | | | xs IH | kvs IH] using json_nested_ind;
    try done.
  - simpl. induction IH as [|x xs Hx _ IHxs]; simpl; [done|].
    by rewrite Hx, IHxs.
  - simpl. induction IH as [|[k x] kvs Hx _ IHkvs]; simpl; [done|].
    destruct (str_in k exclude_nested) eqn:Ek; [exact IHkvs|].
    simpl in Hx. simpl. rewrite Hx, IHkvs.
    destruct (String.eqb k key) eqn:E; [|done].
    apply String.eqb_eq in E as ->.
    apply str_in_elem in Hin. congruence.
Qed.

Lemma recurse_dict (exclude_nested : list string) (kvs : jdict) :
  exists d, recurse exclude_nested (JDict kvs) = JDict d
            /\ forall k, dlookup d k
                         = if str_in k exclude_nested then None
                           else recurse exclude_nested <$> dlookup kvs k.
Proof.
  simpl. eexists. split; [reflexivity|]. intros k.
  induction kvs as [|[k0 v0] rest IH]; simpl.
  - by destruct (str_in k exclude_nested).
  - destruct (str_in k0 exclude_nested) eqn:E0.
    + rewrite IH. destruct (String.eqb k0 k) eqn:E; [|done].
      apply String.eqb_eq in E as ->. by rewrite E0.
    + simpl. destruct (String.eqb k0 k) eqn:E; [|exact IH].
      apply String.eqb_eq in E as ->. by rewrite E0.
Qed.

Lemma recurse_nil (v : json) : recurse [] v = v.
Proof.
  induction v as [| | | | xs IH | kvs IH] using json_nested_ind; try done.
  - simpl. f_equal. induction IH as [|x xs Hx _ IHxs]; simpl; [done|].
    by rewrite Hx, IHxs.
  - simpl. f_equal. induction IH as [|[k x] kvs Hx _ IHkvs]; simpl; [done|].
    simpl in Hx. by rewrite Hx, IHkvs.
Qed.

Lemma dlookup_fold_ddel (exclude : list string) (k : string) :
  forall data,
    dlookup (fold_left ddel exclude data) k
    = if str_in k exclude then None else dlookup data k.
Proof.
  induction exclude as [|x rest IH]; intros data; simpl; [done|].
  rewrite IH. unfold str_in in *. simpl.
  destruct (String.eqb k x) eqn:E.
  - apply String.eqb_eq in E as ->. rewrite dlookup_ddel_eq.
    by destruct (existsb _ rest).
  - simpl. rewrite dlookup_ddel_ne; [done|].
    intros ->. by rewrite String.eqb_refl in E.
Qed.

(** What is left under a key after [remove_fields]. *)
Lemma remove_fields_lookup (data : jdict) (exclude exclude_nested : list string)
    (k : string) :
  dlookup (remove_fields data exclude exclude_nested) k
  = if str_in k exclude || str_in k exclude_nested then None
    else recurse exclude_nested <$> dlookup data k.
Proof.
  unfold remove_fields. destruct exclude_nested as [|n ns].
  - rewrite dlookup_fold_ddel, orb_false_r.
    destruct (str_in k exclude); [done|].
    destruct (dlookup data k) as [v|]; [|done]. simpl. by rewrite recurse_nil.
  - destruct (recurse_dict (n :: ns) (fold_left ddel exclude data))
      as (d & -> & Hd).
    rewrite Hd, dlookup_fold_ddel.
    destruct (str_in k (n :: ns)); [by rewrite orb_true_r|].
    rewrite orb_false_r. by destruct (str_in k exclude).
Qed.

Lemma remove_fields_deep
    (data : jdict) (exclude exclude_nested : list string) (key : string) :
  key ∈ exclude_nested ->
  mentions key (JDict (remove_fields data exclude exclude_nested)) = false.
Proof.
  intros Hin. unfold remove_fields. destruct exclude_nested as [|n ns].
  - by apply not_elem_of_nil in Hin.
  - pose proof (recurse_mentions (n :: ns) key Hin
                  (JDict (fold_left ddel exclude data))) as Hm.
    destruct (recurse_dict (n :: ns) (fold_left ddel exclude data))
      as (d & Hd & _).
    rewrite Hd in Hm |- *. exact Hm.
Qed.

(** X3.  After [remove_fields] no key of [exclude] is a key of the
    dictionary, and no key of [exclude_nested] is a key of it or of any
    dictionary inside it, however deep and also inside lists. *)
Theorem remove_fields_leaves_no_excluded_key
    (data : jdict) (exclude exclude_nested : list string) (key : string) :
  (key ∈ exclude ->
     dlookup (remove_fields data exclude exclude_nested) key = None)
  /\ (key ∈ exclude_nested ->
        mentions key (JDict (remove_fields data exclude exclude_nested))
        = false).
Proof.
  split.
  - intros Hin. rewrite remove_fields_lookup.
    apply str_in_elem in Hin. by rewrite Hin.
  - apply remove_fields_deep.
Qed.

(** The [file_id] of a sticker inside a message is deleted although it
    sits two dictionaries down. *)
Lemma remove_fields_leaves_no_excluded_key_witness :
  let data := [("message_id", JInt 7);
               ("sticker", JDict [("file_id", JStr "AgAD");
                                  ("thumbnail",
                                   JDict [("file_id", JStr "AAMC");
                                          ("width", JInt 128)])])] in
  "message_id" ∈ ["message_id"; "chat"]
  /\ dlookup (remove_fields data ["message_id"; "chat"] ["file_id"])
             "message_id" = None
  /\ mentions "file_id"
       (JDict (remove_fields data ["message_id"; "chat"] ["file_id"])) = false.
Proof.
  intros data.
  assert (H1 : "message_id" ∈ ["message_id"; "chat"]) by (by left).
  assert (H2 : "file_id" ∈ ["file_id"]) by (by left).
  split; [exact H1|]. split.
  - exact (proj1 (remove_fields_leaves_no_excluded_key data
                    ["message_id"; "chat"] ["file_id"] "message_id") H1).
  - exact (proj2 (remove_fields_leaves_no_excluded_key data
                    ["message_id"; "chat"] ["file_id"] "file_id") H2).
Defined.

(** X4.  [remove_fields] loses nothing else: a key that is in neither
    list is still there, and its value is the old one with the keys of
    [exclude_nested] deleted inside it (the old one itself when
    [exclude_nested] is empty); a key that was not there is not there
    afterwards. *)
Theorem remove_fields_keeps_the_other_keys
    (data : jdict) (exclude exclude_nested : list string) (key : string) :
  key ∉ exclude -> key ∉ exclude_nested ->
  dlookup (remove_fields data exclude exclude_nested) key
  = recurse exclude_nested <$> dlookup data key
  /\ (exclude_nested = [] ->
      dlookup (remove_fields data exclude exclude_nested) key
      = dlookup data key).
Proof.
  intros H1 H2.
  assert (E1 : str_in key exclude = false).
  { destruct (str_in key exclude) eqn:E; [|done]. by apply str_in_elem in E. }
  assert (E2 : str_in key exclude_nested = false).
  { destruct (str_in key exclude_nested) eqn:E; [|done].
    by apply str_in_elem in E. }
  rewrite remove_fields_lookup, E1, E2. split; [done|].
  intros ->. destruct (dlookup data key) as [v|]; [|done].
  simpl. by rewrite recurse_nil.
Qed.

Lemma remove_fields_keeps_the_other_keys_witness :
  let data := [("message_id", JInt 7);
               ("sticker", JDict [("file_id", JStr "AgAD");
                                  ("emoji", JStr "ok")])] in
  dlookup (remove_fields data ["message_id"] ["file_id"]) "sticker"
  = Some (JDict [("emoji", JStr "ok")]).
Proof.
  intros data.
  destruct (remove_fields_keeps_the_other_keys data ["message_id"]
              ["file_id"] "sticker") as [-> _].
  - intros H. apply list_elem_of_singleton in H. discriminate.
  - intros H. apply list_elem_of_singleton in H. discriminate.
  - reflexivity.
Defined.

(** ** The kind of a message *)

(** X5.  [get_message_type] goes by the order of
    [MESSAGE_TYPE_ATTRIBUTE_MAP]: the first attribute of the map that the
    message shows decides, whatever it shows besides.  So a message with a
    text is TEXT; a message that shows none of the attributes is SERVICE;
    and any other answer is the kind of an attribute the message does
    show. *)
Theorem get_message_type_first_attribute_decides (message : TgMessage) :
  (forall before attr type after,
      MESSAGE_TYPE_ATTRIBUTE_MAP = before ++ (attr, type) :: after ->
      (forall x, x ∈ before -> message_attr_truthy message (fst x) = false) ->
      message_attr_truthy message attr = true ->
      get_message_type message = type)
  /\ (truthy_str (m_text message) = true ->
      get_message_type message = MessageType.TEXT)
  /\ ((forall x, x ∈ MESSAGE_TYPE_ATTRIBUTE_MAP ->
         message_attr_truthy message (fst x) = false) ->
      get_message_type message = MessageType.SERVICE)
  /\ (get_message_type message <> MessageType.SERVICE ->
      exists attr, (attr, get_message_type message) ∈ MESSAGE_TYPE_ATTRIBUTE_MAP
                   /\ message_attr_truthy message attr = true).
Proof.
  assert (Hfirst : forall before attr type after,
             MESSAGE_TYPE_ATTRIBUTE_MAP = before ++ (attr, type) :: after ->
             (forall x, x ∈ before ->
                message_attr_truthy message (fst x) = false) ->
             message_attr_truthy message attr = true ->
             get_message_type message = type).
  { intros before attr type after Hmap Hbefore Hattr.
    unfold get_message_type. rewrite Hmap. clear Hmap.
    induction before as [|b before IH]; simpl.
    - by rewrite Hattr.
    - rewrite (Hbefore b) by (by left). apply IH.
      intros x Hx. apply Hbefore. by right. }
  split; [exact Hfirst|]. split; [|split].
  - intros Ht. apply (Hfirst [] "text" MessageType.TEXT
                        (List.tl MESSAGE_TYPE_ATTRIBUTE_MAP)); [done| |done].
    intros x Hx. by apply not_elem_of_nil in Hx.
  - intros Hnone. unfold get_message_type.
    destruct (List.find _ MESSAGE_TYPE_ATTRIBUTE_MAP) as [[a t]|] eqn:E; [|done].
    apply List.find_some in E as [Hin Ha].
    rewrite (Hnone (a, t)) in Ha; [done|by apply list_elem_of_In].
  - unfold get_message_type.
    destruct (List.find _ MESSAGE_TYPE_ATTRIBUTE_MAP) as [[a t]|] eqn:E; [|done].
    intros _. apply List.find_some in E as [Hin Ha].
    exists a. split; [by apply list_elem_of_In|done].
Qed.

(** A GIF comes with both [animation] and [document] set and without
    text: it is an ANIMATION, since [animation] comes before [document]
    in the map. *)
Lemma get_message_type_first_attribute_decides_witness :
  let gif := JDict [("file_id", JStr "CgAC"); ("file_unique_id", JStr "AgAD")] in
  let message :=
    {| m_id := 7; m_chat := Sample.chat 100; m_message_thread_id := None;
       m_text := None; m_caption := Some "look"; m_from_user := None;
       m_sender_chat := None; m_sender_boost_count := None;
       m_sender_business_bot := None; m_date := 1700000000;
       m_edit_date := None; m_business_connection_id := None;
       m_is_topic_message := None; m_is_automatic_forward := None;
       m_has_media_spoiler := None; m_has_protected_content := None;
       m_is_from_offline := None; m_is_paid_post := None;
       m_author_signature := None; m_paid_star_count := None;
       m_delete_chat_photo := None; m_group_chat_created := None;
       m_supergroup_chat_created := None; m_channel_chat_created := None;
       m_dict := [("message_id", JInt 7); ("date", JInt 1700000000);
                  ("chat", JDict [("id", JInt 100); ("type", JStr "group")]);
                  ("caption", JStr "look");
                  ("animation", gif); ("document", gif)] |} in
  message_attr_truthy message "document" = true
  /\ get_message_type message = MessageType.ANIMATION.
Proof.
  intros gif message. split; [reflexivity|].
  apply (proj1 (get_message_type_first_attribute_decides message)
           [("text", MessageType.TEXT)] "animation" MessageType.ANIMATION
           (List.tl (List.tl MESSAGE_TYPE_ATTRIBUTE_MAP))).
  - reflexivity.
  - intros x Hx. apply list_elem_of_singleton in Hx as ->. reflexivity.
  - reflexivity.
Defined.

(** ** The overflow column of a message *)

(** X6.  The [other_data] that [make_message_db_object] and
    [bulk_prepare_messages] store is the dictionary of the message
    without the twenty keys that [get_message_excluded_fields] always
    names and without [file_id] at any depth; it is NULL and not an empty
    object when nothing is left; each of the four service flags is in it
    exactly when the message has it set; and every other key of the
    dictionary is kept.  One of the keys that are kept is [message_type],
    which [to_dict] of a stored row writes: the [other_data] of a clone
    repeats the column of that name. *)
Theorem message_other_data_holds_the_rest_only (message : TgMessage) :
  let row := make_message_db_object message in
  let always_excluded :=
    [ "message_id"; "chat"; "message_thread_id"; "text";
      "caption"; "from"; "sender_chat"; "sender_boost_count";
      "sender_business_bot"; "date"; "edit_date";
      "business_connection_id"; "is_topic_message";
      "is_automatic_forward"; "has_media_spoiler";
      "has_protected_content"; "is_from_offline"; "is_paid_post";
      "author_signature"; "paid_star_count" ] in
  let flags :=
    [ ("delete_chat_photo", m_delete_chat_photo message);
      ("group_chat_created", m_group_chat_created message);
      ("supergroup_chat_created", m_supergroup_chat_created message);
      ("channel_chat_created", m_channel_chat_created message) ] in
  bulk_prepare_messages [message] = [row]
  /\ tm_other_data row <> Some []
  /\ (forall other_data, tm_other_data row = Some other_data ->
       (forall key, key ∈ always_excluded -> dlookup other_data key = None)
       /\ mentions "file_id" (JDict other_data) = false
       /\ (forall flag set,
             (flag, set) ∈ flags ->
             dlookup other_data flag
             = if truthy_bool set
               then recurse ["file_id"] <$> dlookup (m_dict message) flag
               else None)
       /\ (forall key,
             key ∉ always_excluded -> key ∉ List.map fst flags ->
             key <> "file_id" ->
             dlookup other_data key
             = recurse ["file_id"] <$> dlookup (m_dict message) key))
  /\ (forall v, dlookup (m_dict message) "message_type" = Some v ->
       exists other_data,
         tm_other_data row = Some other_data
         /\ dlookup other_data "message_type" = Some (recurse ["file_id"] v))
  /\ exists clone other_data,
      synthesize Sample.copies_request "copyMessages" (JInt 2)
                 (Sample.message_row 1 50, JInt 99) = Ok clone
      /\ tm_other_data (make_message_db_object clone) = Some other_data
      /\ dlookup other_data "message_type" = Some (JStr "photo").
Proof.
  intros row always_excluded flags.
  assert (Hrest : forall key,
             key ∉ always_excluded -> key ∉ List.map fst flags ->
             str_in key (get_message_excluded_fields message) = false).
  { intros key Hkey Hflag. apply str_in_false. intros H. 
    assert (Hin : key ∈ always_excluded ++ List.map fst flags).
    { unfold get_message_excluded_fields in H.
      destruct (truthy_bool (m_delete_chat_photo message)),
        (truthy_bool (m_group_chat_created message)),
        (truthy_bool (m_supergroup_chat_created message)),
        (truthy_bool (m_channel_chat_created message));
        repeat (apply list_elem_of_In, List.filter_In in H as [H _];
                apply list_elem_of_In in H);
        exact H. }
    apply elem_of_app in Hin as [Hin|Hin]; [by apply Hkey|by apply Hflag]. }
  split; [done|]. split; [|split; [|split]].
  { unfold row, make_message_db_object, message_values.
    cbn [tm_other_data].
    by destruct (remove_fields (m_dict message)
                   (get_message_excluded_fields message) ["file_id"]). }
  { intros other_data Hrow.
    assert (Hod : other_data
                  = remove_fields (m_dict message)
                      (get_message_excluded_fields message) ["file_id"]).
    { unfold row, make_message_db_object, message_values in Hrow.
      cbn [tm_other_data] in Hrow.
      destruct (remove_fields (m_dict message)
                  (get_message_excluded_fields message) ["file_id"]); [done|].
      by inversion Hrow. }
    subst other_data. clear Hrow. split; [|split; [|split]].
    - intros key Hkey. rewrite remove_fields_lookup.
      replace (str_in key (get_message_excluded_fields message)) with true;
        [done|].
      unfold get_message_excluded_fields.
      destruct (truthy_bool (m_delete_chat_photo message)),
        (truthy_bool (m_group_chat_created message)),
        (truthy_bool (m_supergroup_chat_created message)),
        (truthy_bool (m_channel_chat_created message));
        repeat (apply elem_of_cons in Hkey as [->|Hkey]; [reflexivity|]);
        by apply not_elem_of_nil in Hkey.
    - apply remove_fields_deep. by left.
    - intros flag set Hflag. rewrite remove_fields_lookup.
      unfold get_message_excluded_fields.
      repeat (apply elem_of_cons in Hflag as [[= -> ->]|Hflag];
              [destruct (truthy_bool (m_delete_chat_photo message)),
                 (truthy_bool (m_group_chat_created message)),
                 (truthy_bool (m_supergroup_chat_created message)),
                 (truthy_bool (m_channel_chat_created message));
               reflexivity|]).
      by apply not_elem_of_nil in Hflag.
    - intros key Hkey Hflag Hfile. rewrite remove_fields_lookup.
      rewrite (Hrest key Hkey Hflag). simpl.
      by apply String.eqb_neq in Hfile as ->. }
  { intros v Hv.
    assert (Hl : dlookup (remove_fields (m_dict message)
                            (get_message_excluded_fields message) ["file_id"])
                         "message_type"
                 = Some (recurse ["file_id"] v)).
    { rewrite remove_fields_lookup, Hrest, Hv; [done| |];
        unfold always_excluded, flags; simpl;
        apply (bool_decide_unpack _); vm_compute; exact I. }
    unfold row, make_message_db_object, message_values. cbn [tm_other_data].
    destruct (remove_fields (m_dict message)
                (get_message_excluded_fields message) ["file_id"])
      as [|kv rest] eqn:E; [done|].
    exists (kv :: rest). by split. }
  eexists _, _. split; [vm_compute; reflexivity|].
  split; vm_compute; reflexivity.
Qed.

(** ** What collect_entities hands over *)

Lemma elem_of_omap_In {A B} (f : A -> option B) (l : list A) (x : A) (y : B) :
  x ∈ l -> f x = Some y -> y ∈ omap f l.
Proof. intros Hx Hf. apply list_elem_of_omap. by exists x. Qed.

(** X7.  [collect_entities] ends in [RecursionError] exactly when a
    float can be reached from the payload.  Otherwise it returns, and
    every user, chat and message that can be reached from the payload is
    in its maps under its key (the id for users and chats, the pair of
    chat id and message id for messages), no key is there twice, and what
    is filed under a key shows that key, for files as well. *)
Theorem collect_entities_files_every_reachable_entity
    (h : heap) (object : oid) :
  (collect_entities h object = Err RecursionError
   <-> exists f, reachable h object f /\ is_float h f = true)
  /\ ((exists e, collect_entities h object = Ok e) <-> float_free h object)
  /\ forall e, collect_entities h object = Ok e ->
  (forall o u, reachable h object o -> user_at h o = Some u ->
     exists u', item Z.eqb (unique_users e) (u_id u) = Some u'
                /\ u_id u' = u_id u)
  /\ (forall o c, reachable h object o -> chat_at h o = Some c ->
        exists c', item Z.eqb (unique_chats e) (c_id c) = Some c'
                   /\ c_id c' = c_id c)
  /\ (forall o m, reachable h object o -> message_at h o = Some m ->
        exists m', item pair_eqb (unique_messages e) (m_chat_id m, m_id m)
                   = Some m'
                   /\ (m_chat_id m', m_id m') = (m_chat_id m, m_id m))
  /\ NoDup (List.map fst (unique_users e))
  /\ NoDup (List.map fst (unique_chats e))
  /\ NoDup (List.map fst (unique_messages e))
  /\ NoDup (List.map fst (unique_files_json e))
  /\ keyed e.
Proof.
  split; [|split].
  { split.
    - intros E. destruct (float_free_dec h object) as [F|F]; [|done].
      destruct (collect_entities_returns h object F) as (e & E').
      congruence.
    - intros (f & Hr & Hf). by apply (collect_entities_raises h object f). }
  { split; [|apply collect_entities_returns].
    intros (e & E).
    apply collect_entities_Ok in E as (us & cs & ms & fs & E & _).
    by apply find_instances_Ok in E as (F & _). }
  intros e He. pose proof (collect_entities_keyed h object e He) as Hkeyed.
  apply collect_entities_Ok in He
    as (us & cs & ms & fs & Hus & Hcs & Hms & Hfs & ->).
  apply find_instances_Ok in Hus as (_ & _ & Hus).
  apply find_instances_Ok in Hcs as (_ & _ & Hcs).
  apply find_instances_Ok in Hms as (_ & _ & Hms).
  assert (Hitem : forall (K V : Type) (eqb : K -> K -> bool)
                         (key : V -> K) (objects : list V) (v : V),
             (forall a b, eqb a b = true <-> a = b) ->
             v ∈ objects ->
             exists v', item eqb (deduplicate eqb (fun x => Some (key x))
                                              objects) (key v) = Some v'
                        /\ key v' = key v).
  { intros K V eqb key objects v Heq Hin.
    destruct (deduplicate_first eqb (fun x => Some (key x)) Heq objects (key v))
      as (_ & Hi & Hk).
    destruct (item_is_Some eqb Heq
                (deduplicate eqb (fun x => Some (key x)) objects) (key v))
      as [v' Hv'].
    { apply Hk. by exists v. }
    exists v'. split; [done|].
    apply (item_elem eqb Heq) in Hv'.
    apply (deduplicate_keys eqb (fun x => Some (key x))) in Hv'.
    by inversion Hv'. }
  split; [|split; [|split; [|split; [|split; [|split; [|split]]]]]].
  - intros o u Hr Hu. apply (Hitem _ _ Z.eqb u_id); [apply Z.eqb_eq|].
    apply (elem_of_omap_In _ _ o); [|done]. apply Hus. split; [done|].
    unfold isinstance. unfold user_at in Hu.
    by destruct (h !! o) as [[| |[] ?|]|].
  - intros o c Hr Hc. apply (Hitem _ _ Z.eqb c_id); [apply Z.eqb_eq|].
    apply (elem_of_omap_In _ _ o); [|done]. apply Hcs. split; [done|].
    unfold isinstance. unfold chat_at in Hc.
    by destruct (h !! o) as [[| |[] ?|]|].
  - intros o m Hr Hm.
    apply (Hitem _ _ pair_eqb (fun m => (m_chat_id m, m_id m)));
      [apply pair_eqb_eq|].
    apply (elem_of_omap_In _ _ o); [|done]. apply Hms. split; [done|].
    unfold isinstance. unfold message_at in Hm.
    by destruct (h !! o) as [[| |[] ?|]|].
  - apply (deduplicate_first Z.eqb _ Z.eqb_eq _ 0).
  - apply (deduplicate_first Z.eqb _ Z.eqb_eq _ 0).
  - apply (deduplicate_first pair_eqb _ pair_eqb_eq _ (0, 0)).
  - simpl.
    set (files := deduplicate String.eqb f_file_unique_id _).
    assert (Hnd : NoDup (List.map fst files))
      by apply (deduplicate_first String.eqb _ string_eqb_eq _ "").
    clearbody files. induction files as [|[k f] rest IH]; simpl; [constructor|].
    apply NoDup_cons in Hnd as [Hk Hrest].
    destruct (get_file_type f) as [t|]; [|by apply IH].
    destruct (is_TelegramObject f); [|by apply IH].
    simpl. apply NoDup_cons. split; [|by apply IH].
    intros Hin. apply Hk.
    apply list_elem_of_In, List.in_map_iff in Hin as ([k' d'] & Hk' & Hin).
    simpl in Hk'. subst k'. apply list_elem_of_In, list_elem_of_omap in Hin
      as ([k' f'] & Hin & Hf').
    destruct (get_file_type f'); [|done].
    destruct (is_TelegramObject f'); [|done]. inversion Hf'; subst.
    apply list_elem_of_In, List.in_map_iff. exists (k, f').
    split; [done|by apply list_elem_of_In].
  - exact Hkeyed.
Qed.

(** ** The avatar files of a chat *)

Lemma filter_unique {R K : Type} `{EqDecision K} (pk : R -> K) (f : R -> bool)
    (k : K) (l : list R) :
  NoDup (List.map pk l) -> (forall r, f r = true -> pk r = k) ->
  List.filter f l = match List.find f l with Some r => [r] | None => [] end.
Proof.
  intros Hnd Hf. induction l as [|r l IH]; simpl; [done|].
  simpl in Hnd. apply NoDup_cons in Hnd as [Hr Hl].
  destruct (f r) eqn:E; [|by apply IH].
  f_equal. destruct (List.filter f l) as [|r' rest] eqn:Efl; [done|].
  exfalso. apply Hr.
  assert (Hin : List.In r' (List.filter f l)) by (rewrite Efl; by left).
  apply List.filter_In in Hin as [Hin Hr'].
  rewrite (Hf r E), <- (Hf r' Hr').
  apply list_elem_of_In, List.in_map. done.
Qed.

Lemma outerjoin_one {A B} (on : A -> B -> bool) (x : A) (ys : list B) :
  List.filter (on x) ys
  = match List.find (on x) ys with Some r => [r] | None => [] end ->
  outerjoin on [x] ys = [(x, List.find (on x) ys)].
Proof.
  intros H. unfold outerjoin. simpl. rewrite H.
  by destruct (List.find (on x) ys).
Qed.

Lemma is_not_None_find {A B} (g : A -> B) (f : A -> bool) (l : list A) :
  is_not_None (g <$> List.find f l) = existsb f l.
Proof.
  induction l as [|x l IH]; simpl; [done|]. by destruct (f x).
Qed.

(** The answer of [chat_photo_check_entities] when the primary keys
    hold: one row for each of the two keys, in order. *)
Lemma chat_photo_rows (chat_photo : ChatPhoto) (bot_id : Z) (d : db) :
  file_keys_unique d ->
  chat_photo_check_entities chat_photo bot_id d
  = Ok (List.map (fun u => (u, Contract.stored_file d u,
                            Contract.linked_file d bot_id u))
                 [small_file_unique_id chat_photo;
                  big_file_unique_id chat_photo],
        executes SelectChatPhoto d).
Proof.
  intros [Hf Hb].
  assert (Hone : forall c,
             flat_map
               (fun '(c, tf) =>
                  List.map (fun '(_, bf) => (c, tf, bf))
                    (outerjoin
                       (fun c bf => String.eqb (bf_file_unique_id bf) c
                                    && (bf_bot_id bf =? bot_id))
                       [c] (bot_files d)))
               (outerjoin (fun c tf => String.eqb (tf_file_unique_id tf) c)
                          [c] (telegram_files d))
             = [(c,
                 List.find (fun tf => String.eqb (tf_file_unique_id tf) c)
                           (telegram_files d),
                 List.find (fun bf => String.eqb (bf_file_unique_id bf) c
                                      && (bf_bot_id bf =? bot_id))
                           (bot_files d))]).
  { intros c.
    rewrite (outerjoin_one (fun c tf => String.eqb (tf_file_unique_id tf) c)).
    2:{ apply (filter_unique tf_file_unique_id _ c); [done|].
        intros r Hr. by apply String.eqb_eq in Hr. }
    cbn [flat_map]. rewrite app_nil_r. cbv beta iota.
    rewrite (outerjoin_one
               (fun c bf => String.eqb (bf_file_unique_id bf) c
                            && (bf_bot_id bf =? bot_id))).
    2:{ apply (filter_unique bot_file_pk _ (bot_id, c)); [done|].
        intros r Hr. apply andb_true_iff in Hr as [H1 H2].
        apply String.eqb_eq in H1. apply Z.eqb_eq in H2.
        unfold bot_file_pk. by rewrite H1, H2. }
    done. }
  unfold chat_photo_check_entities, bind, log_statement, get_db, ret.
  cbn [telegram_files bot_files].
  f_equal. f_equal.
  assert (Hsplit : forall a b : string,
             outerjoin (fun c tf => String.eqb (tf_file_unique_id tf) c)
                       [a; b] (telegram_files d)
             = outerjoin (fun c tf => String.eqb (tf_file_unique_id tf) c)
                         [a] (telegram_files d)
               ++ outerjoin (fun c tf => String.eqb (tf_file_unique_id tf) c)
                            [b] (telegram_files d)).
  { intros a b. unfold outerjoin. simpl. by rewrite !app_nil_r. }
  rewrite Hsplit, List.flat_map_app, !Hone. simpl.
  unfold Contract.stored_file, Contract.linked_file.
  rewrite !is_not_None_find.
  assert (Hcomm : forall c,
             existsb (fun bf => String.eqb (bf_file_unique_id bf) c
                                && (bf_bot_id bf =? bot_id)) (bot_files d)
             = existsb (fun r => (bf_bot_id r =? bot_id)
                                 && String.eqb (bf_file_unique_id r) c)
                       (bot_files d)).
  { intros c. generalize (bot_files d). intros l.
    induction l as [|r l IH]; simpl; [done|].
    rewrite IH.
    by destruct (String.eqb (bf_file_unique_id r) c), (bf_bot_id r =? bot_id). }
  by rewrite !Hcomm.
Qed.

(** X8.  [chat_photo_check_entities] answers with one row for the
    small and one for the big avatar file, in this order, and each row
    says truly whether the file has a row and whether this bot, and not
    just any bot, is linked to it. *)
Theorem chat_photo_check_entities_answers_truly
    (chat_photo : ChatPhoto) (bot_id : Z) (d : db) :
  file_keys_unique d ->
  chat_photo_check_entities chat_photo bot_id d
  = Ok ([ (small_file_unique_id chat_photo,
           Contract.stored_file d (small_file_unique_id chat_photo),
           Contract.linked_file d bot_id (small_file_unique_id chat_photo));
          (big_file_unique_id chat_photo,
           Contract.stored_file d (big_file_unique_id chat_photo),
           Contract.linked_file d bot_id (big_file_unique_id chat_photo)) ],
        executes SelectChatPhoto d).
Proof. intros H. by rewrite chat_photo_rows. Qed.

Lemma NoDup_map_inj {A B : Type} (f : A -> B) (l : list A) :
  (forall a b, f a = f b -> a = b) -> NoDup l -> NoDup (List.map f l).
Proof.
  intros Hinj. induction l as [|x l IH]; intros Hnd; simpl; [constructor|].
  apply NoDup_cons in Hnd as [Hx Hl]. apply NoDup_cons. split; [|by apply IH].
  intros Hin. apply list_elem_of_In, List.in_map_iff in Hin as (y & Hy & Hin).
  apply Hinj in Hy as ->. by apply Hx, list_elem_of_In.
Qed.

Lemma pk_free_spec {R K : Type} `{EqDecision K} (pk : R -> K)
    (table : list R) (k : K) :
  pk_free pk table k = true <-> k ∉ List.map pk table.
Proof.
  unfold pk_free. induction table as [|r table IH]; simpl.
  - split; [intros _ H; by apply not_elem_of_nil in H|done].
  - rewrite andb_true_iff, IH, not_elem_of_cons, negb_true_iff,
      bool_decide_eq_false. split; intros [H1 H2]; split; try done;
      intros ?; by apply H1.
Qed.

Lemma insert_rows_fresh {R K : Type} `{EqDecision K} (pk : R -> K)
    (rows : list R) :
  forall table,
    NoDup (List.map pk rows) ->
    (forall r, r ∈ rows -> pk r ∉ List.map pk table) ->
    insert_rows pk table rows = Some (table ++ rows).
Proof.
  induction rows as [|r rows IH]; intros table Hnd Hfree; simpl.
  - by rewrite app_nil_r.
  - simpl in Hnd. apply NoDup_cons in Hnd as [Hr Hnd].
    replace (pk_free pk table (pk r)) with true
      by (symmetry; apply pk_free_spec, Hfree; by left).
    rewrite IH; [by rewrite <- app_assoc|done|].
    intros r' Hr'. rewrite List.map_app. simpl.
    intros Hin. apply elem_of_app in Hin as [Hin|Hin].
    + by apply (Hfree r'); [right|].
    + apply list_elem_of_singleton in Hin. apply Hr. rewrite <- Hin.
      apply list_elem_of_In, List.in_map. by apply list_elem_of_In.
Qed.

(** A second row with a key of the batch makes the statement fail. *)
Lemma insert_rows_twice {R K : Type} `{EqDecision K} (pk : R -> K)
    (table : list R) (r1 r2 : R) (rest : list R) :
  pk r1 = pk r2 -> insert_rows pk table (r1 :: r2 :: rest) = None.
Proof.
  intros Heq. simpl. destruct (pk_free pk table (pk r1)); [|done].
  replace (pk_free pk (table ++ [r1]) (pk r2)) with false; [done|].
  symmetry. apply not_true_iff_false. rewrite pk_free_spec.
  intros Hn. apply Hn. rewrite List.map_app, <- Heq. apply elem_of_app.
  right. by left.
Qed.

Lemma bulk_prepare_chat_photo_files (us : list string) :
  bulk_prepare_files (List.map chat_photo_dict us)
  = Ok (List.map chat_photo_file us).
Proof.
  unfold bulk_prepare_files. induction us as [|u us IH]; simpl; [done|].
  by rewrite IH.
Qed.

Lemma insert_missing_files (us : list string) (d : db) :
  NoDup us ->
  (forall u, u ∈ us -> u ∉ List.map tf_file_unique_id (telegram_files d)) ->
  exists d',
    when_any (List.map chat_photo_dict us) bulk_insert_files d = Ok (tt, d')
    /\ telegram_files d' = telegram_files d ++ List.map chat_photo_file us
    /\ telegram_users d' = telegram_users d
    /\ telegram_chats d' = telegram_chats d
    /\ telegram_messages d' = telegram_messages d
    /\ bot_messages d' = bot_messages d
    /\ bot_files d' = bot_files d.
Proof.
  intros Hnd Hfree. destruct us as [|u us].
  - exists d. simpl. by rewrite app_nil_r.
  - unfold when_any.
    change (List.map chat_photo_dict (u :: us))
      with (chat_photo_dict u :: List.map chat_photo_dict us) at 1.
    cbv iota.
    change (chat_photo_dict u :: List.map chat_photo_dict us)
      with (List.map chat_photo_dict (u :: us)).
    unfold bulk_insert_files, bind, lift.
    rewrite bulk_prepare_chat_photo_files.
    unfold log_statement, get_db, required. cbn [telegram_files].
    rewrite insert_rows_fresh.
    + unfold ret, set_files. eexists. split; [reflexivity|]. by simpl.
    + rewrite List.map_map. simpl.
      by rewrite List.map_id.
    + intros r Hr.
      apply list_elem_of_In, List.in_map_iff in Hr as (x & <- & Hx).
      simpl. apply Hfree. by apply list_elem_of_In.
Qed.

Lemma insert_missing_links (bot_id : Z) (pairs : list (string * string))
    (d : db) :
  NoDup (List.map fst pairs) ->
  (forall x, x ∈ pairs ->
     (bot_id, fst x) ∉ List.map bot_file_pk (bot_files d)) ->
  exists d',
    when_any (List.map (fun x => (fst x, JStr (snd x))) pairs)
             (fun xs => bulk_insert_bot_files xs bot_id) d = Ok (tt, d')
    /\ bot_files d' = bot_files d ++ List.map (chat_photo_link bot_id) pairs
    /\ telegram_users d' = telegram_users d
    /\ telegram_chats d' = telegram_chats d
    /\ telegram_messages d' = telegram_messages d
    /\ bot_messages d' = bot_messages d
    /\ telegram_files d' = telegram_files d.
Proof.
  intros Hnd Hfree.
  assert (Hrows : traverse (bot_file_row bot_id)
                    (List.map (fun x => (fst x, JStr (snd x))) pairs)
                  = Ok (List.map (chat_photo_link bot_id) pairs)).
  { clear. induction pairs as [|[u i] pairs IH]; simpl; [done|].
    by rewrite IH. }
  destruct pairs as [|p pairs].
  - exists d. simpl. by rewrite app_nil_r.
  - unfold when_any.
    change (List.map (fun x => (fst x, JStr (snd x))) (p :: pairs))
      with ((fst p, JStr (snd p))
            :: List.map (fun x => (fst x, JStr (snd x))) pairs) at 1.
    cbv iota.
    change ((fst p, JStr (snd p))
            :: List.map (fun x => (fst x, JStr (snd x))) pairs)
      with (List.map (fun x : string * string => (fst x, JStr (snd x)))
                     (p :: pairs)).
    unfold bulk_insert_bot_files, bind, lift. rewrite Hrows.
    unfold log_statement, get_db, required. cbn [bot_files].
    rewrite insert_rows_fresh.
    + unfold ret, set_bot_files. eexists. split; [reflexivity|]. by simpl.
    + rewrite List.map_map.
      replace (List.map (fun x => bot_file_pk (chat_photo_link bot_id x))
                        (p :: pairs))
        with (List.map (pair bot_id) (List.map fst (p :: pairs)))
        by (by rewrite List.map_map).
      apply NoDup_map_inj; [|exact Hnd]. by intros a b [= ->].
    + intros r Hr.
      apply list_elem_of_In, List.in_map_iff in Hr as (x & <- & Hx).
      simpl. apply Hfree. by apply list_elem_of_In.
Qed.

Lemma existsb_false_not_elem {R K : Type} (pk : R -> K) (eqb : K -> K -> bool)
    (table : list R) (k : K) :
  (forall a b, eqb a b = true <-> a = b) ->
  existsb (fun r => eqb (pk r) k) table = false <-> k ∉ List.map pk table.
Proof.
  intros Heq. induction table as [|r table IH]; simpl.
  - split; [intros _ H; by apply not_elem_of_nil in H|done].
  - rewrite orb_false_iff, IH, not_elem_of_cons. split; intros [H1 H2].
    + split; [|done]. intros ->.
      assert (eqb (pk r) (pk r) = true) by (by apply Heq). congruence.
    + split; [|done]. apply not_true_iff_false. rewrite Heq. congruence.
Qed.

Lemma not_stored_file (d : db) (u : string) :
  Contract.stored_file d u = false
  <-> u ∉ List.map tf_file_unique_id (telegram_files d).
Proof. apply existsb_false_not_elem, String.eqb_eq. Qed.

Lemma not_linked_file (d : db) (bot_id : Z) (u : string) :
  Contract.linked_file d bot_id u = false
  <-> (bot_id, u) ∉ List.map bot_file_pk (bot_files d).
Proof.
  unfold Contract.linked_file.
  apply (existsb_false_not_elem bot_file_pk
           (fun a b => (fst a =? fst b) && String.eqb (snd a) (snd b))
           (bot_files d) (bot_id, u)).
  intros [a1 a2] [b1 b2]. simpl.
  rewrite andb_true_iff, Z.eqb_eq, String.eqb_eq.
  split; [intros [-> ->]|intros [= -> ->]]; done.
Qed.

(** The two batches of [insert_chat_photo_entities] when the two unique
    ids differ. *)
Lemma insert_chat_photo_entities_batches (photo : ChatPhoto) (bot_id : Z)
    (es eb ls lb : bool) :
  small_file_unique_id photo <> big_file_unique_id photo ->
  insert_chat_photo_entities
    [(small_file_unique_id photo, es, ls); (big_file_unique_id photo, eb, lb)]
    (chat_photo_bot_files photo) bot_id
  = bind
      (when_any
         (List.map chat_photo_dict
            (List.filter (fun x => negb (snd x))
               [(small_file_unique_id photo, es);
                (big_file_unique_id photo, eb)]).*1)
         bulk_insert_files)
      (fun _ =>
         when_any
           (List.map (fun x => (fst x, JStr (snd x)))
              (List.filter (fun x => negb (snd x)
                                     && truthy_str (Some (snd (fst x))))
                 [(small_file_unique_id photo, small_file_id photo, ls);
                  (big_file_unique_id photo, big_file_id photo, lb)]).*1)
           (fun xs => bulk_insert_bot_files xs bot_id)).
Proof.
  intros Hne.
  assert (Hsb : String.eqb (small_file_unique_id photo)
                           (big_file_unique_id photo) = false)
    by (by apply String.eqb_neq).
  unfold insert_chat_photo_entities, chat_photo_bot_files, item.
  rewrite Hsb.
  destruct es, eb, ls, lb; cbn;
    rewrite ?String.eqb_refl, ?Hsb; cbn;
    destruct (String.eqb (small_file_id photo) ""),
             (String.eqb (big_file_id photo) ""); reflexivity.
Qed.

Lemma stored_file_app (d d' : db) (rows : list TelegramFile) (u : string) :
  telegram_files d' = telegram_files d ++ rows ->
  Contract.stored_file d' u
  = Contract.stored_file d u
    || existsb (fun r => String.eqb (tf_file_unique_id r) u) rows.
Proof.
  intros H. unfold Contract.stored_file. by rewrite H, existsb_app.
Qed.

Lemma linked_file_app (d d' : db) (rows : list BotFile) (bot_id : Z)
    (u : string) :
  bot_files d' = bot_files d ++ rows ->
  Contract.linked_file d' bot_id u
  = Contract.linked_file d bot_id u
    || existsb (fun r => (bf_bot_id r =? bot_id)
                         && String.eqb (bf_file_unique_id r) u) rows.
Proof.
  intros H. unfold Contract.linked_file. by rewrite H, existsb_app.
Qed.

Lemma insert_chat_photo_outcome (photo : ChatPhoto) (bot_id : Z) (d : db) :
  file_keys_unique d ->
  small_file_unique_id photo <> big_file_unique_id photo ->
  exists d',
    insert_chat_photo_if_not_exist photo bot_id d = Ok (tt, d')
    /\ telegram_files d'
       = telegram_files d ++ List.map chat_photo_file (missing_files d photo)
    /\ bot_files d'
       = bot_files d
         ++ List.map (chat_photo_link bot_id) (missing_links d bot_id photo)
    /\ (telegram_users d', telegram_chats d', telegram_messages d',
        bot_messages d')
       = (telegram_users d, telegram_chats d, telegram_messages d,
          bot_messages d)
    /\ Contract.stored_file d' (small_file_unique_id photo) = true
    /\ Contract.stored_file d' (big_file_unique_id photo) = true
    /\ (small_file_id photo <> "" ->
        Contract.linked_file d' bot_id (small_file_unique_id photo) = true)
    /\ (big_file_id photo <> "" ->
        Contract.linked_file d' bot_id (big_file_unique_id photo) = true)
    /\ file_keys_unique d'.
Proof.
  intros Hkeys Hne.
  assert (Hsb : String.eqb (small_file_unique_id photo)
                           (big_file_unique_id photo) = false)
    by (by apply String.eqb_neq).
  assert (Hbs : String.eqb (big_file_unique_id photo)
                           (small_file_unique_id photo) = false)
    by (apply String.eqb_neq; congruence).
  unfold insert_chat_photo_if_not_exist, bind at 1.
  rewrite (chat_photo_rows photo bot_id d Hkeys).
  cbn [List.map].
  rewrite (insert_chat_photo_entities_batches photo bot_id _ _ _ _ Hne).
  set (d0 := executes SelectChatPhoto d).
  assert (Hmf : (List.filter (fun x : string * bool => negb (snd x))
                   [(small_file_unique_id photo,
                     Contract.stored_file d (small_file_unique_id photo));
                    (big_file_unique_id photo,
                     Contract.stored_file d (big_file_unique_id photo))]).*1
                = missing_files d photo).
  { unfold missing_files. simpl.
    by destruct (Contract.stored_file d (small_file_unique_id photo)),
                (Contract.stored_file d (big_file_unique_id photo)). }
  assert (Hml : (List.filter
                   (fun x : string * string * bool =>
                      negb (snd x) && truthy_str (Some (snd (fst x))))
                   [(small_file_unique_id photo, small_file_id photo,
                     Contract.linked_file d bot_id (small_file_unique_id photo));
                    (big_file_unique_id photo, big_file_id photo,
                     Contract.linked_file d bot_id (big_file_unique_id photo))]).*1
                = missing_links d bot_id photo).
  { unfold missing_links. simpl.
    by destruct (Contract.linked_file d bot_id (small_file_unique_id photo)),
                (Contract.linked_file d bot_id (big_file_unique_id photo)),
                (String.eqb (small_file_id photo) ""),
                (String.eqb (big_file_id photo) ""). }
  rewrite Hmf, Hml. clear Hmf Hml.
  assert (Hnd1 : NoDup (missing_files d photo)).
  { unfold missing_files. apply NoDup_ListNoDup, List.NoDup_filter.
    apply NoDup_ListNoDup. apply NoDup_cons. split.
    - intros H. apply list_elem_of_singleton in H. done.
    - apply NoDup_singleton. }
  assert (Hfree1 : forall u, u ∈ missing_files d photo ->
                             u ∉ List.map tf_file_unique_id (telegram_files d0)).
  { intros u Hu. unfold missing_files in Hu.
    apply list_elem_of_In, List.filter_In in Hu as [_ Hu].
    apply negb_true_iff in Hu. by apply not_stored_file in Hu. }
  destruct (insert_missing_files (missing_files d photo) d0 Hnd1 Hfree1)
    as (d1 & E1 & F1 & U1 & C1 & M1 & BM1 & BF1).
  assert (Hnd2 : NoDup (List.map fst (missing_links d bot_id photo))).
  { unfold missing_links. simpl.
    destruct (negb (Contract.linked_file d bot_id (small_file_unique_id photo))
              && _), (negb (Contract.linked_file d bot_id
                              (big_file_unique_id photo)) && _); simpl;
      repeat constructor; try by intros H; apply not_elem_of_nil in H.
    intros H. apply list_elem_of_singleton in H. done. }
  assert (Hfree2 : forall x, x ∈ missing_links d bot_id photo ->
             (bot_id, fst x) ∉ List.map bot_file_pk (bot_files d1)).
  { intros x Hx. rewrite BF1. unfold missing_links in Hx.
    apply list_elem_of_In, List.filter_In in Hx as [_ Hx].
    apply andb_true_iff in Hx as [Hx _]. apply negb_true_iff in Hx.
    by apply not_linked_file in Hx. }
  destruct (insert_missing_links bot_id (missing_links d bot_id photo) d1
              Hnd2 Hfree2)
    as (d2 & E2 & BF2 & U2 & C2 & M2 & BM2 & F2).
  exists d2. unfold bind. rewrite E1, E2.
  assert (HF : telegram_files d2
               = telegram_files d
                 ++ List.map chat_photo_file (missing_files d photo))
    by (by rewrite F2, F1).
  assert (HB : bot_files d2
               = bot_files d
                 ++ List.map (chat_photo_link bot_id)
                             (missing_links d bot_id photo))
    by (by rewrite BF2, BF1).
  split; [done|]. split; [exact HF|]. split; [exact HB|].
  split; [by rewrite U2, C2, M2, BM2, U1, C1, M1, BM1|].
  split; [|split; [|split; [|split]]].
  - rewrite (stored_file_app d d2 _ _ HF). unfold missing_files. simpl.
    destruct (Contract.stored_file d (small_file_unique_id photo)); [done|].
    simpl. by rewrite String.eqb_refl.
  - rewrite (stored_file_app d d2 _ _ HF). unfold missing_files. simpl.
    destruct (Contract.stored_file d (big_file_unique_id photo));
      [done|]. simpl.
    destruct (Contract.stored_file d (small_file_unique_id photo)); simpl;
      by rewrite ?Hsb, String.eqb_refl.
  - intros Hid. apply String.eqb_neq in Hid.
    rewrite (linked_file_app d d2 _ _ _ HB). unfold missing_links. simpl.
    destruct (Contract.linked_file d bot_id (small_file_unique_id photo));
      [done|]. simpl. rewrite Hid. simpl.
    by rewrite Z.eqb_refl, String.eqb_refl.
  - intros Hid. apply String.eqb_neq in Hid.
    rewrite (linked_file_app d d2 _ _ _ HB). unfold missing_links. simpl.
    destruct (Contract.linked_file d bot_id (big_file_unique_id photo));
      [done|]. simpl. rewrite Hid. simpl.
    destruct (negb (Contract.linked_file d bot_id (small_file_unique_id photo))
              && negb (String.eqb (small_file_id photo) "")); simpl;
      by rewrite ?Hsb, ?Z.eqb_refl, ?String.eqb_refl, ?orb_true_r.
  - destruct Hkeys as [Hk1 Hk2]. split.
    + rewrite HF, List.map_app. apply NoDup_app. repeat split; [done| |].
      * intros u Hu Hu'. rewrite List.map_map in Hu'. simpl in Hu'.
        rewrite List.map_id in Hu'. by apply (Hfree1 u).
      * rewrite List.map_map. simpl. by rewrite List.map_id.
    + rewrite HB, List.map_app. apply NoDup_app. repeat split; [done| |].
      * intros k Hk Hk'.
        apply list_elem_of_In, List.in_map_iff in Hk' as (r & <- & Hr).
        apply List.in_map_iff in Hr as (x & <- & Hx).
        apply (Hfree2 x); [by apply list_elem_of_In|]. by rewrite BF1.
      * rewrite List.map_map.
        replace (List.map (fun x => bot_file_pk (chat_photo_link bot_id x))
                          (missing_links d bot_id photo))
          with (List.map (pair bot_id)
                         (List.map fst (missing_links d bot_id photo)))
          by (by rewrite List.map_map).
        apply NoDup_map_inj; [|exact Hnd2]. by intros a b [= ->].
Qed.

Lemma avatar_store_keys : file_keys_unique Avatar.store.
Proof.
  split; simpl; (apply NoDup_cons; split; [|constructor]);
    intros H; by apply not_elem_of_nil in H.
Qed.

(** Bot 8 is linked to the small avatar file; bot 9 is not. *)
Lemma chat_photo_check_entities_answers_truly_witness :
  file_keys_unique Avatar.store
  /\ chat_photo_check_entities Avatar.photo 9 Avatar.store
     = Ok ([("AQADs", true, false); ("AQADb", false, false)],
           executes SelectChatPhoto Avatar.store)
  /\ chat_photo_check_entities Avatar.photo 8 Avatar.store
     = Ok ([("AQADs", true, true); ("AQADb", false, false)],
           executes SelectChatPhoto Avatar.store).
Proof.
  split; [exact avatar_store_keys|]. split.
  - exact (chat_photo_check_entities_answers_truly Avatar.photo 9 Avatar.store
             avatar_store_keys).
  - exact (chat_photo_check_entities_answers_truly Avatar.photo 8 Avatar.store
             avatar_store_keys).
Defined.

(** X9.  When the two avatar files of a chat have different unique
    ids, [insert_chat_photo_if_not_exist] returns; it appends a row of
    type chat_photo for each of the two files that had none and a link of
    this bot for each file the bot was not linked to (unless the file id
    is empty), and changes nothing else; afterwards both files are stored,
    each with a non-empty file id is linked to the bot, and the primary
    keys still hold. *)
Theorem insert_chat_photo_stores_and_links_what_is_missing
    (photo : ChatPhoto) (bot_id : Z) (d : db) :
  file_keys_unique d ->
  small_file_unique_id photo <> big_file_unique_id photo ->
  exists d',
    insert_chat_photo_if_not_exist photo bot_id d = Ok (tt, d')
    /\ telegram_files d'
       = telegram_files d ++ List.map chat_photo_file (missing_files d photo)
    /\ bot_files d'
       = bot_files d
         ++ List.map (chat_photo_link bot_id) (missing_links d bot_id photo)
    /\ (telegram_users d', telegram_chats d', telegram_messages d',
        bot_messages d')
       = (telegram_users d, telegram_chats d, telegram_messages d,
          bot_messages d)
    /\ Contract.stored_file d' (small_file_unique_id photo) = true
    /\ Contract.stored_file d' (big_file_unique_id photo) = true
    /\ (small_file_id photo <> "" ->
        Contract.linked_file d' bot_id (small_file_unique_id photo) = true)
    /\ (big_file_id photo <> "" ->
        Contract.linked_file d' bot_id (big_file_unique_id photo) = true)
    /\ file_keys_unique d'.
Proof. apply insert_chat_photo_outcome. Qed.

(** The small file is stored and linked to bot 8: for bot 9 the big
    file gets a row and both files get a link. *)
Lemma insert_chat_photo_stores_and_links_what_is_missing_witness :
  file_keys_unique Avatar.store
  /\ exists d',
      insert_chat_photo_if_not_exist Avatar.photo 9 Avatar.store = Ok (tt, d')
      /\ telegram_files d'
         = [chat_photo_file "AQADs"; chat_photo_file "AQADb"]
      /\ bot_files d'
         = [chat_photo_link 8 ("AQADs", "AQADsmall8");
            chat_photo_link 9 ("AQADs", "AQADsmall");
            chat_photo_link 9 ("AQADb", "AQADbig")].
Proof.
  split; [exact avatar_store_keys|].
  destruct (insert_chat_photo_stores_and_links_what_is_missing
              Avatar.photo 9 Avatar.store avatar_store_keys)
    as (d' & Hrun & Hf & Hb & _).
  - discriminate.
  - exists d'. split; [exact Hrun|]. split; [exact Hf|exact Hb].
Defined.

Lemma insert_chat_photo_nothing_missing (photo : ChatPhoto) (bot_id : Z)
    (d : db) :
  file_keys_unique d ->
  Contract.stored_file d (small_file_unique_id photo) = true ->
  Contract.stored_file d (big_file_unique_id photo) = true ->
  Contract.linked_file d bot_id (small_file_unique_id photo) = true ->
  Contract.linked_file d bot_id (big_file_unique_id photo) = true ->
  insert_chat_photo_if_not_exist photo bot_id d
  = Ok (tt, executes SelectChatPhoto d).
Proof.
  intros Hkeys H1 H2 H3 H4.
  unfold insert_chat_photo_if_not_exist, bind at 1.
  rewrite (chat_photo_rows photo bot_id d Hkeys).
  cbn [List.map]. rewrite H1, H2, H3, H4. reflexivity.
Qed.

(** X10.  [insert_chat_photo_if_not_exist] can be repeated: when both
    avatar files are stored and linked to the bot it only asks and writes
    nothing, and this is the case right after a first call for a photo
    with two different unique ids and non-empty file ids. *)
Theorem insert_chat_photo_twice_writes_once
    (photo : ChatPhoto) (bot_id : Z) (d : db) :
  file_keys_unique d ->
  (Contract.stored_file d (small_file_unique_id photo) = true ->
   Contract.stored_file d (big_file_unique_id photo) = true ->
   Contract.linked_file d bot_id (small_file_unique_id photo) = true ->
   Contract.linked_file d bot_id (big_file_unique_id photo) = true ->
   insert_chat_photo_if_not_exist photo bot_id d
   = Ok (tt, executes SelectChatPhoto d))
  /\ (small_file_unique_id photo <> big_file_unique_id photo ->
      small_file_id photo <> "" -> big_file_id photo <> "" ->
      exists d1,
        insert_chat_photo_if_not_exist photo bot_id d = Ok (tt, d1)
        /\ insert_chat_photo_if_not_exist photo bot_id d1
           = Ok (tt, executes SelectChatPhoto d1)).
Proof.
  intros Hkeys. split; [by apply insert_chat_photo_nothing_missing|].
  intros Hne Hs Hb.
  destruct (insert_chat_photo_outcome photo bot_id d Hkeys Hne)
    as (d1 & Hrun & _ & _ & _ & S1 & S2 & L1 & L2 & Hkeys1).
  exists d1. split; [done|].
  apply insert_chat_photo_nothing_missing; auto.
Qed.

Lemma insert_chat_photo_twice_writes_once_witness :
  file_keys_unique Avatar.store
  /\ exists d1,
      insert_chat_photo_if_not_exist Avatar.photo 9 Avatar.store = Ok (tt, d1)
      /\ insert_chat_photo_if_not_exist Avatar.photo 9 d1
         = Ok (tt, executes SelectChatPhoto d1).
Proof.
  split; [exact avatar_store_keys|].
  apply (proj2 (insert_chat_photo_twice_writes_once Avatar.photo 9
                  Avatar.store avatar_store_keys)); discriminate.
Defined.

Lemma bulk_insert_files_twice (u : string) (d : db) :
  bulk_insert_files [chat_photo_dict u; chat_photo_dict u] d
  = Err IntegrityError.
Proof.
  change [chat_photo_dict u; chat_photo_dict u]
    with (List.map chat_photo_dict [u; u]).
  unfold bulk_insert_files, bind, lift.
  rewrite (bulk_prepare_chat_photo_files [u; u]).
  unfold log_statement, get_db, required. cbn [telegram_files List.map].
  by rewrite insert_rows_twice.
Qed.

Lemma bulk_insert_bot_files_twice (u i : string) (bot_id : Z) (d : db) :
  bulk_insert_bot_files [(u, JStr i); (u, JStr i)] bot_id d
  = Err IntegrityError.
Proof.
  unfold bulk_insert_bot_files, bind, lift.
  cbn [traverse bot_file_row want_str].
  unfold log_statement, get_db, required. cbn [bot_files].
  by rewrite insert_rows_twice.
Qed.

(** X11.  When the small and the big avatar file have one and the same
    unique id, [insert_chat_photo_if_not_exist] works only if there is
    nothing to write: the file is asked about twice, so a missing row or
    a missing link is put into the batch twice and the INSERT fails on the
    primary key. *)
Theorem insert_chat_photo_same_id_twice_in_batch
    (photo : ChatPhoto) (bot_id : Z) (d : db) :
  file_keys_unique d ->
  small_file_unique_id photo = big_file_unique_id photo ->
  insert_chat_photo_if_not_exist photo bot_id d
  = if Contract.stored_file d (big_file_unique_id photo)
       && (Contract.linked_file d bot_id (big_file_unique_id photo)
           || String.eqb (big_file_id photo) "")
    then Ok (tt, executes SelectChatPhoto d)
    else Err IntegrityError.
Proof.
  intros Hkeys Heq.
  unfold insert_chat_photo_if_not_exist, bind at 1.
  rewrite (chat_photo_rows photo bot_id d Hkeys).
  cbn [List.map]. rewrite Heq.
  unfold insert_chat_photo_entities, chat_photo_bot_files, item.
  rewrite Heq, String.eqb_refl.
  set (u := big_file_unique_id photo).
  destruct (Contract.stored_file d u) eqn:Es,
           (Contract.linked_file d bot_id u) eqn:El;
    cbn -[bulk_insert_files bulk_insert_bot_files];
    rewrite ?String.eqb_refl;
    cbn -[bulk_insert_files bulk_insert_bot_files];
    destruct (String.eqb (big_file_id photo) "") eqn:Ei;
    cbn -[bulk_insert_files bulk_insert_bot_files];
    try reflexivity.
  - unfold bind.
    match goal with
    | |- context [bulk_insert_bot_files ?l bot_id ?d0] =>
        change (bulk_insert_bot_files l bot_id d0)
          with (bulk_insert_bot_files
                  [(u, JStr (big_file_id photo)); (u, JStr (big_file_id photo))]
                  bot_id d0)
    end.
    by rewrite bulk_insert_bot_files_twice.
  - unfold bind.
    match goal with
    | |- context [bulk_insert_files ?l ?d0] =>
        change (bulk_insert_files l d0)
          with (bulk_insert_files [chat_photo_dict u; chat_photo_dict u] d0)
    end.
    by rewrite bulk_insert_files_twice.
  - unfold bind.
    match goal with
    | |- context [bulk_insert_files ?l ?d0] =>
        change (bulk_insert_files l d0)
          with (bulk_insert_files [chat_photo_dict u; chat_photo_dict u] d0)
    end.
    by rewrite bulk_insert_files_twice.
  - unfold bind.
    match goal with
    | |- context [bulk_insert_files ?l ?d0] =>
        change (bulk_insert_files l d0)
          with (bulk_insert_files [chat_photo_dict u; chat_photo_dict u] d0)
    end.
    by rewrite bulk_insert_files_twice.
  - unfold bind.
    match goal with
    | |- context [bulk_insert_files ?l ?d0] =>
        change (bulk_insert_files l d0)
          with (bulk_insert_files [chat_photo_dict u; chat_photo_dict u] d0)
    end.
    by rewrite bulk_insert_files_twice.
Qed.

(** The one file of the square photo is stored but bot 9 has no link
    to it: the link is put into the batch twice. *)
Lemma insert_chat_photo_same_id_twice_in_batch_witness :
  file_keys_unique Avatar.store
  /\ small_file_unique_id Avatar.square = big_file_unique_id Avatar.square
  /\ insert_chat_photo_if_not_exist Avatar.square 9 Avatar.store
     = Err IntegrityError.
Proof.
  split; [exact avatar_store_keys|]. split; [reflexivity|].
  exact (insert_chat_photo_same_id_twice_in_batch Avatar.square 9 Avatar.store
           avatar_store_keys eq_refl).
Defined.

(** ** What log_object does with an answer of the resolver *)

Lemma nonempty_map {A B} (f : A -> B) (l : list A) :
  nonempty (List.map f l) = nonempty l.
Proof. by destruct l. Qed.

Lemma nonempty_traverse {A B} (f : A -> result B) (xs : list A) (ys : list B) :
  traverse f xs = Ok ys -> nonempty ys = nonempty xs.
Proof.
  intros H. apply traverse_length in H. by destruct xs, ys.
Qed.

(** X12.  Whatever the resolver answered, the part of [log_object]
    that follows only appends: every table afterwards is the table before
    with new rows at its end, no stored row is changed or removed, and
    each of the six flags returned tells whether its table got new
    rows. *)
Theorem log_object_apply_only_appends (e : entities)
    (check_result : list check_row) (bot_id : Z) (d d' : db) (res : flags) :
  log_object_apply e check_result bot_id d = Ok (res, d') ->
  exists users chats messages links files file_links,
    telegram_users d' = telegram_users d ++ users
    /\ telegram_chats d' = telegram_chats d ++ chats
    /\ telegram_messages d' = telegram_messages d ++ messages
    /\ bot_messages d' = bot_messages d ++ links
    /\ telegram_files d' = telegram_files d ++ files
    /\ bot_files d' = bot_files d ++ file_links
    /\ res = (nonempty users, nonempty chats, nonempty messages,
              nonempty links, nonempty files, nonempty file_links).
Proof.
  intros H.
  apply log_object_apply_tables in H
    as (b & chats & files & links & _ & Hc & Hf & Hl
        & U & C & M & BM & F & BF & ->).
  eexists _, _, _, _, _, _.
  repeat (split; [eassumption|]).
  unfold bulk_prepare_messages, bot_message_rows.
  rewrite !nonempty_map.
  by rewrite (nonempty_traverse _ _ _ Hc), (nonempty_traverse _ _ _ Hf),
    (nonempty_traverse _ _ _ Hl).
Qed.

(** Users 0 and 7 are reported as new: one row is appended to the user
    table and the first flag alone is set. *)
Lemma log_object_apply_only_appends_witness :
  exists e res d' users,
    collect_entities Sample.two_users 1%positive = Ok e
    /\ log_object_apply e Sample.both_new 9 Sample.user_store = Ok (res, d')
    /\ telegram_users d' = telegram_users Sample.user_store ++ users
    /\ res = (nonempty users, false, false, false, false, false).
Proof.
  set (e := entities_of [Sample.user 0; Sample.user 7] [] [] []).
  assert (He : collect_entities Sample.two_users 1%positive = Ok e)
    by (vm_compute; reflexivity).
  assert (Hrun : exists res d',
             log_object_apply e Sample.both_new 9 Sample.user_store
             = Ok (res, d'))
    by (eexists _, _; vm_compute; reflexivity).
  destruct Hrun as (res & d' & Hrun).
  destruct (log_object_apply_only_appends _ _ _ _ _ _ Hrun)
    as (users & chats & messages & links & files & file_links
        & U & C & M & BM & F & BF & R).
  exists e, res, d', users. split; [exact He|].
  split; [exact Hrun|]. split; [exact U|].
  rewrite R.
  assert (Hd' : (telegram_chats d', telegram_messages d', bot_messages d',
                 telegram_files d', bot_files d') = ([], [], [], [], [])).
  { revert Hrun. vm_compute. by intros [= <- <-]. }
  inversion Hd' as [[E1 E2 E3 E4 E5]].
  rewrite E1 in C. rewrite E2 in M. rewrite E3 in BM. rewrite E4 in F.
  rewrite E5 in BF. simpl in C, M, BM, F, BF.
  by subst chats messages links files file_links.
Defined.

(** ** What the dispatcher passes over *)

Lemma eqb_not_elem (k x : string) (ks : list string) :
  k ∉ ks -> x ∈ ks -> String.eqb k x = false.
Proof. intros Hk Hx. apply String.eqb_neq. by intros ->. Qed.

(** X13.  [log_telegram_request] looks at the results of the methods
    it knows by name and at nothing else: a Boolean result, a list result
    of a method other than getUpdates, sendMediaGroup, copyMessages and
    forwardMessages, and any other result of a method that is not
    getChatFullInfo, getMe, copyMessage or one of the two sets of message
    methods, is passed over without a statement; and the names it tests
    for are all different, so that the order of the tests does not
    matter. *)
Theorem log_telegram_request_ignores_other_methods
    (lib : telegram_lib) (req : jdict) (data : json) (method : string)
    (bot_id : Z) (d : db) :
  ((exists b, data = JBool b)
   \/ ((exists items, data = JList items)
       /\ method ∉ ["getUpdates"; "sendMediaGroup"; "copyMessages";
                    "forwardMessages"])
   \/ ((forall items, data <> JList items)
       /\ method ∉ ["getChatFullInfo"; "getMe"; "copyMessage"]
                   ++ MESSAGE_RETURNED_METHODS
                   ++ EDITED_MESSAGE_RETURNED_METHODS) ->
   log_telegram_request lib req data method bot_id d = Ok (tt, d))
  /\ NoDup (["getUpdates"; "sendMediaGroup"; "copyMessages";
             "forwardMessages"; "getChatFullInfo"; "getMe"; "copyMessage"]
            ++ MESSAGE_RETURNED_METHODS ++ EDITED_MESSAGE_RETURNED_METHODS).
Proof.
  split.
  - intros [[b ->]|[[[items ->] Hm]|[Hd Hm]]]; [done| |].
    + unfold log_telegram_request.
      rewrite (eqb_not_elem _ "getUpdates" _ Hm) by set_solver.
      rewrite (eqb_not_elem _ "sendMediaGroup" _ Hm) by set_solver.
      rewrite (eqb_not_elem _ "copyMessages" _ Hm) by set_solver.
      rewrite (eqb_not_elem _ "forwardMessages" _ Hm) by set_solver.
      done.
    + assert (H1 : String.eqb method "getChatFullInfo" = false)
        by (apply (eqb_not_elem _ _ _ Hm); set_solver).
      assert (H2 : String.eqb method "getMe" = false)
        by (apply (eqb_not_elem _ _ _ Hm); set_solver).
      assert (H3 : String.eqb method "copyMessage" = false)
        by (apply (eqb_not_elem _ _ _ Hm); set_solver).
      assert (H4 : str_in method MESSAGE_RETURNED_METHODS = false).
      { apply str_in_false. intros H. apply Hm.
        apply elem_of_app. right. apply elem_of_app. by left. }
      assert (H5 : str_in method EDITED_MESSAGE_RETURNED_METHODS = false).
      { apply str_in_false. intros H. apply Hm.
        apply elem_of_app. right. apply elem_of_app. by right. }
      unfold log_telegram_request. rewrite H1, H2, H3, H4, H5.
      destruct data; try done. by destruct (Hd xs).
  - apply (bool_decide_unpack _). vm_compute. exact I.
Qed.

(** The Bot API calls the method that returns the full information of
    a chat getChat: its result is passed over. *)
Lemma log_telegram_request_ignores_other_methods_witness :
  log_telegram_request Sample.offline [("chat_id", JInt 100)]
    (JDict (cfi_dict Sample.chat_info)) "getChat" 9 Sample.store
  = Ok (tt, Sample.store).
Proof.
  apply (proj1 (log_telegram_request_ignores_other_methods Sample.offline
                  [("chat_id", JInt 100)] (JDict (cfi_dict Sample.chat_info))
                  "getChat" 9 Sample.store)).
  right. right. split; [discriminate|].
  apply (bool_decide_unpack _). vm_compute. exact I.
Defined.

(** ** One-time codes *)

Lemma digit_value_digit (z : Z) :
  0 <= z <= 9 -> digit_value (digit z) = Some z.
Proof.
  intros H.
  assert (Hz : z = 0 \/ z = 1 \/ z = 2 \/ z = 3 \/ z = 4 \/ z = 5 \/ z = 6
               \/ z = 7 \/ z = 8 \/ z = 9) by lia.
  destruct Hz as [->|[->|[->|[->|[->|[->|[->|[->|[->| ->]]]]]]]]];
    reflexivity.
Qed.

Lemma string_append_assoc (a b c : string) :
  String.append (String.append a b) c = String.append a (String.append b c).
Proof.
  induction a as [|x a IH]; [done|].
  change (String x (String.append (String.append a b) c)
          = String x (String.append a (String.append b c))).
  by f_equal.
Qed.

Lemma string_length_append (a b : string) :
  String.length (String.append a b)
  = (String.length a + String.length b)%nat.
Proof. induction a as [|x a IH]; simpl; [done|]. by rewrite IH. Qed.

Lemma decimal_app (fuel : nat) :
  forall z acc, decimal fuel z acc = String.append (decimal fuel z "") acc.
Proof.
  induction fuel as [|fuel IH]; intros z acc; simpl; [done|].
  destruct (z <? 10); [done|].
  rewrite (IH _ (String _ acc)), (IH _ (String _ "")).
  by rewrite string_append_assoc.
Qed.

Lemma int_of_digits_app (s1 s2 : string) :
  forall acc,
    int_of_digits acc (String.append s1 s2)
    = match int_of_digits acc s1 with
      | Some a => int_of_digits a s2
      | None => None
      end.
Proof.
  induction s1 as [|c s1 IH]; intros acc; simpl; [done|].
  destruct (digit_value c); [apply IH|done].
Qed.

(** The digits read back give the number. *)
Lemma int_of_digits_decimal (fuel : nat) :
  forall z, 0 <= z < 2 ^ Z.of_nat fuel ->
            int_of_digits 0 (decimal fuel z "") = Some z.
Proof.
  induction fuel as [|fuel IH]; intros z Hz.
  - simpl in *. f_equal; lia.
  - simpl. destruct (z <? 10) eqn:E.
    + apply Z.ltb_lt in E. simpl.
      rewrite Z.mod_small by lia. rewrite digit_value_digit by lia.
      f_equal; lia.
    + apply Z.ltb_ge in E. rewrite decimal_app.
      assert (Hdiv : 0 <= z / 10 < 2 ^ Z.of_nat fuel).
      { split; [apply Z.div_pos; lia|].
        apply Z.div_lt_upper_bound; [lia|].
        rewrite Nat2Z.inj_succ, Z.pow_succ_r in Hz by lia. lia. }
      rewrite int_of_digits_app, (IH _ Hdiv). simpl.
      rewrite digit_value_digit
        by (pose proof (Z.mod_pos_bound z 10); lia).
      f_equal; pose proof (Z.div_mod z 10); lia.
Qed.

(** A number below [10 ^ k] has at most [k] digits, and at least one. *)
Lemma decimal_length (fuel : nat) :
  forall z (k : nat), 0 <= z < 10 ^ Z.of_nat k ->
    (1 <= String.length (decimal (S fuel) z "") <= Nat.max 1 k)%nat.
Proof.
  induction fuel as [|fuel IH]; intros z k Hz.
  - simpl. destruct (z <? 10); simpl; lia.
  - change (decimal (S (S fuel)) z "")
      with (if z <? 10 then String (digit (z mod 10)) ""
            else decimal (S fuel) (z / 10) (String (digit (z mod 10)) "")).
    destruct (z <? 10) eqn:E; [simpl; lia|].
    apply Z.ltb_ge in E. rewrite decimal_app, string_length_append.
    cbn [String.length].
    destruct k as [|k]; [simpl in Hz; lia|].
    assert (Hdiv : 0 <= z / 10 < 10 ^ Z.of_nat k).
    { split; [apply Z.div_pos; lia|].
      apply Z.div_lt_upper_bound; [lia|].
      rewrite Nat2Z.inj_succ, Z.pow_succ_r in Hz by lia. lia. }
    specialize (IH _ _ Hdiv).
    destruct k as [|k]; [simpl in Hdiv; assert (z / 10 = 0) by lia;
                         assert (z < 10) by (pose proof (Z.div_mod z 10); lia);
                         lia|].
    lia.
Qed.

Lemma int_of_digits_zeros (n : nat) (s : string) :
  int_of_digits 0 (String.append (zeros n) s) = int_of_digits 0 s.
Proof. induction n as [|n IH]; simpl; [done|]. exact IH. Qed.

Lemma zeros_length (n : nat) : String.length (zeros n) = n.
Proof. induction n as [|n IH]; simpl; [done|]. by rewrite IH. Qed.

(** A number from [10 ^ k] on has more than [k] digits. *)
Lemma decimal_length_lower (fuel : nat) :
  forall z (k : nat), 0 <= z < 2 ^ Z.of_nat fuel -> 10 ^ Z.of_nat k <= z ->
    (k < String.length (decimal fuel z ""))%nat.
Proof.
  induction fuel as [|fuel IH]; intros z k Hz Hk.
  - simpl in Hz. pose proof (Z.pow_pos_nonneg 10 (Z.of_nat k)). lia.
  - change (decimal (S fuel) z "")
      with (if z <? 10 then String (digit (z mod 10)) ""
            else decimal fuel (z / 10) (String (digit (z mod 10)) "")).
    destruct (z <? 10) eqn:E.
    + apply Z.ltb_lt in E. destruct k as [|k]; [simpl; lia|].
      rewrite Nat2Z.inj_succ, Z.pow_succ_r in Hk by lia.
      pose proof (Z.pow_pos_nonneg 10 (Z.of_nat k)). lia.
    + apply Z.ltb_ge in E. rewrite decimal_app, string_length_append.
      cbn [String.length]. destruct k as [|k]; [lia|].
      assert (Hdiv : 0 <= z / 10 < 2 ^ Z.of_nat fuel).
      { split; [apply Z.div_pos; lia|].
        apply Z.div_lt_upper_bound; [lia|].
        rewrite Nat2Z.inj_succ, Z.pow_succ_r in Hz by lia. lia. }
      assert (Hk' : 10 ^ Z.of_nat k <= z / 10).
      { apply Z.div_le_lower_bound; [lia|].
        rewrite Nat2Z.inj_succ, Z.pow_succ_r in Hk by lia. lia. }
      specialize (IH _ _ Hdiv Hk'). lia.
Qed.

Lemma log2_fuel (z : Z) :
  0 <= z -> 0 <= z < 2 ^ Z.of_nat (S (Z.to_nat (Z.log2 z))).
Proof.
  intros Hz. split; [done|].
  destruct (Z.eq_dec z 0) as [->|Hnz]; [simpl; lia|].
  pose proof (Z.log2_spec z) as Hl. pose proof (Z.log2_nonneg z).
  rewrite Nat2Z.inj_succ, Z2Nat.id by lia. lia.
Qed.

(** The digits of a number that is not negative: how many there are,
    and what they spell. *)
Lemma str_of_nonneg_spec (z : Z) (k : nat) :
  0 <= z -> (1 <= k)%nat ->
  ((String.length (str_of_nonneg z) <= k)%nat <-> z < 10 ^ Z.of_nat k)
  /\ (1 <= String.length (str_of_nonneg z))%nat
  /\ int_of_digits 0 (str_of_nonneg z) = Some z.
Proof.
  intros Hz Hk. unfold str_of_nonneg. split; [|split].
  - split.
    + intros Hlen. destruct (Z.lt_ge_cases z (10 ^ Z.of_nat k)) as [|Hge];
        [done|].
      pose proof (decimal_length_lower _ z k (log2_fuel z Hz) Hge). lia.
    + intros Hlt.
      pose proof (decimal_length (Z.to_nat (Z.log2 z)) z k
                    (conj Hz Hlt)). lia.
  - pose proof (decimal_length (Z.to_nat (Z.log2 z)) z
                  (S (Z.to_nat (Z.log2 z)))) as H.
    pose proof (log2_fuel z Hz) as [_ Hlt].
    assert (Hle : 2 ^ Z.of_nat (S (Z.to_nat (Z.log2 z)))
                  <= 10 ^ Z.of_nat (S (Z.to_nat (Z.log2 z))))
      by (apply Z.pow_le_mono_l; lia).
    assert (Hb : 0 <= z < 10 ^ Z.of_nat (S (Z.to_nat (Z.log2 z)))) by lia.
    specialize (H Hb). lia.
  - apply int_of_digits_decimal. by apply log2_fuel.
Qed.

(** [format_0d] on a number that is not negative, for any limit of the
    number of digits that is at least one. *)
Lemma format_0d_nonneg (width code : Z) :
  0 <= code ->
  (code < 10 ^ int_max_str_digits ->
   exists s,
     format_0d width code = Ok s
     /\ (code < 10 ^ width ->
         0 < width -> Z.of_nat (String.length s) = width)
     /\ int_of_decimal s = Some code)
  /\ (10 ^ int_max_str_digits <= code -> format_0d width code = Err ValueError).
Proof.
  intros Hcode.
  assert (HL : int_max_str_digits = Z.of_nat (Z.to_nat int_max_str_digits))
    by (rewrite Z2Nat.id; [done|unfold int_max_str_digits; lia]).
  assert (HL1 : (1 <= Z.to_nat int_max_str_digits)%nat)
    by (unfold int_max_str_digits; lia).
  destruct (str_of_nonneg_spec code (Z.to_nat int_max_str_digits) Hcode HL1)
    as (Hlim & Hone & Hval).
  rewrite <- HL in Hlim.
  unfold format_0d. rewrite Z.abs_eq by done.
  set (s := str_of_nonneg code) in *.
  split.
  - intros Hlt. apply Hlim in Hlt.
    replace (int_max_str_digits <? Z.of_nat (String.length s)) with false
      by (symmetry; apply Z.ltb_ge; lia).
    replace (code <? 0) with false by (symmetry; apply Z.ltb_ge; lia).
    eexists. split; [reflexivity|]. split.
    + intros Hw Hpos.
      destruct (str_of_nonneg_spec code (Z.to_nat width) Hcode ltac:(lia))
        as (Hwid & _ & _).
      rewrite Z2Nat.id in Hwid by lia. apply Hwid in Hw. fold s in Hw.
      rewrite string_length_append, zeros_length. lia.
    + unfold int_of_decimal.
      destruct (String.append _ s) as [|c r] eqn:E.
      * apply (f_equal String.length) in E.
        rewrite string_length_append in E. simpl in E. lia.
      * rewrite <- E. by rewrite int_of_digits_zeros.
  - intros Hge.
    replace (int_max_str_digits <? Z.of_nat (String.length s)) with true;
      [done|].
    symmetry. apply Z.ltb_lt.
    destruct (Z.lt_ge_cases int_max_str_digits (Z.of_nat (String.length s)))
      as [|Hle]; [done|].
    assert (Hlen : (String.length s <= Z.to_nat int_max_str_digits)%nat)
      by lia.
    apply Hlim in Hlen. lia.
Qed.

(** X14.  [generate_numeric_otp] refuses a length that is not positive
    with [ValueError].  For a positive length [n] it returns exactly [n]
    decimal digits, leading zeros included, which read as a number are
    the number that was drawn, as long as that number has no more digits
    than the interpreter turns into a string (4300); this is always so
    for [n] up to 4300.  A number of more digits makes the formatting
    raise [ValueError]. *)
Theorem generate_numeric_otp_has_n_digits (randbelow : Z -> Z) (n_digits : Z) :
  (forall upper, 0 < upper -> 0 <= randbelow upper < upper) ->
  let code := randbelow (10 ^ n_digits) in
  (n_digits <= 0 -> generate_numeric_otp randbelow n_digits = Err ValueError)
  /\ (0 < n_digits ->
      n_digits <= int_max_str_digits \/ code < 10 ^ int_max_str_digits ->
      exists otp,
        generate_numeric_otp randbelow n_digits = Ok otp
        /\ Z.of_nat (String.length otp) = n_digits
        /\ int_of_decimal otp = Some code)
  /\ (0 < n_digits -> 10 ^ int_max_str_digits <= code ->
      generate_numeric_otp randbelow n_digits = Err ValueError).
Proof.
  intros Hrand code. split; [|split].
  - intros Hn. unfold generate_numeric_otp.
    by replace (n_digits <=? 0) with true by (symmetry; by apply Z.leb_le).
  - intros Hn Hlim. unfold generate_numeric_otp.
    replace (n_digits <=? 0) with false by (symmetry; apply Z.leb_gt; lia).
    assert (Hcode : 0 <= code < 10 ^ n_digits)
      by (apply Hrand; apply Z.pow_pos_nonneg; lia).
    assert (Hlt : code < 10 ^ int_max_str_digits).
    { destruct Hlim as [Hle|Hlt]; [|done].
      assert (10 ^ n_digits <= 10 ^ int_max_str_digits)
        by (apply Z.pow_le_mono_r; lia).
      lia. }
    destruct (proj1 (format_0d_nonneg n_digits code (proj1 Hcode)) Hlt)
      as (otp & Hotp & Hlen & Hval).
    exists otp. fold code. split; [done|]. split; [|done].
    apply Hlen; lia.
  - intros Hn Hge. unfold generate_numeric_otp.
    replace (n_digits <=? 0) with false by (symmetry; apply Z.leb_gt; lia).
    assert (Hcode : 0 <= code < 10 ^ n_digits)
      by (apply Hrand; apply Z.pow_pos_nonneg; lia).
    fold code. by apply (proj2 (format_0d_nonneg n_digits code (proj1 Hcode))).
Qed.

(** Six digits are asked for and 42 is drawn. *)
Lemma generate_numeric_otp_has_n_digits_witness :
  generate_numeric_otp (fun _ => 42) 6 = Ok "000042"
  /\ exists otp,
      generate_numeric_otp (fun upper => upper - 1) 6 = Ok otp
      /\ Z.of_nat (String.length otp) = 6
      /\ int_of_decimal otp = Some 999999.
Proof.
  split; [reflexivity|].
  apply (proj1 (proj2 (generate_numeric_otp_has_n_digits
                         (fun upper => upper - 1) 6 ltac:(intros; lia)))).
  - lia.
  - left. unfold int_max_str_digits. lia.
Defined.

(** ** Flags of an account *)

Lemma setattr_getattr (user : Accounts.User) (f : Accounts.bool_field)
    (value : bool) :
  Accounts.getattr (Accounts.setattr user f value) f = value
  /\ Accounts.id (Accounts.setattr user f value) = Accounts.id user
  /\ Accounts.role (Accounts.setattr user f value) = Accounts.role user
  /\ Accounts.email (Accounts.setattr user f value) = Accounts.email user
  /\ Accounts.username (Accounts.setattr user f value) = Accounts.username user
  /\ Accounts.password_hash (Accounts.setattr user f value)
     = Accounts.password_hash user.
Proof. by destruct f. Qed.

(** X15.  When [update_user_bool_field] returns, it has changed one
    flag of one account and nothing else: the account with the id asked
    for had the other value of the flag and has the new one now, its id,
    role, e-mail address, name and password hash are the old ones, every
    other account is as it was; and the account is an ordinary user
    unless the caller has the role GOD. *)
Theorem update_user_bool_field_changes_one_flag
    (authorized_user : Accounts.AuthorizedUser) (user_id : Z)
    (users users' : list Accounts.User) (field_name : Accounts.bool_field)
    (value : bool) (error_msg : string) (user' : Accounts.User) :
  Accounts.update_user_bool_field authorized_user user_id users field_name
                                  value error_msg
  = inl (users', user') ->
  exists user,
    user ∈ users /\ Accounts.id user = user_id
    /\ (Accounts.role user = Accounts.UserRole.USER
        \/ Accounts.au_role authorized_user = Accounts.UserRole.GOD)
    /\ Accounts.getattr user field_name = negb value
    /\ user' = Accounts.setattr user field_name value
    /\ Accounts.getattr user' field_name = value
    /\ users' = List.map (fun u => if Accounts.id u =? user_id
                                   then user' else u) users
    /\ List.map Accounts.id users' = List.map Accounts.id users
    /\ List.map Accounts.role users' = List.map Accounts.role users
    /\ (forall u, u ∈ users -> Accounts.id u <> user_id -> u ∈ users').
Proof.
  unfold Accounts.update_user_bool_field.
  destruct (List.filter _ users) as [|user [|]] eqn:Ef; [done| |done].
  assert (Hin : List.In user (List.filter (fun u => Accounts.id u =? user_id)
                                          users))
    by (rewrite Ef; by left).
  apply List.filter_In in Hin as [Hin Hid]. apply Z.eqb_eq in Hid.
  destruct (Accounts.is_staff (Accounts.role user)
            && negb (Accounts.is_god (Accounts.au_role authorized_user)))
    eqn:Eg; [done|].
  destruct (Bool.eqb (Accounts.getattr user field_name) value) eqn:Ev; [done|].
  intros [= <- <-]. exists user.
  destruct (setattr_getattr user field_name value) as (G & I & R & _).
  split; [by apply list_elem_of_In|]. split; [done|]. split.
  { destruct (Accounts.role user); [by left| |];
      destruct (Accounts.au_role authorized_user); simpl in Eg;
      try done; by right. }
  split.
  { apply Bool.eqb_false_iff in Ev.
    destruct (Accounts.getattr user field_name), value; simpl; congruence. }
  split; [done|]. split; [done|]. split; [done|]. split; [|split].
  - rewrite List.map_map. apply List.map_ext. intros u.
    destruct (Accounts.id u =? user_id) eqn:E; [|done].
    apply Z.eqb_eq in E. congruence.
  - rewrite List.map_map. apply List.map_ext_in. intros u Hu.
    destruct (Accounts.id u =? user_id) eqn:E; [|done].
    rewrite R.
    assert (Hu' : List.In u (List.filter (fun u => Accounts.id u =? user_id)
                                         users))
      by (by apply List.filter_In).
    rewrite Ef in Hu'. destruct Hu' as [->|[]]. done.
  - intros u Hu Hne. apply list_elem_of_In, List.in_map_iff. exists u.
    split; [|by apply list_elem_of_In].
    apply Z.eqb_neq in Hne. by rewrite Hne.
Qed.

(** An administrator bans alice, an ordinary user. *)
Lemma update_user_bool_field_changes_one_flag_witness :
  exists users' user',
    Accounts.update_user_bool_field Staff.admin 1 Staff.accounts
      Accounts.Is_banned true "User is already banned"
    = inl (users', user')
    /\ List.map Accounts.is_banned users' = [true; false; false]
    /\ List.map Accounts.role users' = List.map Accounts.role Staff.accounts.
Proof.
  eexists _, _. split; [reflexivity|]. split; [reflexivity|].
  destruct (update_user_bool_field_changes_one_flag Staff.admin 1
              Staff.accounts _ Accounts.Is_banned true
              "User is already banned" _ eq_refl)
    as (user & _ & _ & _ & _ & _ & _ & _ & _ & Hroles & _).
  exact Hroles.
Defined.

Lemma filter_by_id (users : list Accounts.User) (user_id : Z) :
  NoDup (List.map Accounts.id users) ->
  List.filter (fun u => Accounts.id u =? user_id) users
  = match List.find (fun u => Accounts.id u =? user_id) users with
    | Some u => [u]
    | None => []
    end.
Proof.
  intros Hnd. apply (filter_unique Accounts.id _ user_id); [done|].
  intros r Hr. by apply Z.eqb_eq.
Qed.

(** X16.  The refusals of [update_user_bool_field], for a table whose
    ids are unique: an unknown id is 404; an administrator or a god can
    only be touched by a god, anyone else gets 403, before the flag is
    looked at; a flag that already has the value is 409 with the message
    of the caller, so that a request repeated after it went through is
    refused with 409; and none of the refusals changes the table. *)
Theorem update_user_bool_field_refusals
    (authorized_user : Accounts.AuthorizedUser) (user_id : Z)
    (users : list Accounts.User) (field_name : Accounts.bool_field)
    (value : bool) (error_msg : string) :
  NoDup (List.map Accounts.id users) ->
  let run users :=
    Accounts.update_user_bool_field authorized_user user_id users field_name
                                    value error_msg in
  (user_id ∉ List.map Accounts.id users ->
   run users = inr (Accounts.HTTPException 404 "User not found"))
  /\ (forall user, user ∈ users -> Accounts.id user = user_id ->
        Accounts.role user <> Accounts.UserRole.USER ->
        Accounts.au_role authorized_user <> Accounts.UserRole.GOD ->
        run users = inr (Accounts.HTTPException 403 "Forbidden"))
  /\ (forall user, user ∈ users -> Accounts.id user = user_id ->
        (Accounts.role user = Accounts.UserRole.USER
         \/ Accounts.au_role authorized_user = Accounts.UserRole.GOD) ->
        Accounts.getattr user field_name = value ->
        run users = inr (Accounts.HTTPException 409 error_msg))
  /\ (forall users' user',
        run users = inl (users', user') ->
        NoDup (List.map Accounts.id users')
        /\ run users' = inr (Accounts.HTTPException 409 error_msg)).
Proof.
  intros Hnd run.
  assert (Hfound : forall users user,
             NoDup (List.map Accounts.id users) ->
             user ∈ users -> Accounts.id user = user_id ->
             List.filter (fun u => Accounts.id u =? user_id) users = [user]).
  { intros us user Hn Hin Hid. rewrite (filter_by_id us user_id Hn).
    destruct (List.find _ us) as [u|] eqn:E.
    - apply List.find_some in E as [Hu Hi]. apply Z.eqb_eq in Hi.
      f_equal. clear -Hn Hin Hu Hid Hi. apply list_elem_of_In in Hu.
      induction us as [|x us IH]; [by apply not_elem_of_nil in Hin|].
      simpl in Hn. apply NoDup_cons in Hn as [Hx Hn].
      apply elem_of_cons in Hin as [->|Hin], Hu as [->|Hu]; try done.
      + exfalso. apply Hx. rewrite Hid, <- Hi.
        apply list_elem_of_In, List.in_map. by apply list_elem_of_In.
      + exfalso. apply Hx. rewrite Hi, <- Hid.
        apply list_elem_of_In, List.in_map. by apply list_elem_of_In.
      + by apply IH.
    - apply list_elem_of_In in Hin.
      pose proof (List.find_none _ _ E user Hin) as Hn'. simpl in Hn'.
      apply Z.eqb_neq in Hn'. done. }
  split; [|split; [|split]].
  - intros Hno. unfold run, Accounts.update_user_bool_field.
    destruct (List.filter _ users) as [|u rest] eqn:Ef; [done|].
    assert (Hu : List.In u (List.filter (fun u => Accounts.id u =? user_id)
                                        users))
      by (rewrite Ef; by left).
    apply List.filter_In in Hu as [Hu Hi]. apply Z.eqb_eq in Hi.
    exfalso. apply Hno. rewrite <- Hi.
    apply list_elem_of_In, List.in_map. done.
  - intros user Hin Hid Hrole Hgod.
    unfold run, Accounts.update_user_bool_field.
    rewrite (Hfound users user Hnd Hin Hid).
    destruct (Accounts.role user), (Accounts.au_role authorized_user); done.
  - intros user Hin Hid Hok Hval.
    unfold run, Accounts.update_user_bool_field.
    rewrite (Hfound users user Hnd Hin Hid).
    replace (Accounts.is_staff (Accounts.role user)
             && negb (Accounts.is_god (Accounts.au_role authorized_user)))
      with false
      by (destruct Hok as [-> | ->]; [done|];
          by destruct (Accounts.role user)).
    rewrite Hval. by destruct value.
  - intros users' user' Hrun.
    unfold run, Accounts.update_user_bool_field in Hrun.
    destruct (List.filter _ users) as [|user [|]] eqn:Ef; [done| |done].
    assert (Hin : List.In user (List.filter (fun u => Accounts.id u =? user_id)
                                            users))
      by (rewrite Ef; by left).
    apply List.filter_In in Hin as [Hin Hid]. apply Z.eqb_eq in Hid.
    destruct (Accounts.is_staff (Accounts.role user)
              && negb (Accounts.is_god (Accounts.au_role authorized_user)))
      eqn:Eg; [done|].
    destruct (Bool.eqb (Accounts.getattr user field_name) value) eqn:Ev;
      [done|].
    inversion Hrun as [[Hus Hu]]. clear Hrun.
    destruct (setattr_getattr user field_name value) as (G & I & R & _).
    assert (Hids : List.map Accounts.id users' = List.map Accounts.id users).
    { rewrite <- Hus, List.map_map. apply List.map_ext. intros u.
      destruct (Accounts.id u =? user_id) eqn:E; [|done].
      apply Z.eqb_eq in E. rewrite Hu. congruence. }
    assert (Hnd' : NoDup (List.map Accounts.id users')) by (by rewrite Hids).
    rewrite Hus. split; [done|].
    assert (Hin' : user' ∈ users').
    { rewrite <- Hus. apply list_elem_of_In, List.in_map_iff. exists user.
      split; [|done]. replace (Accounts.id user =? user_id) with true; [done|].
      symmetry. by apply Z.eqb_eq. }
    unfold run, Accounts.update_user_bool_field.
    rewrite (Hfound users' user' Hnd' Hin') by (rewrite <- Hu; congruence).
    assert (R' : Accounts.role user' = Accounts.role user)
      by (rewrite <- Hu; exact R).
    assert (G' : Accounts.getattr user' field_name = value)
      by (rewrite <- Hu; exact G).
    rewrite R', Eg, G'. by destruct value.
Qed.

(** Bob is an administrator: another administrator (here bob himself)
    cannot ban him. *)
Lemma update_user_bool_field_refusals_witness :
  NoDup (List.map Accounts.id Staff.accounts)
  /\ Accounts.update_user_bool_field Staff.admin 2 Staff.accounts
       Accounts.Is_banned true "User is already banned"
     = inr (Accounts.HTTPException 403 "Forbidden").
Proof.
  assert (Hnd : NoDup (List.map Accounts.id Staff.accounts))
    by (apply (bool_decide_unpack _); vm_compute; exact I).
  split; [exact Hnd|].
  apply (proj1 (proj2 (update_user_bool_field_refusals Staff.admin 2
                         Staff.accounts Accounts.Is_banned true
                         "User is already banned" Hnd))
           (Staff.account 2 "bob" Accounts.UserRole.ADMIN)).
  - right. by left.
  - reflexivity.
  - discriminate.
  - discriminate.
Defined.

(** ** Clones of messages sent on behalf of a chat *)

Lemma Message_de_json_sender_chat (d : jdict) (m : TgMessage) :
  Message_de_json (JDict d) = Ok m ->
  optional Chat_de_json (dget d "sender_chat") = Ok (m_sender_chat m).
Proof.
  unfold Message_de_json.
  destruct (dget d "message_id") as [| |z| | |] eqn:Eid; try done. simpl.
  step_de_json. by intros [= <-].
Qed.

(** What [to_dict] writes for the sender chat of a row that has one:
    an id, a first name and a bot flag, and no type. *)
Lemma to_dict_sender_chat (row : TelegramMessage) :
  truthy_int (tm_sender_chat_id row) = true ->
  (forall other, tm_other_data row = Some other ->
                 dmem other "sender_chat" = false) ->
  dget (TelegramMessage_to_dict row) "sender_chat"
  = JDict [("id", jopt JInt (tm_sender_chat_id row)); ("first_name", JStr "");
           ("is_bot", JBool false)].
Proof.
  intros Hs Hother. unfold TelegramMessage_to_dict, dget.
  destruct (tm_other_data row) as [other|].
  - rewrite dlookup_dupdate_other by (by apply Hother).
    simpl. by rewrite Hs.
  - simpl. by rewrite Hs.
Qed.

(** X17.  A stored message that was sent on behalf of a chat (its
    [sender_chat_id] is set) cannot be cloned: [to_dict] writes the sender
    chat as it writes a user, without the type a chat needs, the decoding
    of the clone fails, and with it the whole loop of [copyMessages] and
    [forwardMessages]. *)
Theorem message_with_sender_chat_is_never_cloned
    (req : jdict) (method : string) (chat_id new_id : json)
    (original : TelegramMessage) (others : list (TelegramMessage * json)) :
  truthy_int (tm_sender_chat_id original) = true ->
  (forall other, tm_other_data original = Some other ->
                 dmem other "sender_chat" = false) ->
  (forall m, synthesize req method chat_id (original, new_id) <> Ok m)
  /\ (forall before ms,
        traverse (synthesize req method chat_id)
                 (before ++ (original, new_id) :: others) <> Ok ms).
Proof.
  intros Hs Hother.
  assert (Hone : forall m,
             synthesize req method chat_id (original, new_id) <> Ok m).
  { intros m. unfold synthesize, set_chat_id.
    set (d0 := dset (ddel (TelegramMessage_to_dict original) "edit_date")
                    "message_id" new_id).
    destruct (dlookup d0 "chat") as [[| | | | |chat]|] eqn:Echat; try done.
    simpl rbind.
    set (d1 := dset d0 "chat" (JDict (dset chat "id" chat_id))).
    set (d2 := if truthy (dget req "message_thread_id")
               then dset d1 "message_thread_id" (dget req "message_thread_id")
               else d1).
    set (d3 := if truthy (dget req "remove_caption")
                  && String.eqb method "copyMessages"
               then dset d2 "caption" JNull else d2).
    set (d4 := if truthy (dget req "protect_content")
               then dset d3 "has_protected_content" (JBool true) else d3).
    intros Hm. apply Message_de_json_sender_chat in Hm.
    assert (G : dget d4 "sender_chat"
                = dget (TelegramMessage_to_dict original) "sender_chat").
    { unfold d4, d3, d2, d1, d0.
      repeat match goal with
             | |- context [if ?b then _ else _] => destruct b
             end; rewrite ?dget_dset_ne, ?dget_ddel_ne by done; done. }
    rewrite G, (to_dict_sender_chat original Hs Hother) in Hm.
    destruct (tm_sender_chat_id original); done. }
  split; [exact Hone|].
  intros before. induction before as [|b before IH]; intros ms H;
    cbn [traverse List.app] in H.
  - destruct (synthesize req method chat_id (original, new_id)) as [m|] eqn:E.
    + exact (Hone m eq_refl).
    + discriminate H.
  - destruct (synthesize req method chat_id b); [|discriminate H].
    destruct (traverse _ (before ++ _)) as [ms'|] eqn:E.
    + exact (IH ms' eq_refl).
    + discriminate H.
Qed.

Lemma message_with_sender_chat_is_never_cloned_witness :
  truthy_int (tm_sender_chat_id channel_post) = true
  /\ synthesize Sample.copies_request "forwardMessages" (JInt 2)
                (channel_post, JInt 99)
     = Err TypeError.
Proof.
  split; [reflexivity|].
  destruct (synthesize Sample.copies_request "forwardMessages" (JInt 2)
              (channel_post, JInt 99)) as [m|e] eqn:E.
  - destruct (proj1 (message_with_sender_chat_is_never_cloned
                       Sample.copies_request "forwardMessages" (JInt 2)
                       (JInt 99) channel_post [] eq_refl
                       ltac:(intros other H; discriminate)) m E).
  - revert E. vm_compute. by intros [= <-].
Defined.

(** ** The token of a proxied request *)

Lemma digit_is_no_colon (c : ascii) :
  Tokens.is_digit c = true -> Ascii.eqb c ":" = false.
Proof.
  intros H. destruct (Ascii.eqb c ":") eqn:E; [|done].
  apply Ascii.eqb_eq in E. subst c. discriminate H.
Qed.

Lemma span_digits_colon (s digits body : string) :
  Tokens.span Tokens.is_digit s = (digits, String ":" body) ->
  s = String.append digits (String ":" body)
  /\ Tokens.before_colon s = digits
  /\ Tokens.after_colon s = Some body.
Proof.
  revert digits. induction s as [|c s IH]; intros digits; simpl; [done|].
  destruct (Tokens.is_digit c) eqn:Ec.
  - destruct (Tokens.span Tokens.is_digit s) as [a b] eqn:Es.
    intros [= <- ->]. destruct (IH a eq_refl) as (-> & Hb & Ha).
    rewrite (digit_is_no_colon c Ec). simpl. by rewrite Hb, Ha.
  - intros [= <- -> ->]. done.
Qed.

(** X18.  [verify_token] lets a token pass only if it is of the form
    digits, colon, secret with eight to ten digits, a bot with the number
    the digits spell is registered, and the secret is what the stored
    token of that bot decrypts to; the number of that bot is what it
    returns.  A token that is not of the form is refused with 400 whatever
    the table holds, and an unknown bot and a wrong secret are refused
    alike, with 404 and the same detail. *)
Theorem verify_token_accepts_the_stored_secret_only
    (decrypt_data : string -> option string) (bots : list Tokens.Bot)
    (token : string) :
  (forall bot_id,
      Tokens.verify_token decrypt_data bots token = inl bot_id ->
      exists digits secret bot,
        token = String.append digits (String ":" secret)
        /\ (8 <= String.length digits <= 10)%nat
        /\ int_of_decimal digits = Some bot_id
        /\ bot ∈ bots /\ Tokens.b_id bot = bot_id
        /\ decrypt_data (Tokens.b_token bot) = Some secret)
  /\ (Tokens.match_BOT_TOKEN_REGEX token = false ->
      Tokens.verify_token decrypt_data bots token
      = inr (Tokens.HTTPException 400 "Invalid Telegram bot token format"))
  /\ (forall status_code detail,
        Tokens.verify_token decrypt_data bots token
        = inr (Tokens.HTTPException status_code detail) ->
        (status_code, detail) = (400, "Invalid Telegram bot token format")
        \/ (status_code, detail) = (404, "Bot not found")).
Proof.
  split; [|split].
  - intros bot_id. unfold Tokens.verify_token.
    destruct (String.eqb token "" || negb (Tokens.match_BOT_TOKEN_REGEX token))
      eqn:Ef; [done|].
    apply orb_false_iff in Ef as [_ Hm]. apply negb_false_iff in Hm.
    unfold Tokens.match_BOT_TOKEN_REGEX in Hm.
    destruct (Tokens.span Tokens.is_digit token) as [digits rest] eqn:Es.
    apply andb_true_iff in Hm as [Hlen Hrest].
    apply andb_true_iff in Hlen as [H8 H10].
    apply Nat.leb_le in H8, H10.
    destruct rest as [|c body]; [done|].
    destruct (Ascii.eqb c ":") eqn:Ec;
      [|by destruct c as [[] [] [] [] [] [] [] []]].
    apply Ascii.eqb_eq in Ec. subst c.
    destruct (span_digits_colon token digits body Es) as (Htok & Hb & Ha).
    rewrite Hb, Ha.
    destruct (int_of_decimal digits) as [n|] eqn:En; [|done].
    destruct (List.filter _ bots) as [|bot [|]] eqn:Eb; [done| |done].
    destruct (decrypt_data (Tokens.b_token bot)) as [secret|] eqn:Ed; [|done].
    destruct (negb (String.eqb body secret)) eqn:Eq; [done|].
    intros [= <-]. apply negb_false_iff, String.eqb_eq in Eq. subst secret.
    assert (Hin : List.In bot (List.filter (fun b => Tokens.b_id b =? n) bots))
      by (rewrite Eb; by left).
    apply List.filter_In in Hin as [Hin Hid]. apply Z.eqb_eq in Hid.
    exists digits, body, bot. repeat split; try done.
    by apply list_elem_of_In.
  - intros Hm. unfold Tokens.verify_token. by rewrite Hm, orb_true_r.
  - intros status_code detail. unfold Tokens.verify_token.
    destruct (String.eqb token "" || _); [intros [= <- <-]; by left|].
    destruct (int_of_decimal _); [|done].
    destruct (List.filter _ bots) as [|bot [|]];
      [intros [= <- <-]; by right| |done].
    destruct (Tokens.after_colon token); [|done].
    destruct (decrypt_data _); [|done].
    destruct (negb _); [intros [= <- <-]; by right|done].
Qed.

(** The token of the registered bot passes; the same token with
    another secret of the right form is refused like an unknown bot. *)
Lemma verify_token_accepts_the_stored_secret_only_witness :
  Tokens.verify_token Registered.decrypt_data Registered.bots
    (String.append "123456789:" Registered.secret)
  = inl 123456789
  /\ exists digits secret bot,
      String.append "123456789:" Registered.secret
      = String.append digits (String ":" secret)
      /\ bot ∈ Registered.bots
      /\ Registered.decrypt_data (Tokens.b_token bot) = Some secret.
Proof.
  split; [reflexivity|].
  destruct (proj1 (verify_token_accepts_the_stored_secret_only
                     Registered.decrypt_data Registered.bots
                     (String.append "123456789:" Registered.secret))
              123456789 eq_refl)
    as (digits & secret & bot & Htok & _ & _ & Hin & _ & Hd).
  by exists digits, secret, bot.
Defined.

(** ** Chats named by a full chat info *)

Lemma chat_values_Ok (chat : TgChat) (c : TelegramChat) :
  chat_values chat = Ok c ->
  tc_id c = c_id chat
  /\ Upsert.full_info c = (None, None, None, None, None, None).
Proof.
  unfold chat_values. destruct (ChatType_of_value _); [|done].
  by intros [= <-].
Qed.

(** One turn of the loop of [log_chats]. *)
Lemma log_chat_step (existing_chats : list TelegramChat) (chat : TgChat)
    (d d' : db) :
  Upsert.log_chat existing_chats chat d = Ok (tt, d') ->
  exists c,
    chat_values chat = Ok c
    /\ (if existsb (fun row => tc_id row =? c_id chat) existing_chats
        then telegram_chats d'
             = List.map (fun row => if tc_id row =? c_id chat
                                    then Upsert.assign c row else row)
                        (telegram_chats d)
        else telegram_chats d' = telegram_chats d ++ [c]
             /\ c_id chat ∉ List.map tc_id (telegram_chats d))
    /\ (telegram_users d', telegram_messages d', telegram_files d',
        bot_messages d', bot_files d')
       = (telegram_users d, telegram_messages d, telegram_files d,
          bot_messages d, bot_files d).
Proof.
  unfold Upsert.log_chat, bind, lift, get_db.
  destruct (chat_values chat) as [c|] eqn:Ec; [|done].
  exists c. split; [done|].
  destruct (chat_values_Ok chat c Ec) as [Hid _].
  destruct (existsb _ existing_chats).
  - unfold log_statement, set_chats in H. by inversion H.
  - unfold log_statement, required, insert_rows, set_chats, ret, raise in H.
    cbn [telegram_chats] in H.
    destruct (pk_free tc_id (telegram_chats d) (tc_id c)) eqn:Ef; [|done].
    apply pk_free_spec in Ef. rewrite Hid in Ef. by inversion H.
Qed.

Lemma log_chat_runs (existing_chats : list TelegramChat) (chat : TgChat)
    (d : db) :
  ChatType_of_value (c_type chat) <> None ->
  (existsb (fun row => tc_id row =? c_id chat) existing_chats = false ->
   c_id chat ∉ List.map tc_id (telegram_chats d)) ->
  exists d', Upsert.log_chat existing_chats chat d = Ok (tt, d').
Proof.
  intros Htype Hfree. unfold Upsert.log_chat, bind, lift, get_db.
  destruct (chat_values chat) as [c|] eqn:Ec.
  - destruct (chat_values_Ok chat c Ec) as [Hid _].
    destruct (existsb _ existing_chats).
    + by eexists.
    + unfold log_statement, required, insert_rows, set_chats, ret.
      cbn [telegram_chats].
      replace (pk_free tc_id (telegram_chats d) (tc_id c)) with true;
        [by eexists|].
      symmetry. apply pk_free_spec. rewrite Hid. by apply Hfree.
  - unfold chat_values in Ec. by destruct (ChatType_of_value (c_type chat)).
Qed.

Lemma map_assign_ids (c : TelegramChat) (k : Z) (rows : list TelegramChat) :
  List.map tc_id (List.map (fun row => if tc_id row =? k
                                       then Upsert.assign c row else row) rows)
  = List.map tc_id rows
  /\ List.map Upsert.full_info
       (List.map (fun row => if tc_id row =? k
                             then Upsert.assign c row else row) rows)
     = List.map Upsert.full_info rows.
Proof.
  rewrite !List.map_map. split; apply List.map_ext; intros row;
    by destruct (tc_id row =? k).
Qed.

Lemma log_chats_loop_keeps (E : list TelegramChat) (chats : list (Z * TgChat)) :
  forall d0 d',
    for_each (fun kc => Upsert.log_chat E (snd kc)) chats d0 = Ok (tt, d') ->
    exists new,
      List.map tc_id (telegram_chats d')
      = List.map tc_id (telegram_chats d0) ++ List.map tc_id new
      /\ List.map Upsert.full_info (telegram_chats d')
         = List.map Upsert.full_info (telegram_chats d0)
           ++ List.map (fun _ => (None, None, None, None, None, None)) new
      /\ (telegram_users d', telegram_messages d', telegram_files d',
          bot_messages d', bot_files d')
         = (telegram_users d0, telegram_messages d0, telegram_files d0,
            bot_messages d0, bot_files d0).
Proof.
  induction chats as [|[k chat] rest IH]; intros d0 d'; simpl.
  - intros [= <-]. exists []. by rewrite !app_nil_r.
  - unfold bind at 1.
    destruct (Upsert.log_chat E chat d0) as [[[] d1]|] eqn:E1; [|done].
    intros Hrest. apply IH in Hrest as (new & Hids & Hfull & Hother).
    apply log_chat_step in E1 as (c & Hc & Hstep & Hother1).
    destruct (chat_values_Ok chat c Hc) as [Hid Hnull].
    destruct (existsb _ E).
    + exists new. rewrite Hstep in Hids, Hfull.
      destruct (map_assign_ids c (c_id chat) (telegram_chats d0)) as [Hi Hf].
      rewrite Hi in Hids. rewrite Hf in Hfull.
      split; [done|]. split; [done|]. congruence.
    + destruct Hstep as [Hstep _]. exists (c :: new).
      rewrite Hstep, List.map_app, <- app_assoc in Hids, Hfull.
      simpl in Hids, Hfull. rewrite Hnull in Hfull.
      split; [done|]. split; [done|]. congruence.
Qed.

(** X19.  [log_chats] never touches what only a full chat info fills
    in: when it returns, the rows that were stored are all still there, in
    place and under their ids, each with the personal chat, parent chat,
    pinned message, photo ids and overflow it had; the rows that were
    added come after them and have these columns empty; and no other
    table is changed. *)
Theorem log_chats_keeps_the_full_info (chats : list (Z * TgChat))
    (d d' : db) :
  Upsert.log_chats chats d = Ok (tt, d') ->
  exists new,
    List.map tc_id (telegram_chats d')
    = List.map tc_id (telegram_chats d) ++ List.map tc_id new
    /\ List.map Upsert.full_info (telegram_chats d')
       = List.map Upsert.full_info (telegram_chats d)
         ++ List.map (fun _ => (None, None, None, None, None, None)) new
    /\ (telegram_users d', telegram_messages d', telegram_files d',
        bot_messages d', bot_files d')
       = (telegram_users d, telegram_messages d, telegram_files d,
          bot_messages d, bot_files d).
Proof.
  intros H. unfold Upsert.log_chats in H.
  apply bind_Ok in H as ([] & d1 & Hlog & H).
  apply bind_Ok in H as (d2 & d3 & Hget & H).
  inversion Hlog; subst d1. inversion Hget; subst d2 d3. clear Hlog Hget.
  apply log_chats_loop_keeps in H as (new & Hids & Hfull & Hother).
  by exists new.
Qed.

Lemma log_chats_loop (E : list TelegramChat) (rest : list (Z * TgChat)) :
  forall d,
    NoDup (List.map tc_id (telegram_chats d)) ->
    NoDup (List.map fst rest) ->
    (forall kc, kc ∈ rest -> fst kc = c_id (snd kc)) ->
    (forall kc, kc ∈ rest ->
       existsb (fun row => tc_id row =? fst kc) E = true
       <-> fst kc ∈ List.map tc_id (telegram_chats d)) ->
    (forall kc, kc ∈ rest -> ChatType_of_value (c_type (snd kc)) <> None) ->
    exists d',
      for_each (fun kc => Upsert.log_chat E (snd kc)) rest d = Ok (tt, d')
      /\ NoDup (List.map tc_id (telegram_chats d'))
      /\ (forall row, row ∈ telegram_chats d ->
            tc_id row ∉ List.map fst rest -> row ∈ telegram_chats d')
      /\ (forall kc, kc ∈ rest ->
            exists row c,
              chat_values (snd kc) = Ok c
              /\ row ∈ telegram_chats d' /\ tc_id row = fst kc
              /\ Upsert.basic row = Upsert.basic c).
Proof.
  induction rest as [|[k chat] rest IH]; intros d Hnd Hkeys Hid Hin Htype.
  - exists d. split; [done|]. split; [done|]. split; [done|].
    intros kc Hkc. by apply not_elem_of_nil in Hkc.
  - simpl in Hkeys. apply NoDup_cons in Hkeys as [Hk Hkeys].
    assert (Hkid : k = c_id chat) by (apply (Hid (k, chat)); by left).
    destruct (log_chat_runs E chat d) as [d1 E1].
    { apply (Htype (k, chat)). by left. }
    { intros Hex Hstored. rewrite <- Hkid in Hex, Hstored.
      apply (Hin (k, chat)) in Hstored; [|by left]. simpl in Hstored.
      congruence. }
    pose proof (log_chat_step E chat d d1 E1) as (c & Hc & Hstep & _).
    destruct (chat_values_Ok chat c Hc) as [Hcid _].
    assert (Hsame : forall kc, kc ∈ rest ->
               fst kc ∈ List.map tc_id (telegram_chats d1)
               <-> fst kc ∈ List.map tc_id (telegram_chats d)).
    { intros kc Hkc.
      assert (Hne : fst kc <> k).
      { intros Heq. apply Hk. rewrite <- Heq.
        apply list_elem_of_In, List.in_map. by apply list_elem_of_In. }
      destruct (existsb _ E).
      - rewrite Hstep.
        by rewrite (proj1 (map_assign_ids c (c_id chat) (telegram_chats d))).
      - destruct Hstep as [-> _]. rewrite List.map_app, elem_of_app. simpl.
        rewrite list_elem_of_singleton. split; [|by left].
        intros [H|H]; [done|]. congruence. }
    assert (Hnd1 : NoDup (List.map tc_id (telegram_chats d1))).
    { destruct (existsb _ E).
      - rewrite Hstep.
        by rewrite (proj1 (map_assign_ids c (c_id chat) (telegram_chats d))).
      - destruct Hstep as [-> Hfree]. rewrite List.map_app. simpl.
        apply NoDup_app. repeat split; [done| |apply NoDup_singleton].
        intros x Hx Hx'. apply list_elem_of_singleton in Hx'. congruence. }
    destruct (IH d1 Hnd1 Hkeys) as (d' & Hrun & Hnd' & Hkeep & Hpost).
    { intros kc Hkc. apply Hid. by right. }
    { intros kc Hkc. rewrite (Hsame kc Hkc). apply Hin. by right. }
    { intros kc Hkc. apply Htype. by right. }
    exists d'. split; [|split; [done|split]].
    + simpl. unfold bind. by rewrite E1.
    + intros row Hrow Hnot. simpl in Hnot. apply not_elem_of_cons in Hnot
        as [Hnk Hnot].
      apply Hkeep; [|done].
      destruct (existsb _ E).
      * rewrite Hstep. apply list_elem_of_In, List.in_map_iff. exists row.
        split; [|by apply list_elem_of_In].
        replace (tc_id row =? c_id chat) with false; [done|].
        symmetry. apply Z.eqb_neq. congruence.
      * destruct Hstep as [-> _]. apply elem_of_app. by left.
    + intros kc Hkc. apply elem_of_cons in Hkc as [->|Hkc];
        [|by apply Hpost].
      simpl. 
      assert (Hrow1 : exists row,
                 row ∈ telegram_chats d1 /\ tc_id row = k
                 /\ Upsert.basic row = Upsert.basic c).
      { destruct (existsb (fun row => tc_id row =? c_id chat) E) eqn:Ee.
        - assert (Hst : k ∈ List.map tc_id (telegram_chats d)).
          { apply (Hin (k, chat)); [by left|]. simpl. by rewrite Hkid. }
          apply list_elem_of_In, List.in_map_iff in Hst as (row0 & Hr0 & Hin0).
          exists (Upsert.assign c row0). split; [|split; [done|done]].
          rewrite Hstep. apply list_elem_of_In, List.in_map_iff. exists row0.
          split; [|done].
          replace (tc_id row0 =? c_id chat) with true; [done|].
          symmetry. apply Z.eqb_eq. congruence.
        - destruct Hstep as [-> _]. exists c.
          split; [apply elem_of_app; right; by left|].
          split; [congruence|done]. }
      destruct Hrow1 as (row & Hr & Hrid & Hb).
      exists row, c. split; [done|]. split; [|done].
      apply Hkeep; [done|]. by rewrite Hrid.
Qed.

Lemma for_each_ext {A} (f g : A -> M unit) (xs : list A) :
  (forall x, x ∈ xs -> forall d, f x d = g x d) ->
  forall d, for_each f xs d = for_each g xs d.
Proof.
  induction xs as [|x xs IH]; intros H d; simpl; [done|].
  unfold bind. rewrite (H x) by (by left).
  destruct (g x d) as [[[] d1]|]; [|done].
  apply IH. intros y Hy. apply H. by right.
Qed.

Lemma existsb_filter_keys (rows : list TelegramChat) (keys : list Z) (k : Z) :
  k ∈ keys ->
  existsb (fun row => tc_id row =? k)
          (List.filter (fun row => existsb (Z.eqb (tc_id row)) keys) rows)
  = existsb (fun row => tc_id row =? k) rows.
Proof.
  intros Hk. induction rows as [|row rows IH]; simpl; [done|].
  destruct (existsb (Z.eqb (tc_id row)) keys) eqn:Ek; simpl;
    [by rewrite IH|].
  rewrite IH. destruct (tc_id row =? k) eqn:Er; [|done].
  apply Z.eqb_eq in Er. exfalso.
  apply not_true_iff_false in Ek. apply Ek.
  apply existsb_exists. exists k.
  split; [by apply list_elem_of_In|]. by apply Z.eqb_eq.
Qed.

(** [log_chats] of the dispatcher is [log_chats] of the source when
    every chat is filed under its id, as the dispatcher files it. *)
Lemma log_chats_by_id (chats : list (Z * TgChat)) (d : db) :
  (forall kc, kc ∈ chats -> fst kc = c_id (snd kc)) ->
  Upsert.log_chats chats d = log_chats chats d.
Proof.
  intros Hid. unfold Upsert.log_chats, log_chats.
  unfold bind at 1 2. unfold bind at 2 3.
  unfold log_statement at 1 2. unfold get_db at 1 2.
  apply for_each_ext. intros [k chat] Hkc d1.
  unfold Upsert.log_chat, Upsert.assign. cbn [snd telegram_chats].
  rewrite existsb_filter_keys; [done|].
  assert (Hk : k = c_id chat) by apply (Hid (k, chat) Hkc).
  rewrite <- Hk. apply list_elem_of_In.
  apply (List.in_map fst chats (k, chat)). by apply list_elem_of_In.
Qed.

(** X20.  When every chat of the dictionary is filed under its id and
    has one of the four known types, and the ids of the table are unique,
    [log_chats] returns and every chat of the dictionary has a row
    afterwards that carries its type, title, names and flags: the row it
    had, with these columns overwritten, or a new one; the ids of the
    table are still unique, and the rows of the chats that the dictionary
    does not name are as they were. *)
Theorem log_chats_upserts_each_chat (chats : list (Z * TgChat)) (d : db) :
  (forall kc, kc ∈ chats -> fst kc = c_id (snd kc)) ->
  NoDup (List.map fst chats) ->
  NoDup (List.map tc_id (telegram_chats d)) ->
  (forall kc, kc ∈ chats -> ChatType_of_value (c_type (snd kc)) <> None) ->
  exists d',
    Upsert.log_chats chats d = Ok (tt, d')
    /\ log_chats chats d = Ok (tt, d')
    /\ NoDup (List.map tc_id (telegram_chats d'))
    /\ (forall row, row ∈ telegram_chats d ->
          tc_id row ∉ List.map fst chats -> row ∈ telegram_chats d')
    /\ (forall kc, kc ∈ chats ->
          exists row c,
            chat_values (snd kc) = Ok c
            /\ row ∈ telegram_chats d' /\ tc_id row = fst kc
            /\ Upsert.basic row = Upsert.basic c).
Proof.
  intros Hid Hkeys Hnd Htype.
  set (E := List.filter (fun row => existsb (Z.eqb (tc_id row))
                                            (List.map fst chats))
                        (telegram_chats d)).
  destruct (log_chats_loop E chats (executes SelectChat d))
    as (d' & Hrun & Hnd' & Hkeep & Hpost); try done.
  { intros kc Hkc. unfold E. simpl. rewrite existsb_exists. split.
    - intros (row & Hrow & Hk). apply List.filter_In in Hrow as [Hrow _].
      apply Z.eqb_eq in Hk. rewrite <- Hk.
      apply list_elem_of_In, List.in_map. done.
    - intros Hst.
      apply list_elem_of_In, List.in_map_iff in Hst as (row & Hk & Hrow).
      exists row. split; [|by apply Z.eqb_eq].
      apply List.filter_In. split; [done|]. apply existsb_exists.
      exists (fst kc). split; [|by apply Z.eqb_eq].
      apply List.in_map. by apply list_elem_of_In. }
  assert (Hup : Upsert.log_chats chats d = Ok (tt, d')) by exact Hrun.
  exists d'. split; [done|]. split; [by rewrite <- log_chats_by_id|].
  done.
Qed.

(** The lobby is renamed and keeps its pinned message and photo; chat
    300 is added with these columns empty. *)
Lemma log_chats_keeps_the_full_info_witness :
  exists d' (new : list TelegramChat),
    Upsert.log_chats Rooms.named Rooms.store = Ok (tt, d')
    /\ List.map tc_title (telegram_chats d') = [Some "room"; Some "room"]
    /\ List.map Upsert.full_info (telegram_chats d')
       = [Upsert.full_info Rooms.lobby]
         ++ List.map (fun _ => (None, None, None, None, None, None)) new.
Proof.
  assert (Hrun : exists d',
             Upsert.log_chats Rooms.named Rooms.store = Ok (tt, d')
             /\ List.map tc_title (telegram_chats d')
                = [Some "room"; Some "room"])
    by (eexists; split; vm_compute; reflexivity).
  destruct Hrun as (d' & Hrun & Htitles).
  destruct (log_chats_keeps_the_full_info Rooms.named Rooms.store d' Hrun)
    as (new & _ & Hfull & _).
  by exists d', new.
Defined.

Lemma log_chats_upserts_each_chat_witness :
  NoDup (List.map fst Rooms.named)
  /\ NoDup (List.map tc_id (telegram_chats Rooms.store))
  /\ exists d',
      log_chats Rooms.named Rooms.store = Ok (tt, d')
      /\ NoDup (List.map tc_id (telegram_chats d')).
Proof.
  assert (H1 : NoDup (List.map fst Rooms.named))
    by (apply (bool_decide_unpack _); vm_compute; exact I).
  assert (H2 : NoDup (List.map tc_id (telegram_chats Rooms.store)))
    by (apply (bool_decide_unpack _); vm_compute; exact I).
  split; [exact H1|]. split; [exact H2|].
  destruct (log_chats_upserts_each_chat Rooms.named Rooms.store)
    as (d' & _ & Hrun & Hnd & _).
  - intros kc Hkc. unfold Rooms.named in Hkc.
    apply elem_of_cons in Hkc as [->|Hkc]; [reflexivity|].
    apply list_elem_of_singleton in Hkc as ->. reflexivity.
  - exact H1.
  - exact H2.
  - intros kc Hkc. unfold Rooms.named in Hkc.
    apply elem_of_cons in Hkc as [->|Hkc]; [discriminate|].
    apply list_elem_of_singleton in Hkc as ->. discriminate.
  - by exists d'.
Defined.
